(** * capturedisp: frame acquisition, format conversion and border detection

    A shallow embedding of [src/capture.c] and of the frame-processing part
    of [src/main.c], with the properties of the natural-language
    specification stated and settled against it.

    Conventions.
    - A C [int] is a [Z].  Signed overflow is undefined in C, so there is no
      wrap-around to write out; the few unsigned conversions of the source
      ([req.count]) are written with [Z.modulo].  [a / b] on ints is
      [Z.quot] (truncation), [a >> 8] is [Z.shiftr] (arithmetic shift, as
      gcc and clang implement it on negative ints), [a & ~m] is
      [Z.land a (Z.lnot m)].
    - A [const uint8_t *] that is only read is a [buffer]: the byte found at
      each offset from the pointer.  Advancing the pointer is adding to the
      offset.
    - Code that writes through a [uint8_t *] yields its [store]s in program
      order: the offset from the destination pointer and the byte.  The
      memory after the call is [run_stores], and the offsets touched are
      those of the trace, whether or not they lie inside the allocation. *)

From stdpp Require Import base list numbers.
From Stdlib Require Import ZArith Lia.

Open Scope Z_scope.

(** ** Memory *)

Definition buffer := Z -> Z.

Definition store := (Z * Z)%type.

Definition upd (m : buffer) (k v : Z) : buffer :=
  fun j => if j =? k then v else m j.

Definition run_stores (ws : list store) (m : buffer) : buffer :=
  fold_left (fun acc w => upd acc (fst w) (snd w)) ws m.

(** [p[0] = v0; p[1] = v1; ...] for a pointer [p] at offset [off]. *)
Fixpoint stores_from (off : Z) (vs : list Z) : list store :=
  match vs with
  | [] => []
  | v :: vs' => (off, v) :: stores_from (off + 1) vs'
  end.

(** [memset(p, 0, n)] *)
Definition memset0 (n : Z) : list store :=
  stores_from 0 (repeat 0 (Z.to_nat n)).

Definition offsets (ws : list store) : list Z := map fst ws.

(** ** Packed YUV 4:2:2 to RGBA (shared by capture.c and main.c)

    The bodies of the two conversion loops ([capture.c] lines 41-71 and
    [main.c] lines 319-346) are the same statements; [macropixel] is that
    body, from the four bytes read to the eight bytes written. *)

Definition clamp255 (c : Z) : Z :=
  if c <? 0 then 0 else if c >? 255 then 255 else c.

Definition macropixel (y0 u y1 v : Z) : list Z :=
  let uu := u - 128 in
  let vv := v - 128 in
  let ruv := Z.shiftr (359 * vv) 8 in
  let guv := Z.shiftr (88 * uu + 183 * vv) 8 in
  let buv := Z.shiftr (454 * uu) 8 in
  let r0 := y0 + ruv in
  let g0 := y0 - guv in
  let b0 := y0 + buv in
  let r1 := y1 + ruv in
  let g1 := y1 - guv in
  let b1 := y1 + buv in
  [clamp255 r0; clamp255 g0; clamp255 b0; 255;
   clamp255 r1; clamp255 g1; clamp255 b1; 255].

(** One iteration: read [src[0..3]] at [sp], write [dst[0..7]] at [dp]. *)
Definition convert_at (src : buffer) (sp dp : Z) : list store :=
  stores_from dp (macropixel (src sp) (src (sp + 1)) (src (sp + 2)) (src (sp + 3))).

Module Capture.

(** *** The V4L2 side, as the code sees it

    The driver is the environment of [capture.c].  A slot is [Queued]
    (owned by the driver) or [Acquired] (dequeued, owned by the consumer).
    [done] is the driver's FIFO of filled buffers with their [bytesused];
    [mapped i] is the memory-mapped region of slot [i]. *)

Inductive slot_state := Queued | Acquired.

#[global] Instance slot_state_eq_dec : EqDecision slot_state.
Proof. solve_decision. Defined.

Record driver := {
  slots : list slot_state;
  done : list (nat * Z);
  mapped : nat -> buffer
}.

(** VIDIOC_DQBUF on a non-blocking descriptor: [None] is the ioctl
    returning -1 (EAGAIN when nothing is filled). *)
Definition vidioc_dqbuf (drv : driver) : option (nat * Z * driver) :=
  match done drv with
  | [] => None
  | (i, used) :: rest =>
      Some (i, used,
            {| slots := <[i := Acquired]> (slots drv);
               done := rest;
               mapped := mapped drv |})
  end.

(** VIDIOC_QBUF: hands a dequeued slot back; -1 on a bad index or on a slot
    the driver already owns. *)
Definition vidioc_qbuf (drv : driver) (index : Z) : option driver :=
  if (0 <=? index) then
    match slots drv !! Z.to_nat index with
    | Some Acquired =>
        Some {| slots := <[Z.to_nat index := Queued]> (slots drv);
                done := done drv;
                mapped := mapped drv |}
    | _ => None
    end
  else None.

(** The driver fills a slot it owns and appends it to [done]. *)
Definition driver_fill (drv : driver) (i : nat) (frame : buffer) (used : Z) : driver :=
  match slots drv !! i with
  | Some Queued =>
      if bool_decide (i ∈ map fst (done drv)) then drv
      else {| slots := slots drv;
              done := done drv ++ [(i, used)];
              mapped := fun j => if bool_decide (j = i) then frame else mapped drv j |}
  | _ => drv
  end.

Fixpoint acquired_count (l : list slot_state) : nat :=
  match l with
  | [] => 0%nat
  | Acquired :: l' => S (acquired_count l')
  | Queued :: l' => acquired_count l'
  end.

(** What the device answers during [capture_open_buffers]; [None] and
    [false] are a failing call. *)
Record device := {
  dev_open : bool;
  dev_querycap : option Z;
  dev_s_fmt : Z -> Z -> Z -> option (Z * Z * Z);
  dev_reqbufs : Z -> option Z;
  dev_querybuf : Z -> option Z;
  dev_mmap : Z -> bool;
  dev_qbuf : Z -> bool;
  dev_streamon : bool
}.

(** Constants of <linux/videodev2.h>. *)
Definition V4L2_CAP_VIDEO_CAPTURE : Z := 1.
Definition V4L2_PIX_FMT_YUYV : Z := 0x56595559.
Definition V4L2_PIX_FMT_MJPEG : Z := 0x47504A4D.

Definition BUFFER_COUNT : Z := 2.

Record capture_ctx_t := {
  width : Z;
  height : Z;
  format : Z;
  buffer_count : Z;
  current_index : Z;
  rgb_buffer : buffer
}.

Definition set_current_index (c : capture_ctx_t) (i : Z) : capture_ctx_t :=
  {| width := width c; height := height c; format := format c;
     buffer_count := buffer_count c; current_index := i;
     rgb_buffer := rgb_buffer c |}.

Definition set_rgb_buffer (c : capture_ctx_t) (b : buffer) : capture_ctx_t :=
  {| width := width c; height := height c; format := format c;
     buffer_count := buffer_count c; current_index := current_index c;
     rgb_buffer := b |}.

(** [int] to [__u32] and back, for [req.count]. *)
Definition to_u32 (n : Z) : Z := n mod 2 ^ 32.
Definition to_int (n : Z) : Z := if n <? 2 ^ 31 then n else n - 2 ^ 32.

Definition indices (count : Z) : list Z := map Z.of_nat (seq 0 (Z.to_nat count)).

(** The count handed to VIDIOC_REQBUFS: [req.count = num_buffers]. *)
Definition requested_count (num_buffers : Z) : Z := to_u32 num_buffers.

(** [capture_open_buffers]: the context, or [None] for NULL, with the
    driver state it leaves behind.  [uninit] is the content of the fresh
    [malloc] for [rgb_buffer]. *)
Definition capture_open_buffers (dev : device) (uninit : buffer)
    (req_width req_height num_buffers : Z) : option (capture_ctx_t * driver) :=
  if negb (dev_open dev) then None else
  match dev_querycap dev with
  | None => None
  | Some capabilities =>
    if Z.land capabilities V4L2_CAP_VIDEO_CAPTURE =? 0 then None else
    let fmt :=
      match dev_s_fmt dev V4L2_PIX_FMT_MJPEG req_width req_height with
      | Some (pf, w, h) =>
          if pf =? V4L2_PIX_FMT_MJPEG then Some (pf, w, h)
          else dev_s_fmt dev V4L2_PIX_FMT_YUYV w h
      | None => dev_s_fmt dev V4L2_PIX_FMT_YUYV req_width req_height
      end in
    match fmt with
    | None => None
    | Some (pf, w, h) =>
      match dev_reqbufs dev (requested_count num_buffers) with
      | None => None
      | Some count =>
        if forallb (fun i => match dev_querybuf dev i with
                             | Some _ => dev_mmap dev i
                             | None => false
                             end) (indices count)
           && forallb (dev_qbuf dev) (indices count)
           && dev_streamon dev
        then Some ({| width := w; height := h; format := pf;
                      buffer_count := to_int count; current_index := 0;
                      rgb_buffer := uninit |},
                   {| slots := repeat Queued (Z.to_nat count);
                      done := [];
                      mapped := fun _ _ => 0 |})
        else None
      end
    end
  end.

Definition capture_open (dev : device) (uninit : buffer) (w h : Z) :=
  capture_open_buffers dev uninit w h BUFFER_COUNT.

(** [capture_get_frame_raw]: the pointer returned is [buffers[index].start],
    given here as the slot index, with [*out_size]. *)
Definition capture_get_frame_raw (ctx : option capture_ctx_t) (drv : driver)
    : option (nat * Z) * option capture_ctx_t * driver :=
  match ctx with
  | None => (None, None, drv)
  | Some c =>
      match vidioc_dqbuf drv with
      | None => (None, Some c, drv)
      | Some (index, bytesused, drv') =>
          (Some (index, bytesused), Some (set_current_index c (Z.of_nat index)), drv')
      end
  end.

(** [capture_return_buffer]: the result of the ioctl is not looked at. *)
Definition capture_return_buffer (ctx : option capture_ctx_t) (drv : driver) : driver :=
  match ctx with
  | None => drv
  | Some c =>
      match vidioc_qbuf drv (current_index c) with
      | Some drv' => drv'
      | None => drv
      end
  end.

(** How the callers use the pair: [capture_get_frame] and the frame loop of
    main.c (lines 779-857) release exactly when a frame was returned. *)
Definition poll (ctx : option capture_ctx_t) (drv : driver)
    : option capture_ctx_t * driver :=
  match capture_get_frame_raw ctx drv with
  | (Some _, ctx', drv') => (ctx', capture_return_buffer ctx' drv')
  | (None, ctx', drv') => (ctx', drv')
  end.

(** A session: the driver fills slots, the caller polls. *)
Inductive event :=
| Fill (i : nat) (frame : buffer) (used : Z)
| Poll.

Fixpoint run (events : list event) (ctx : option capture_ctx_t) (drv : driver)
    : option capture_ctx_t * driver :=
  match events with
  | [] => (ctx, drv)
  | Fill i frame used :: rest => run rest ctx (driver_fill drv i frame used)
  | Poll :: rest => let '(ctx', drv') := poll ctx drv in run rest ctx' drv'
  end.

(** [for (int i = 0; i < total; i++) { ...; src += 4; ...; dst += 8; }] *)
Fixpoint yuyv_loop (n : nat) (src : buffer) (sp dp : Z) : list store :=
  match n with
  | O => []
  | S n' => convert_at src sp dp ++ yuyv_loop n' src (sp + 4) (dp + 8)
  end.

Definition yuyv_to_rgba_fast (src : buffer) (width height : Z) : list store :=
  let total := Z.quot (width * height) 2 in
  yuyv_loop (Z.to_nat total) src 0 0.

(** *** libjpeg, as the code sees it

    A decoder [dec data size] is [None] when [error_exit] is called before the
    first scanline is asked for (in [jpeg_mem_src], [jpeg_read_header] or
    [jpeg_start_decompress]).  Otherwise it gives the output size, what each
    [jpeg_read_scanlines] call does ([None]: [error_exit]) and whether
    [jpeg_finish_decompress] returns after [y] scanlines were read. *)

Record jpeg_image := {
  output_width : Z;
  output_height : Z;
  scanline : Z -> option buffer;
  finish_ok : Z -> bool
}.

Definition jpeg_decoder := buffer -> Z -> option jpeg_image.

(** [for (x = 0; x < width && x < output_width; x++)] of one row. *)
Fixpoint mjpeg_row (fuel : nat) (row_buffer : buffer) (x width ow dst : Z) : list store :=
  match fuel with
  | O => []
  | S f =>
      if (x <? width) && (x <? ow) then
        [(dst + x * 4 + 0, row_buffer (x * 3 + 0));
         (dst + x * 4 + 1, row_buffer (x * 3 + 1));
         (dst + x * 4 + 2, row_buffer (x * 3 + 2));
         (dst + x * 4 + 3, 255)]
        ++ mjpeg_row f row_buffer (x + 1) width ow dst
      else []
  end.

(** The [while] loop over scanlines: the stores made, the final [y], and
    whether the loop ended without [error_exit]. *)
Fixpoint mjpeg_rows (fuel : nat) (img : jpeg_image) (width height y : Z)
    : list store * Z * bool :=
  match fuel with
  | O => ([], y, true)
  | S f =>
      if (y <? output_height img) && (y <? height) then
        match scanline img y with
        | None => ([], y, false)
        | Some row_buffer =>
            let here := mjpeg_row (Z.to_nat width) row_buffer 0 width
                                  (output_width img) (y * width * 4) in
            let '(rest, y', ok) := mjpeg_rows f img width height (y + 1) in
            (here ++ rest, y', ok)
        end
      else ([], y, true)
  end.

Definition mjpeg_to_rgba (dec : jpeg_decoder) (mjpeg : buffer) (size : Z)
    (width height : Z) : list store :=
  match dec mjpeg size with
  | None => memset0 (width * height * 4)
  | Some img =>
      let '(ws, y, ok) := mjpeg_rows (Z.to_nat height) img width height 0 in
      if ok && finish_ok img y then ws
      else ws ++ memset0 (width * height * 4)
  end.

(** The decode is abandoned through [longjmp]: [error_exit] is reached in
    the header, in some scanline that the loop reads, or at the end. *)
Inductive decode_fails (dec : jpeg_decoder) (mjpeg : buffer) (size height : Z) : Prop :=
| fails_header :
    dec mjpeg size = None -> decode_fails dec mjpeg size height
| fails_scanline img y :
    dec mjpeg size = Some img ->
    0 <= y < output_height img -> y < height ->
    scanline img y = None ->
    decode_fails dec mjpeg size height
| fails_finish img :
    dec mjpeg size = Some img ->
    (forall y, 0 <= y < output_height img -> y < height -> scanline img y <> None) ->
    finish_ok img (Z.max 0 (Z.min (output_height img) height)) = false ->
    decode_fails dec mjpeg size height.

(** [capture_get_frame]: the converted frame, or [None] for NULL. *)
Definition capture_get_frame (dec : jpeg_decoder) (ctx : option capture_ctx_t)
    (drv : driver) : option buffer * option capture_ctx_t * driver :=
  match capture_get_frame_raw ctx drv with
  | (Some (index, size), Some c, drv') =>
      let raw := mapped drv' index in
      let rgb :=
        if format c =? V4L2_PIX_FMT_YUYV then
          run_stores (yuyv_to_rgba_fast raw (width c) (height c)) (rgb_buffer c)
        else if format c =? V4L2_PIX_FMT_MJPEG then
          run_stores (mjpeg_to_rgba dec raw size (width c) (height c)) (rgb_buffer c)
        else rgb_buffer c in
      let c' := set_rgb_buffer c rgb in
      (Some rgb, Some c', capture_return_buffer (Some c') drv')
  | (_, ctx', drv') => (None, ctx', drv')
  end.

End Capture.

Module Main.

Inductive detected_preset_t := PRESET_NONE | PRESET_NES_SWITCH | PRESET_SNES_SWITCH.

#[global] Instance detected_preset_eq_dec : EqDecision detected_preset_t.
Proof. solve_decision. Defined.

Definition NES_CROP_X : Z := 448.
Definition NES_CROP_Y : Z := 83.
Definition NES_CROP_W : Z := 1024.
Definition NES_CROP_H : Z := 912.

(** The file-scope variables of [main.c] that the frame loop reads and
    writes.  [config_crop] stands for the four crop fields of [config];
    [crop_buffer_len] is the size of the last [malloc] for [crop_buffer]
    (the texture is recreated at the same places). *)
Record main_state := {
  crop_x : Z;
  crop_y : Z;
  crop_w : Z;
  crop_h : Z;
  auto_detect : bool;
  last_detected : detected_preset_t;
  detect_cooldown : Z;
  last_border_luma : list Z;
  pending_border_scan : bool;
  buffer_count : Z;
  pending_buffer_change : bool;
  config_crop : Z * Z * Z * Z;
  crop_buffer_len : Z
}.

Definition initial_state : main_state :=
  {| crop_x := NES_CROP_X; crop_y := NES_CROP_Y;
     crop_w := NES_CROP_W; crop_h := NES_CROP_H;
     auto_detect := false; last_detected := PRESET_NONE;
     detect_cooldown := 0; last_border_luma := [0; 0; 0; 0];
     pending_border_scan := false;
     buffer_count := 2; pending_buffer_change := false;
     config_crop := (0, 0, 0, 0);
     crop_buffer_len := NES_CROP_W * NES_CROP_H * 4 |}.

(** [yuyv[(y * width + x) * 2]] *)
Definition sample_yuyv_luma (yuyv : buffer) (width x y : Z) : Z :=
  yuyv ((y * width + x) * 2).

(** [if (d < 0) d = -d;] *)
Definition abs_int (d : Z) : Z := if d <? 0 then - d else d.

Definition border_samples (yuyv : buffer) (width : Z) : list Z :=
  [sample_yuyv_luma yuyv width 400 200;
   sample_yuyv_luma yuyv width 400 400;
   sample_yuyv_luma yuyv width 400 600;
   sample_yuyv_luma yuyv width 400 800].

(** The [for (i = 0; i < 4; i++)] loop of [border_changed]: [diff]. *)
Definition border_diff (samples last : list Z) : Z :=
  fold_left (fun diff i => diff + abs_int (nth i samples 0 - nth i last 0))
            (seq 0 4) 0.

(** [border_changed]: the result, and [last_border_luma] afterwards (every
    entry is overwritten by its sample). *)
Definition border_changed (yuyv : buffer) (width : Z) (current : detected_preset_t)
    (last : list Z) : bool * list Z :=
  let samples := border_samples yuyv width in
  let diff := border_diff samples last in
  (if bool_decide (current = PRESET_NONE) then true else diff >? 60, samples).

(** [luma > content_threshold && luma > border_luma + 15] *)
Definition is_content (border_luma luma : Z) : bool :=
  (luma >? 40) && (luma >? border_luma + 15).

(** [for (p = pos; p < limit; p += 2) if (hit p) { edge = p; break; }]
    with [edge] initialised to [dflt]. *)
Fixpoint scan_up (fuel : nat) (hit : Z -> bool) (pos limit dflt : Z) : Z :=
  match fuel with
  | O => dflt
  | S f =>
      if pos <? limit then
        if hit pos then pos else scan_up f hit (pos + 2) limit dflt
      else dflt
  end.

(** [for (p = pos; p > limit; p -= 2) if (hit p) { edge = p + 1; break; }] *)
Fixpoint scan_down (fuel : nat) (hit : Z -> bool) (pos limit dflt : Z) : Z :=
  match fuel with
  | O => dflt
  | S f =>
      if pos >? limit then
        if hit pos then pos + 1 else scan_down f hit (pos - 2) limit dflt
      else dflt
  end.

Definition border_luma_of (yuyv : buffer) (width height : Z) : Z :=
  sample_yuyv_luma yuyv width 200 (Z.quot height 2).

Definition left_edge_of (yuyv : buffer) (width height : Z) : Z :=
  scan_up (Z.to_nat (Z.quot width 2 - 150))
    (fun x => is_content (border_luma_of yuyv width height)
                (sample_yuyv_luma yuyv width x (Z.quot height 2)))
    150 (Z.quot width 2) 0.

Definition right_edge_of (yuyv : buffer) (width height : Z) : Z :=
  scan_down (Z.to_nat (width - 150 - Z.quot width 2))
    (fun x => is_content (border_luma_of yuyv width height)
                (sample_yuyv_luma yuyv width x (Z.quot height 2)))
    (width - 150) (Z.quot width 2) width.

Definition center_x_of (yuyv : buffer) (width height : Z) : Z :=
  let center_x := Z.quot (left_edge_of yuyv width height + right_edge_of yuyv width height) 2 in
  if center_x <? 200 then Z.quot width 2 else center_x.

Definition top_edge_of (yuyv : buffer) (width height : Z) : Z :=
  scan_up (Z.to_nat (Z.quot height 2 - 120))
    (fun y => is_content (border_luma_of yuyv width height)
                (sample_yuyv_luma yuyv width (center_x_of yuyv width height) y))
    120 (Z.quot height 2) 0.

Definition scan_x_bottom_of (yuyv : buffer) (width height : Z) : Z :=
  if left_edge_of yuyv width height >? 0
  then left_edge_of yuyv width height + 50
  else Z.quot width 3.

Definition bottom_edge_of (yuyv : buffer) (width height : Z) : Z :=
  scan_down (Z.to_nat (height - 100 - Z.quot height 2))
    (fun y => is_content (border_luma_of yuyv width height)
                (sample_yuyv_luma yuyv width (scan_x_bottom_of yuyv width height) y))
    (height - 100) (Z.quot height 2) height.

(** [scan_for_game_area]: [Some (x, y, w, h)] for [true] with the four
    out-parameters, [None] for [false]. *)
Definition scan_for_game_area (yuyv : buffer) (width height : Z)
    : option (Z * Z * Z * Z) :=
  let left_edge := left_edge_of yuyv width height in
  let right_edge := right_edge_of yuyv width height in
  let top_edge := top_edge_of yuyv width height in
  let bottom_edge := bottom_edge_of yuyv width height in
  let detected_w := right_edge - left_edge in
  let detected_h := bottom_edge - top_edge in
  if (left_edge <? 50) || (detected_w <? 200) || (detected_h <? 200) then None
  else
    let left_edge' := Z.land left_edge (Z.lnot 3) in
    let top_edge' := Z.land top_edge (Z.lnot 3) in
    let detected_w' := Z.land ((right_edge - left_edge') + 3) (Z.lnot 3) in
    let detected_h' := Z.land ((bottom_edge - top_edge') + 3) (Z.lnot 3) in
    Some (left_edge', top_edge', detected_w', detected_h').

Definition detect_preset (yuyv : buffer) (width height : Z) : detected_preset_t :=
  let border_y1 := sample_yuyv_luma yuyv width 400 300 in
  let border_y2 := sample_yuyv_luma yuyv width 400 500 in
  let border_y3 := sample_yuyv_luma yuyv width 400 700 in
  if (border_y1 >? 30) || (border_y2 >? 30) || (border_y3 >? 30) then PRESET_NONE
  else
    let y85_luma := sample_yuyv_luma yuyv width 700 85 in
    let y95_luma := sample_yuyv_luma yuyv width 700 95 in
    if y85_luma >? 20 then PRESET_NES_SWITCH
    else if y95_luma >? 20 then PRESET_SNES_SWITCH
    else
      let center_luma := sample_yuyv_luma yuyv width 960 540 in
      if center_luma >? 10 then
        let nes_start := sample_yuyv_luma yuyv width 700 83 in
        if nes_start >? 15 then PRESET_NES_SWITCH else PRESET_SNES_SWITCH
      else PRESET_NONE.

Definition apply_detected_preset (preset : detected_preset_t) : Z * Z * Z * Z :=
  match preset with
  | PRESET_NES_SWITCH => (448, 83, 1024, 912)
  | PRESET_SNES_SWITCH => (448, 92, 1024, 896)
  | PRESET_NONE => (0, 0, 1920, 1080)
  end.

(** [for (x = 0; x < crop_w; x += 2) { ...; row += 4; ...; out += 8; }] *)
Fixpoint crop_row (fuel : nat) (src : buffer) (x crop_w row out : Z) : list store :=
  match fuel with
  | O => []
  | S f =>
      if x <? crop_w then
        convert_at src row out ++ crop_row f src (x + 2) crop_w (row + 4) (out + 8)
      else []
  end.

(** The body of the outer loop for row [y], with [crop_x] already made
    even: [row] and [out] are set, then the inner loop runs. *)
Definition crop_row_at (src : buffer) (src_w crop_x crop_y crop_w y : Z) : list store :=
  let row := ((crop_y + y) * src_w + crop_x) * 2 in
  let out := y * crop_w * 4 in
  crop_row (Z.to_nat crop_w) src 0 crop_w row out.

(** [for (y = 0; y < crop_h; y++)] *)
Fixpoint crop_rows (fuel : nat) (src : buffer) (src_w crop_x crop_y crop_w crop_h y : Z)
    : list store :=
  match fuel with
  | O => []
  | S f =>
      if y <? crop_h then
        crop_row_at src src_w crop_x crop_y crop_w y
        ++ crop_rows f src src_w crop_x crop_y crop_w crop_h (y + 1)
      else []
  end.

Definition yuyv_crop_to_rgba (src : buffer) (src_w src_h : Z)
    (crop_x crop_y crop_w crop_h : Z) : list store :=
  let crop_x := Z.land crop_x (Z.lnot 1) in
  crop_rows (Z.to_nat crop_h) src src_w crop_x crop_y crop_w crop_h 0.

(** *** The frame loop *)

Definition set_crop (st : main_state) (x y w h len : Z) : main_state :=
  {| crop_x := x; crop_y := y; crop_w := w; crop_h := h;
     auto_detect := auto_detect st; last_detected := last_detected st;
     detect_cooldown := detect_cooldown st;
     last_border_luma := last_border_luma st;
     pending_border_scan := pending_border_scan st;
     buffer_count := buffer_count st;
     pending_buffer_change := pending_buffer_change st;
     config_crop := config_crop st; crop_buffer_len := len |}.

Definition set_config_crop (st : main_state) (c : Z * Z * Z * Z) : main_state :=
  {| crop_x := crop_x st; crop_y := crop_y st;
     crop_w := crop_w st; crop_h := crop_h st;
     auto_detect := auto_detect st; last_detected := last_detected st;
     detect_cooldown := detect_cooldown st;
     last_border_luma := last_border_luma st;
     pending_border_scan := pending_border_scan st;
     buffer_count := buffer_count st;
     pending_buffer_change := pending_buffer_change st;
     config_crop := c; crop_buffer_len := crop_buffer_len st |}.

Definition set_auto_detect (st : main_state) (a : bool) : main_state :=
  {| crop_x := crop_x st; crop_y := crop_y st;
     crop_w := crop_w st; crop_h := crop_h st;
     auto_detect := a; last_detected := last_detected st;
     detect_cooldown := detect_cooldown st;
     last_border_luma := last_border_luma st;
     pending_border_scan := pending_border_scan st;
     buffer_count := buffer_count st;
     pending_buffer_change := pending_buffer_change st;
     config_crop := config_crop st; crop_buffer_len := crop_buffer_len st |}.

Definition set_last_detected (st : main_state) (d : detected_preset_t) : main_state :=
  {| crop_x := crop_x st; crop_y := crop_y st;
     crop_w := crop_w st; crop_h := crop_h st;
     auto_detect := auto_detect st; last_detected := d;
     detect_cooldown := detect_cooldown st;
     last_border_luma := last_border_luma st;
     pending_border_scan := pending_border_scan st;
     buffer_count := buffer_count st;
     pending_buffer_change := pending_buffer_change st;
     config_crop := config_crop st; crop_buffer_len := crop_buffer_len st |}.

Definition set_detect_cooldown (st : main_state) (n : Z) : main_state :=
  {| crop_x := crop_x st; crop_y := crop_y st;
     crop_w := crop_w st; crop_h := crop_h st;
     auto_detect := auto_detect st; last_detected := last_detected st;
     detect_cooldown := n;
     last_border_luma := last_border_luma st;
     pending_border_scan := pending_border_scan st;
     buffer_count := buffer_count st;
     pending_buffer_change := pending_buffer_change st;
     config_crop := config_crop st; crop_buffer_len := crop_buffer_len st |}.

Definition set_last_border_luma (st : main_state) (l : list Z) : main_state :=
  {| crop_x := crop_x st; crop_y := crop_y st;
     crop_w := crop_w st; crop_h := crop_h st;
     auto_detect := auto_detect st; last_detected := last_detected st;
     detect_cooldown := detect_cooldown st;
     last_border_luma := l;
     pending_border_scan := pending_border_scan st;
     buffer_count := buffer_count st;
     pending_buffer_change := pending_buffer_change st;
     config_crop := config_crop st; crop_buffer_len := crop_buffer_len st |}.

Definition set_pending_border_scan (st : main_state) (p : bool) : main_state :=
  {| crop_x := crop_x st; crop_y := crop_y st;
     crop_w := crop_w st; crop_h := crop_h st;
     auto_detect := auto_detect st; last_detected := last_detected st;
     detect_cooldown := detect_cooldown st;
     last_border_luma := last_border_luma st;
     pending_border_scan := p;
     buffer_count := buffer_count st;
     pending_buffer_change := pending_buffer_change st;
     config_crop := config_crop st; crop_buffer_len := crop_buffer_len st |}.

Definition set_buffer_count (st : main_state) (n : Z) (pending : bool) : main_state :=
  {| crop_x := crop_x st; crop_y := crop_y st;
     crop_w := crop_w st; crop_h := crop_h st;
     auto_detect := auto_detect st; last_detected := last_detected st;
     detect_cooldown := detect_cooldown st;
     last_border_luma := last_border_luma st;
     pending_border_scan := pending_border_scan st;
     buffer_count := n;
     pending_buffer_change := pending;
     config_crop := config_crop st; crop_buffer_len := crop_buffer_len st |}.

Inductive key := SDLK_a | SDLK_d | SDLK_b.

(** The [switch (key)] of normal mode, for the keys that touch the state
    above. *)
Definition handle_key (k : key) (st : main_state) : main_state :=
  match k with
  | SDLK_a => set_auto_detect st (negb (auto_detect st))
  | SDLK_d => set_pending_border_scan st true
  | SDLK_b =>
      let n := buffer_count st + 1 in
      set_buffer_count st (if n >? 4 then 1 else n) true
  end.

(** The two branches that install a new crop (lines 791-803 and 831-846):
    [crop_buffer] is reallocated only when the size differs. *)
Definition install_crop (st : main_state) (new_cx new_cy new_cw new_ch : Z)
    : main_state :=
  if negb (new_cw =? crop_w st) || negb (new_ch =? crop_h st)
  then set_crop st new_cx new_cy new_cw new_ch (new_cw * new_ch * 4)
  else set_crop st new_cx new_cy (crop_w st) (crop_h st) (crop_buffer_len st).

(** [if (pending_border_scan) { ... }] (main.c lines 782-819) *)
Definition manual_scan_step (raw : buffer) (width height : Z) (st : main_state)
    : main_state :=
  if pending_border_scan st then
    let st := set_pending_border_scan st false in
    match scan_for_game_area raw width height with
    | Some (new_cx, new_cy, new_cw, new_ch) =>
        let st := install_crop st new_cx new_cy new_cw new_ch in
        let st := set_config_crop st (crop_x st, crop_y st, crop_w st, crop_h st) in
        let st := set_auto_detect st false in
        set_last_detected st PRESET_NONE
    | None => st
    end
  else st.

(** [if (auto_detect && detect_cooldown <= 0) { ... }] (lines 823-851) *)
Definition auto_detect_step (raw : buffer) (width height : Z) (st : main_state)
    : main_state :=
  if auto_detect st && (detect_cooldown st <=? 0) then
    let '(changed, luma) :=
      border_changed raw width (last_detected st) (last_border_luma st) in
    let st := set_last_border_luma st luma in
    let st :=
      if changed then
        let detected := detect_preset raw width height in
        if bool_decide (detected <> last_detected st) then
          let '(new_cx, new_cy, new_cw, new_ch) := apply_detected_preset detected in
          let st := install_crop st new_cx new_cy new_cw new_ch in
          set_last_detected st detected
        else st
      else st in
    set_detect_cooldown st 30
  else st.

(** [if (detect_cooldown > 0) detect_cooldown--;] *)
Definition cooldown_tick (st : main_state) : main_state :=
  if detect_cooldown st >? 0 then set_detect_cooldown st (detect_cooldown st - 1)
  else st.

(** The body of [if (raw) { ... }] up to the conversion, for one frame. *)
Definition process_frame (raw : buffer) (width height : Z) (st : main_state)
    : main_state :=
  cooldown_tick (auto_detect_step raw width height (manual_scan_step raw width height st)).


Fixpoint feed (frames : list buffer) (width height : Z) (st : main_state) : main_state :=
  match frames with
  | [] => st
  | raw :: rest => feed rest width height (process_frame raw width height st)
  end.

(** The coordinates at which the continuous detector samples the luma:
    the four of [border_changed] and the seven of [detect_preset]. *)
Definition probe_points : list (Z * Z) :=
  [(400, 200); (400, 400); (400, 600); (400, 800);
   (400, 300); (400, 500); (400, 700);
   (700, 85); (700, 95); (960, 540); (700, 83)].

(** Frame [g] has the luma of frame [f] at every probe coordinate. *)
Definition same_probes (width : Z) (f g : buffer) : Prop :=
  forall x y, In (x, y) probe_points ->
    sample_yuyv_luma g width x y = sample_yuyv_luma f width x y.

(** The detector's state agrees with the frame [raw]: the label is what
    [raw] classifies as, or it is a recognised layout whose stored border
    samples are within the debounce threshold of those of [raw]. *)
Definition settled (raw : buffer) (width height : Z) (st : main_state) : Prop :=
  detect_preset raw width height = last_detected st
  \/ (last_detected st <> PRESET_NONE
      /\ border_diff (border_samples raw width) (last_border_luma st) <= 60).

(** The count passed to [capture_open_buffers] after a run of key presses,
    starting from the count in [st]. *)
Definition press (keys : list key) (st : main_state) : main_state :=
  fold_left (fun s k => handle_key k s) keys st.

(** [sample_yuyv_rgb] (main.c lines 120-133): the values left in [*r],
    [*g] and [*b]. *)
Definition sample_yuyv_rgb (yuyv : buffer) (width x y : Z) : Z * Z * Z :=
  let idx := (y * width + Z.land x (Z.lnot 1)) * 2 in
  let y_val := yuyv ((y * width + x) * 2) in
  let u := yuyv (idx + 1) - 128 in
  let v := yuyv (idx + 3) - 128 in
  let r := y_val + Z.shiftr (359 * v) 8 in
  let g := y_val - Z.shiftr (88 * u + 183 * v) 8 in
  let b := y_val + Z.shiftr (454 * u) 8 in
  let r := if r <? 0 then 0 else r in
  let r := if r >? 255 then 255 else r in
  let g := if g <? 0 then 0 else g in
  let g := if g >? 255 then 255 else g in
  let b := if b <? 0 then 0 else b in
  let b := if b >? 255 then 255 else b in
  (r, g, b).









Inductive scale_mode_t := SCALE_SMOOTH | SCALE_PIXEL.

(** The destination rectangle (main.c lines 876-898):
    [(dst_x, dst_y, dst_w, dst_h)]. *)
Definition dst_rect (scale_mode : scale_mode_t) (crop_w crop_h out_w out_h : Z)
    : Z * Z * Z * Z :=
  let native_w := Z.quot crop_w 4 in
  let native_h := Z.quot crop_h 4 in
  let '(dst_w, dst_h) :=
    match scale_mode with
    | SCALE_PIXEL => (native_w * 2, native_h * 2)
    | SCALE_SMOOTH =>
        let dst_h := native_h * 2 in
        let aspect_w := Z.quot (dst_h * 4) 3 in
        let native_scaled_w := native_w * 2 in
        ((if native_scaled_w >? aspect_w then native_scaled_w else aspect_w), dst_h)
    end in
  let dst_x := Z.quot (out_w - dst_w) 2 in
  let dst_y := Z.quot (out_h - dst_h) 2 in
  (dst_x, dst_y, dst_w, dst_h).

End Main.

(** ** The preset dialogs of main.c (lines 589-682 and 749-759) *)

Module Ui.

Inductive ui_mode_t := UI_NORMAL | UI_SAVE_PRESET | UI_LOAD_PRESET.

(** [preset_input] is the [char[32]] array, one [Z] per char;
    [preset_count] is what [config_list_presets] returned last, or 0 after
    [free_preset_list]. *)
Record ui_state := {
  ui_mode : ui_mode_t;
  preset_input : list Z;
  preset_input_len : Z;
  preset_selected : Z;
  preset_count : Z
}.

Definition initial_ui : ui_state :=
  {| ui_mode := UI_NORMAL; preset_input := repeat 0 32; preset_input_len := 0;
     preset_selected := 0; preset_count := 0 |}.

(** [SDLK_F2] carries the number of presets that [config_list_presets]
    finds when the key is handled. *)
Inductive keycode :=
| SDLK_ESCAPE | SDLK_RETURN | SDLK_BACKSPACE | SDLK_UP | SDLK_DOWN
| SDLK_F1 | SDLK_F2 (listed : nat) | SDLK_other.

(** [SDL_TEXTINPUT c]: [c] is [event.text.text[0]]. *)
Inductive sdl_event :=
| SDL_TEXTINPUT (c : Z)
| SDL_KEYDOWN (k : keycode).

(** The [name] chosen by Return in the load dialog; [name_null] is NULL. *)
Inductive preset_choice :=
| name_nes | name_snes | name_user (i : Z) | name_null.

(** What a handled event asks of config.c. *)
Inductive action :=
| config_save_preset (name : list Z)
| config_load_preset (name : preset_choice).

(** [a[i] = c] on the array; a store outside the array is not modelled and
    leaves it as it is. *)
Definition poke (a : list Z) (i c : Z) : list Z :=
  if 0 <=? i then <[Z.to_nat i := c]> a else a.

(** The C string held by an array: the chars before the first NUL. *)
Fixpoint c_string (a : list Z) : list Z :=
  match a with
  | [] => []
  | c :: a' => if c =? 0 then [] else c :: c_string a'
  end.

(** [(c >= 'a' && c <= 'z') || (c >= 'A' && c <= 'Z') ||
     (c >= '0' && c <= '9') || c == '_' || c == '-'] *)
Definition name_char (c : Z) : bool :=
  ((97 <=? c) && (c <=? 122)) || ((65 <=? c) && (c <=? 90))
  || ((48 <=? c) && (c <=? 57)) || (c =? 95) || (c =? 45).

Definition set_input (st : ui_state) (a : list Z) (len : Z) : ui_state :=
  {| ui_mode := ui_mode st; preset_input := a; preset_input_len := len;
     preset_selected := preset_selected st; preset_count := preset_count st |}.

Definition set_mode (st : ui_state) (m : ui_mode_t) : ui_state :=
  {| ui_mode := m; preset_input := preset_input st;
     preset_input_len := preset_input_len st;
     preset_selected := preset_selected st; preset_count := preset_count st |}.

Definition set_selected (st : ui_state) (n : Z) : ui_state :=
  {| ui_mode := ui_mode st; preset_input := preset_input st;
     preset_input_len := preset_input_len st;
     preset_selected := n; preset_count := preset_count st |}.

Definition set_count (st : ui_state) (n : Z) : ui_state :=
  {| ui_mode := ui_mode st; preset_input := preset_input st;
     preset_input_len := preset_input_len st;
     preset_selected := preset_selected st; preset_count := n |}.

(** [preset_input[0] = '\0'; preset_input_len = 0;] *)
Definition clear_input (st : ui_state) : ui_state :=
  set_input st (poke (preset_input st) 0 0) 0.

(** [free_preset_list]: a list with entries is never NULL, so the count is
    0 afterwards. *)
Definition free_preset_list (st : ui_state) : ui_state := set_count st 0.

(** One event of the [while (SDL_PollEvent(&event))] loop, as far as the
    dialogs go: the state, and the call made to config.c if any. *)
Definition handle_event (e : sdl_event) (st : ui_state) : ui_state * option action :=
  match e, ui_mode st with
  | SDL_TEXTINPUT c, UI_SAVE_PRESET =>
      if preset_input_len st <? 28 then
        if name_char c then
          let a := poke (preset_input st) (preset_input_len st) c in
          let len := preset_input_len st + 1 in
          (set_input st (poke a len 0) len, None)
        else (st, None)
      else (st, None)
  | SDL_TEXTINPUT _, _ => (st, None)
  | SDL_KEYDOWN k, UI_SAVE_PRESET =>
      match k with
      | SDLK_ESCAPE => (clear_input (set_mode st UI_NORMAL), None)
      | SDLK_RETURN =>
          (clear_input (set_mode st UI_NORMAL),
           if preset_input_len st >? 0
           then Some (config_save_preset (c_string (preset_input st)))
           else None)
      | SDLK_BACKSPACE =>
          if preset_input_len st >? 0 then
            let len := preset_input_len st - 1 in
            (set_input st (poke (preset_input st) len 0) len, None)
          else (st, None)
      | _ => (st, None)
      end
  | SDL_KEYDOWN k, UI_LOAD_PRESET =>
      let total := 2 + preset_count st in
      match k with
      | SDLK_ESCAPE => (free_preset_list (set_mode st UI_NORMAL), None)
      | SDLK_UP =>
          if preset_selected st >? 0
          then (set_selected st (preset_selected st - 1), None) else (st, None)
      | SDLK_DOWN =>
          if preset_selected st <? total - 1
          then (set_selected st (preset_selected st + 1), None) else (st, None)
      | SDLK_RETURN =>
          let name :=
            if preset_selected st =? 0 then name_nes
            else if preset_selected st =? 1 then name_snes
            else if preset_selected st - 2 <? preset_count st
                 then name_user (preset_selected st - 2)
            else name_null in
          (free_preset_list (set_mode st UI_NORMAL),
           match name with
           | name_null => None
           | _ => Some (config_load_preset name)
           end)
      | _ => (st, None)
      end
  | SDL_KEYDOWN k, UI_NORMAL =>
      match k with
      | SDLK_F1 => (clear_input (set_mode st UI_SAVE_PRESET), None)
      | SDLK_F2 listed =>
          (set_mode (set_selected (set_count st (Z.of_nat listed)) 0) UI_LOAD_PRESET,
           None)
      | _ => (st, None)
      end
  end.

(** A run of events: the final state and the calls made, oldest first. *)
Fixpoint handle_events (events : list sdl_event) (st : ui_state)
    : ui_state * list action :=
  match events with
  | [] => (st, [])
  | e :: rest =>
      let '(st', a) := handle_event e st in
      let '(st'', acts) := handle_events rest st' in
      (st'', match a with Some x => x :: acts | None => acts end)
  end.

End Ui.

(** ** config.c: the configuration file and the presets

    C strings are lists of chars, as in the dialogs above; [str] gives the
    chars of a literal.  The functions of libc that config.c calls
    ([fprintf] with [%d], [fgets], [sscanf], [strcmp], [atoi]) are written
    out after the C standard; [atoi] on a number that does not fit an [int]
    is undefined in C and is not met in what follows.  [float] values are
    kept abstract: [fmt_f] is what [fprintf] with [%f] writes, [atof] what
    [atof] reads. *)

From Stdlib Require Strings.String Strings.Byte.

Declare Scope cstr_scope.
Delimit Scope cstr_scope with cstr.
String Notation String.string String.string_of_list_byte String.list_byte_of_string
  : cstr_scope.

Module Config.

Definition str (s : String.string) : list Z :=
  map (fun b => Z.of_N (Byte.to_N b)) (String.list_byte_of_string s).

(** [isspace] and [isdigit] in the C locale. *)
Definition isspace (c : Z) : bool := (c =? 32) || ((9 <=? c) && (c <=? 13)).
Definition isdigit (c : Z) : bool := (48 <=? c) && (c <=? 57).

Fixpoint skip_space (s : list Z) : list Z :=
  match s with
  | c :: s' => if isspace c then skip_space s' else s
  | [] => []
  end.

Fixpoint digits_value (s : list Z) (acc : Z) : Z :=
  match s with
  | c :: s' => if isdigit c then digits_value s' (acc * 10 + (c - 48)) else acc
  | [] => acc
  end.

(** [atoi]: white space, an optional sign, then digits. *)
Definition atoi (s : list Z) : Z :=
  match skip_space s with
  | c :: s' =>
      if c =? 45 then - digits_value s' 0
      else if c =? 43 then digits_value s' 0
      else digits_value (c :: s') 0
  | [] => 0
  end.

(** The decimal digits of [n >= 0], most significant first, before
    [tail]. *)
Fixpoint fmt_u (fuel : nat) (n : Z) (tail : list Z) : list Z :=
  match fuel with
  | O => tail
  | S f =>
      let tail' := (48 + n mod 10) :: tail in
      if n <? 10 then tail' else fmt_u f (n / 10) tail'
  end.

(** What [fprintf] writes for [%d]. *)
Definition fmt_d (n : Z) : list Z :=
  if n <? 0 then 45 :: fmt_u (S (Z.to_nat (Z.log2 (- n)))) (- n) []
  else fmt_u (S (Z.to_nat (Z.log2 n))) n [].

(** [fgets(line, n + 1, f)]: at most [n] chars, up to and with the first
    newline; the line and what is left of the file. *)
Fixpoint fgets (n : nat) (f : list Z) : list Z * list Z :=
  match n, f with
  | S n', c :: f' =>
      if c =? 10 then ([c], f')
      else let '(l, r) := fgets n' f' in (c :: l, r)
  | _, _ => ([], f)
  end.

(** The lines that [while (fgets(line, sizeof(line), f))] sees. *)
Fixpoint lines_fuel (fuel : nat) (f : list Z) : list (list Z) :=
  match fuel, f with
  | S k, _ :: _ => let '(l, r) := fgets 255 f in l :: lines_fuel k r
  | _, _ => []
  end.

Definition file_lines (f : list Z) : list (list Z) := lines_fuel (length f) f.

(** [%63[^=]]: at most [n] chars other than [=]. *)
Fixpoint scan_until_eq (n : nat) (s : list Z) : list Z * list Z :=
  match n, s with
  | S n', c :: s' =>
      if c =? 61 then ([], s)
      else let '(k, r) := scan_until_eq n' s' in (c :: k, r)
  | _, _ => ([], s)
  end.

(** [%127s] after its white space: at most [n] chars that are not white
    space. *)
Fixpoint scan_word (n : nat) (s : list Z) : list Z :=
  match n, s with
  | S n', c :: s' => if isspace c then [] else c :: scan_word n' s'
  | _, _ => []
  end.

(** The chars of an array up to its NUL. *)
Fixpoint until_nul (a : list Z) : list Z :=
  match a with
  | [] => []
  | c :: a' => if c =? 0 then [] else c :: until_nul a'
  end.

(** [sscanf(line, "%63[^=]=%127s", key, value) == 2], with the two
    strings. *)
Definition sscanf_key_value (line : list Z) : option (list Z * list Z) :=
  let '(key, r) := scan_until_eq 63 (until_nul line) in
  match key, r with
  | _ :: _, 61 :: r' =>
      match scan_word 127 (skip_space r') with
      | [] => None
      | value => Some (key, value)
      end
  | _, _ => None
  end.

Section WithFloat.

Variable float : Type.
Variable fmt_f : float -> list Z.
Variable atof : list Z -> float.
(** [1.0f] *)
Variable float_one : float.

Record config_t := {
  crop_x : Z;
  crop_y : Z;
  crop_w : Z;
  crop_h : Z;
  h_stretch : float;
  smooth_h : bool;
  use_240p : bool;
  scanline_offset : Z
}.

Definition config_init : config_t :=
  {| crop_x := 0; crop_y := 0; crop_w := 0; crop_h := 0;
     h_stretch := float_one; smooth_h := true; use_240p := true;
     scanline_offset := 0 |}.

(** The [if / else if] chain on [key] in [parse_config_file]. *)
Definition assign (config : config_t) (key value : list Z) : config_t :=
  if bool_decide (key = str "crop_x"%cstr) then
    {| crop_x := atoi value; crop_y := crop_y config; crop_w := crop_w config;
       crop_h := crop_h config; h_stretch := h_stretch config;
       smooth_h := smooth_h config; use_240p := use_240p config;
       scanline_offset := scanline_offset config |}
  else if bool_decide (key = str "crop_y"%cstr) then
    {| crop_x := crop_x config; crop_y := atoi value; crop_w := crop_w config;
       crop_h := crop_h config; h_stretch := h_stretch config;
       smooth_h := smooth_h config; use_240p := use_240p config;
       scanline_offset := scanline_offset config |}
  else if bool_decide (key = str "crop_w"%cstr) then
    {| crop_x := crop_x config; crop_y := crop_y config; crop_w := atoi value;
       crop_h := crop_h config; h_stretch := h_stretch config;
       smooth_h := smooth_h config; use_240p := use_240p config;
       scanline_offset := scanline_offset config |}
  else if bool_decide (key = str "crop_h"%cstr) then
    {| crop_x := crop_x config; crop_y := crop_y config; crop_w := crop_w config;
       crop_h := atoi value; h_stretch := h_stretch config;
       smooth_h := smooth_h config; use_240p := use_240p config;
       scanline_offset := scanline_offset config |}
  else if bool_decide (key = str "h_stretch"%cstr) then
    {| crop_x := crop_x config; crop_y := crop_y config; crop_w := crop_w config;
       crop_h := crop_h config; h_stretch := atof value;
       smooth_h := smooth_h config; use_240p := use_240p config;
       scanline_offset := scanline_offset config |}
  else if bool_decide (key = str "smooth_h"%cstr) then
    {| crop_x := crop_x config; crop_y := crop_y config; crop_w := crop_w config;
       crop_h := crop_h config; h_stretch := h_stretch config;
       smooth_h := negb (atoi value =? 0); use_240p := use_240p config;
       scanline_offset := scanline_offset config |}
  else if bool_decide (key = str "use_240p"%cstr) then
    {| crop_x := crop_x config; crop_y := crop_y config; crop_w := crop_w config;
       crop_h := crop_h config; h_stretch := h_stretch config;
       smooth_h := smooth_h config; use_240p := negb (atoi value =? 0);
       scanline_offset := scanline_offset config |}
  else if bool_decide (key = str "scanline_offset"%cstr) then
    {| crop_x := crop_x config; crop_y := crop_y config; crop_w := crop_w config;
       crop_h := crop_h config; h_stretch := h_stretch config;
       smooth_h := smooth_h config; use_240p := use_240p config;
       scanline_offset := atoi value |}
  else config.

(** The body of the [while] loop for one line. *)
Definition parse_line (config : config_t) (line : list Z) : config_t :=
  match sscanf_key_value line with
  | Some (key, value) => assign config key value
  | None => config
  end.

(** [parse_config_file]: [file] is the content of the file at [path], or
    [None] when [fopen] fails. *)
Definition parse_config_file (config : config_t) (file : option (list Z))
    : bool * config_t :=
  match file with
  | None => (false, config)
  | Some f => (true, fold_left parse_line (file_lines f) config)
  end.

(** What [write_config_file] writes when [fopen] succeeds. *)
Definition write_config_file (config : config_t) : list Z :=
  str "crop_x="%cstr ++ fmt_d (crop_x config) ++ [10]
  ++ str "crop_y="%cstr ++ fmt_d (crop_y config) ++ [10]
  ++ str "crop_w="%cstr ++ fmt_d (crop_w config) ++ [10]
  ++ str "crop_h="%cstr ++ fmt_d (crop_h config) ++ [10]
  ++ str "h_stretch="%cstr ++ fmt_f (h_stretch config) ++ [10]
  ++ str "smooth_h="%cstr ++ fmt_d (if smooth_h config then 1 else 0) ++ [10]
  ++ str "use_240p="%cstr ++ fmt_d (if use_240p config then 1 else 0) ++ [10]
  ++ str "scanline_offset="%cstr ++ fmt_d (scanline_offset config) ++ [10].

(** What [fopen] finds under the configuration directory, by the path
    string it is given.  Two strings that the file system resolves to one
    file are two keys here, so this says what a path reads back after it
    was written itself, and nothing about what other paths read. *)
Definition files := list Z -> option (list Z).

(** [snprintf(path, sizeof(path), "%s/%s.ini", get_presets_dir(), name)],
    below the configuration directory.  The cut of [snprintf] at 511 chars
    is not modelled; saving and loading one name build the same string
    with or without it. *)
Definition preset_path (name : list Z) : list Z :=
  str "presets/"%cstr ++ name ++ str ".ini"%cstr.

Definition set_builtin (config : config_t) (y h : Z) : config_t :=
  {| crop_x := 448; crop_y := y; crop_w := 1024; crop_h := h;
     h_stretch := float_one; smooth_h := true; use_240p := true;
     scanline_offset := 0 |}.

Definition config_load_preset (fs : files) (config : config_t) (name : list Z)
    : bool * config_t :=
  if bool_decide (name = str "NES-Switch-1080p"%cstr)
     || bool_decide (name = str "nes-switch-1080p"%cstr)
  then (true, set_builtin config 83 912)
  else if bool_decide (name = str "SNES-Switch-1080p"%cstr)
          || bool_decide (name = str "snes-switch-1080p"%cstr)
  then (true, set_builtin config 92 896)
  else parse_config_file config (fs (preset_path name)).

(** [config_save_preset]: [can_open] is whether [fopen(path, "w")]
    succeeds; the result and the files afterwards. *)
Definition config_save_preset (fs : files) (can_open : bool) (config : config_t)
    (name : list Z) : bool * files :=
  if can_open then
    (true, fun path => if bool_decide (path = preset_path name)
                       then Some (write_config_file config) else fs path)
  else (false, fs).

(** [config_load] and [config_save] use the file [config.ini]. *)
Definition config_load (fs : files) (config : config_t) : bool * config_t :=
  parse_config_file config (fs (str "config.ini"%cstr)).

Definition config_save (fs : files) (can_open : bool) (config : config_t)
    : bool * files :=
  if can_open then
    (true, fun path => if bool_decide (path = str "config.ini"%cstr)
                       then Some (write_config_file config) else fs path)
  else (false, fs).

End WithFloat.

Arguments crop_x {float} _.
Arguments crop_y {float} _.
Arguments crop_w {float} _.
Arguments crop_h {float} _.
Arguments h_stretch {float} _.
Arguments smooth_h {float} _.
Arguments use_240p {float} _.
Arguments scanline_offset {float} _.
Arguments assign {float} atof config key value.
Arguments parse_line {float} atof config line.
Arguments parse_config_file {float} atof config file.
Arguments write_config_file {float} fmt_f config.
Arguments config_load_preset {float} atof float_one fs config name.
Arguments config_save_preset {float} fmt_f fs can_open config name.
Arguments config_load {float} atof fs config.
Arguments config_save {float} fmt_f fs can_open config.
Arguments set_builtin {float} float_one config y h.

(** [strstr] compares the needle at each position of the haystack in turn. *)
Fixpoint starts_with (s p : list Z) : bool :=
  match p, s with
  | [], _ => true
  | _ :: _, [] => false
  | b :: p', a :: s' => (a =? b) && starts_with s' p'
  end.

(** [strstr(s, p)]: the offset of the first occurrence of [p] in [s], or
    [None] for [NULL]. *)
Fixpoint strstr (s p : list Z) : option nat :=
  if starts_with s p then Some 0%nat
  else match s with
       | [] => None
       | _ :: s' => option_map S (strstr s' p)
       end.

(** The first [readdir] loop of [config_list_presets]: count the entries
    whose name holds [.ini]. *)
Fixpoint count_ini (ents : list (list Z)) (count : Z) : Z :=
  match ents with
  | [] => count
  | d_name :: rest =>
      match strstr d_name (str ".ini"%cstr) with
      | Some _ => count_ini rest (count + 1)
      | None => count_ini rest count
      end
  end.

(** The second loop, after [rewinddir]: the name up to the first [.ini] of
    each such entry, while [i < count]; the final [i] and the names. *)
Fixpoint read_names (ents : list (list Z)) (i count : Z) : Z * list (list Z) :=
  match ents with
  | [] => (i, [])
  | d_name :: rest =>
      if i <? count then
        match strstr d_name (str ".ini"%cstr) with
        | Some len =>
            let '(i', names) := read_names rest (i + 1) count in
            (i', take len d_name :: names)
        | None => read_names rest i count
        end
      else (i, [])
  end.

(** [config_list_presets]: [dir] is what [readdir] yields for the presets
    directory (the same entries in both passes), or [None] when [opendir]
    fails; the result is the return value and [*names] ([None] for
    [NULL]). *)
Definition config_list_presets (dir : option (list (list Z)))
    : Z * option (list (list Z)) :=
  match dir with
  | None => (0, None)
  | Some ents =>
      let count := count_ini ents 0 in
      if count =? 0 then (0, None)
      else let '(i, names) := read_names ents 0 count in (i, Some names)
  end.

End Config.

(** ** Directory entries

    A presets directory that holds only [.], [..] and the files of presets
    saved from the dialog, and the entries of it that are files. *)
Definition preset_entry (d : list Z) : Prop :=
  d = Config.str "."%cstr \/ d = Config.str ".."%cstr
  \/ exists n, d = n ++ Config.str ".ini"%cstr
               /\ Forall (fun c => Ui.name_char c = true) n.

Definition is_file (d : list Z) : Prop :=
  d <> Config.str "."%cstr /\ d <> Config.str ".."%cstr.

(** ** Concrete inputs used by the examples below *)

Module Inputs.

(** A decoder that rejects its input at once (as libjpeg does for an empty
    or non-JPEG buffer). *)
Definition failing_decoder : Capture.jpeg_decoder := fun _ _ => None.

(** A decoder that recovers from a premature end of the data: it fails
    only on an empty buffer, and otherwise delivers a 2x1 image whose bytes
    past the end of the data are padding (128). *)
Definition padding_decoder : Capture.jpeg_decoder :=
  fun data size =>
    if size <=? 0 then None
    else Some {| Capture.output_width := 2; Capture.output_height := 1;
                 Capture.scanline :=
                   fun _ => Some (fun k => if k <? size then data k else 128);
                 Capture.finish_ok := fun _ => true |}.

(** A 2x1 MJPEG context whose scratch buffer holds some earlier frame. *)
Definition mjpeg_ctx : Capture.capture_ctx_t :=
  {| Capture.width := 2; Capture.height := 1;
     Capture.format := Capture.V4L2_PIX_FMT_MJPEG;
     Capture.buffer_count := 2; Capture.current_index := 0;
     Capture.rgb_buffer := fun _ => 255 |}.

(** Two slots, slot 0 filled. *)
Definition one_ready : Capture.driver :=
  {| Capture.slots := [Capture.Queued; Capture.Queued];
     Capture.done := [(0%nat, 0)];
     Capture.mapped := fun _ _ => 0 |}.

(** Two slots, slot 0 filled with a frame cut after 3 of its 6 bytes. *)
Definition truncated_ready : Capture.driver :=
  {| Capture.slots := [Capture.Queued; Capture.Queued];
     Capture.done := [(0%nat, 3)];
     Capture.mapped := fun _ _ => 200 |}.

(** Two slots, both filled. *)
Definition two_ready : Capture.driver :=
  {| Capture.slots := [Capture.Queued; Capture.Queued];
     Capture.done := [(0%nat, 16); (1%nat, 16)];
     Capture.mapped := fun _ _ => 0 |}.

(** A device that accepts every request and grants the buffer count it is
    asked for. *)
Definition granting_device : Capture.device :=
  {| Capture.dev_open := true;
     Capture.dev_querycap := Some 1;
     Capture.dev_s_fmt := fun pf w h => Some (pf, w, h);
     Capture.dev_reqbufs := fun n => Some n;
     Capture.dev_querybuf := fun _ => Some 4147200;
     Capture.dev_mmap := fun _ => true;
     Capture.dev_qbuf := fun _ => true;
     Capture.dev_streamon := true |}.

(** A frame that is [luma] at pixel [(x, y)] of a [width]-wide packed frame
    and 0 at every other byte. *)
Definition spot (width x y luma : Z) : buffer :=
  fun k => if k =? (y * width + x) * 2 then luma else 0.

Definition dark_frame : buffer := fun _ => 0.

Definition gray_frame : buffer := fun _ => 128.

(** 1920x1080, dark but for one bright pixel where the left scan starts. *)
Definition left_only_frame : buffer := spot 1920 150 540 255.

(** 1920x1080, dark but for one pixel at (700, 95): the SNES signature. *)
Definition snes_frame : buffer := spot 1920 700 95 100.

(** The state after auto-detect was switched on with [A]. *)
Definition auto_on : Main.main_state := Main.handle_key Main.SDLK_a Main.initial_state.

(** Auto-detect on, the NES layout recognised, and [D] just pressed. *)
Definition nes_scanning : Main.main_state :=
  Main.handle_key Main.SDLK_d (Main.set_last_detected auto_on Main.PRESET_NES_SWITCH).

(** Luma [k mod 200] at each even offset, chroma 128 at each odd one. *)
Definition neutral_ramp : buffer := fun k => if Z.odd k then 128 else k mod 200.

(** Bytes that differ from offset to offset. *)
Definition ramp : buffer := fun k => (k * 37) mod 256.

(** A decoder that delivers a 1x1 image for every input, and one that
    delivers a 3x3 image. *)
Definition image_1x1 : Capture.jpeg_image :=
  {| Capture.output_width := 1; Capture.output_height := 1;
     Capture.scanline := fun _ => Some ramp;
     Capture.finish_ok := fun _ => true |}.

Definition decoder_1x1 : Capture.jpeg_decoder := fun _ _ => Some image_1x1.

(** A 2x2 MJPEG context whose scratch buffer holds 7 in every byte. *)
Definition mjpeg_ctx_2x2 : Capture.capture_ctx_t :=
  {| Capture.width := 2; Capture.height := 2;
     Capture.format := Capture.V4L2_PIX_FMT_MJPEG;
     Capture.buffer_count := 2; Capture.current_index := 0;
     Capture.rgb_buffer := fun _ => 7 |}.


End Inputs.

(** ** Facts about store traces *)

Lemma run_stores_app (a b : list store) (m : buffer) :
  run_stores (a ++ b) m = run_stores b (run_stores a m).
Proof. unfold run_stores. apply fold_left_app. Qed.

Lemma run_stores_untouched (ws : list store) (m : buffer) (k : Z) :
  ~ In k (offsets ws) -> run_stores ws m k = m k.
Proof.
  revert m. induction ws as [|[o v] ws IH]; intros m Hk; [reflexivity|].
  cbn [run_stores fold_left fst snd]. fold (run_stores ws (upd m o v)).
  rewrite IH.
  - unfold upd. destruct (Z.eqb_spec k o) as [->|]; [|reflexivity].
    exfalso. apply Hk. now left.
  - intros Hin. apply Hk. now right.
Qed.

Lemma offsets_stores_from (off : Z) (vs : list Z) (k : Z) :
  In k (offsets (stores_from off vs)) <-> off <= k < off + Z.of_nat (length vs).
Proof.
  revert off. induction vs as [|v vs IH]; intros off; cbn [stores_from offsets map fst length In].
  - lia.
  - fold (offsets (stores_from (off + 1) vs)). rewrite IH. lia.
Qed.

Lemma run_stores_from (vs : list Z) (off : Z) (m : buffer) (b : nat) (d : Z) :
  (b < length vs)%nat ->
  run_stores (stores_from off vs) m (off + Z.of_nat b) = nth b vs d.
Proof.
  revert off m b. induction vs as [|v vs IH]; intros off m b Hb; cbn [length] in Hb; [lia|].
  cbn [stores_from run_stores fold_left fst snd].
  fold (run_stores (stores_from (off + 1) vs) (upd m off v)).
  destruct b as [|b].
  - rewrite run_stores_untouched.
    + unfold upd. replace (off + Z.of_nat 0) with off by lia.
      now rewrite Z.eqb_refl.
    + rewrite offsets_stores_from. lia.
  - replace (off + Z.of_nat (S b)) with (off + 1 + Z.of_nat b) by lia.
    rewrite IH by lia. reflexivity.
Qed.

Lemma length_macropixel (y0 u y1 v : Z) : length (macropixel y0 u y1 v) = 8%nat.
Proof. reflexivity. Qed.

Lemma offsets_convert_at (src : buffer) (sp dp k : Z) :
  In k (offsets (convert_at src sp dp)) <-> dp <= k < dp + 8.
Proof. unfold convert_at. rewrite offsets_stores_from, length_macropixel. lia. Qed.

Lemma run_stores_memset0 (n : Z) (m : buffer) (k : Z) :
  0 <= k < n -> run_stores (memset0 n) m k = 0.
Proof.
  intros Hk. unfold memset0.
  replace k with (0 + Z.of_nat (Z.to_nat k)) by lia.
  rewrite (run_stores_from _ _ _ _ 0).
  - apply nth_repeat.
  - rewrite repeat_length. lia.
Qed.

(** ** The packed path of capture.c *)

Lemma offsets_yuyv_loop (n : nat) (src : buffer) (sp dp k : Z) :
  In k (offsets (Capture.yuyv_loop n src sp dp)) <-> dp <= k < dp + 8 * Z.of_nat n.
Proof.
  revert sp dp. induction n as [|n IH]; intros sp dp; cbn [Capture.yuyv_loop].
  - cbn. lia.
  - unfold offsets in *. rewrite map_app, in_app_iff.
    fold (offsets (convert_at src sp dp)).
    rewrite offsets_convert_at, IH. lia.
Qed.

(** Byte [b] of the [j]-th macropixel written is byte [b] of the conversion
    of the [j]-th macropixel read. *)
Lemma yuyv_loop_lookup (n : nat) (src : buffer) (sp dp : Z) (m : buffer) (j b : nat) :
  (j < n)%nat -> (b < 8)%nat ->
  run_stores (Capture.yuyv_loop n src sp dp) m (dp + 8 * Z.of_nat j + Z.of_nat b)
  = nth b (macropixel (src (sp + 4 * Z.of_nat j)) (src (sp + 4 * Z.of_nat j + 1))
                      (src (sp + 4 * Z.of_nat j + 2)) (src (sp + 4 * Z.of_nat j + 3))) 0.
Proof.
  revert sp dp m j. induction n as [|n IH]; intros sp dp m j Hj Hb; [lia|].
  cbn [Capture.yuyv_loop]. rewrite run_stores_app.
  destruct j as [|j].
  - rewrite run_stores_untouched by (rewrite offsets_yuyv_loop; lia).
    replace (dp + 8 * Z.of_nat 0 + Z.of_nat b) with (dp + Z.of_nat b) by lia.
    replace (sp + 4 * Z.of_nat 0) with sp by lia.
    unfold convert_at. apply run_stores_from. now rewrite length_macropixel.
  - replace (dp + 8 * Z.of_nat (S j) + Z.of_nat b)
      with (dp + 8 + 8 * Z.of_nat j + Z.of_nat b) by lia.
    rewrite IH by lia.
    replace (sp + 4 + 4 * Z.of_nat j) with (sp + 4 * Z.of_nat (S j)) by lia.
    reflexivity.
Qed.

Lemma macropixel_gray : macropixel 128 128 128 128 = [128; 128; 128; 255; 128; 128; 128; 255].
Proof. reflexivity. Qed.

(** Pixel [p] of the output is bytes [4p .. 4p+3]; it lies in macropixel
    [p / 2], first or second half. *)
Lemma pixel_split (p : Z) :
  0 <= p -> exists (j h : nat), (h < 2)%nat /\ p = 2 * Z.of_nat j + Z.of_nat h.
Proof.
  intros Hp. exists (Z.to_nat (p / 2)), (Z.to_nat (p mod 2)).
  pose proof (Z.mod_pos_bound p 2 ltac:(lia)).
  pose proof (Z.div_mod p 2 ltac:(lia)).
  assert (0 <= p / 2) by (apply Z.div_pos; lia).
  split; lia.
Qed.

(** C8.  Packed conversion of a uniform mid-gray frame (every luma byte and
    every chroma byte 128) gives R = G = B = 128 and alpha 255 at every
    pixel the conversion produces, that is at every pixel of the
    [width * height / 2] macropixels. *)
Theorem yuyv_uniform_gray (src dst : buffer) (width height p : Z) :
  (forall k, 0 <= k < 2 * (width * height) -> src k = 128) ->
  0 <= p < 2 * Z.quot (width * height) 2 ->
  let out := run_stores (Capture.yuyv_to_rgba_fast src width height) dst in
  out (4 * p) = 128 /\ out (4 * p + 1) = 128 /\ out (4 * p + 2) = 128
  /\ out (4 * p + 3) = 255.
Proof.
  intros Hsrc Hp out. subst out. unfold Capture.yuyv_to_rgba_fast.
  set (total := Z.quot (width * height) 2) in *.
  assert (Hwh : 0 <= width * height).
  { destruct (Z.le_gt_cases 0 (width * height)) as [|Hneg]; [assumption|].
    subst total. pose proof (Z.quot_opp_l (width * height) 2 ltac:(lia)) as Ho.
    assert (0 <= Z.quot (- (width * height)) 2) by (apply Z.quot_pos; lia). lia. }
  assert (Ht : 2 * total <= width * height).
  { subst total. rewrite Z.quot_div_nonneg by lia.
    pose proof (Z.mul_div_le (width * height) 2 ltac:(lia)). lia. }
  destruct (pixel_split p ltac:(lia)) as (j & h & Hh & ->).
  assert (Hj : (j < Z.to_nat total)%nat) by lia.
  assert (Hm : macropixel (src (0 + 4 * Z.of_nat j)) (src (0 + 4 * Z.of_nat j + 1))
                 (src (0 + 4 * Z.of_nat j + 2)) (src (0 + 4 * Z.of_nat j + 3))
               = [128; 128; 128; 255; 128; 128; 128; 255]).
  { rewrite !Hsrc by lia. apply macropixel_gray. }
  assert (Hb : forall b : nat, (b < 8)%nat ->
     run_stores (Capture.yuyv_loop (Z.to_nat total) src 0 0) dst
                (0 + 8 * Z.of_nat j + Z.of_nat b)
     = nth b [128; 128; 128; 255; 128; 128; 128; 255] 0).
  { intros b Hb8. rewrite yuyv_loop_lookup by assumption. now rewrite Hm. }
  destruct h as [|[|h]]; [| |lia].
  - pose proof (Hb 0%nat ltac:(lia)) as H0. pose proof (Hb 1%nat ltac:(lia)) as H1.
    pose proof (Hb 2%nat ltac:(lia)) as H2. pose proof (Hb 3%nat ltac:(lia)) as H3.
    cbn [nth] in H0, H1, H2, H3.
    repeat split; [rewrite <- H0 | rewrite <- H1 | rewrite <- H2 | rewrite <- H3];
      f_equal; lia.
  - pose proof (Hb 4%nat ltac:(lia)) as H0. pose proof (Hb 5%nat ltac:(lia)) as H1.
    pose proof (Hb 6%nat ltac:(lia)) as H2. pose proof (Hb 7%nat ltac:(lia)) as H3.
    cbn [nth] in H0, H1, H2, H3.
    repeat split; [rewrite <- H0 | rewrite <- H1 | rewrite <- H2 | rewrite <- H3];
      f_equal; lia.
Qed.

Lemma yuyv_uniform_gray_witness :
  let out := run_stores (Capture.yuyv_to_rgba_fast (fun _ => 128) 4 2) (fun _ => 7) in
  out (4 * 5) = 128 /\ out (4 * 5 + 1) = 128 /\ out (4 * 5 + 2) = 128
  /\ out (4 * 5 + 3) = 255.
Proof.
  apply (yuyv_uniform_gray (fun _ => 128) (fun _ => 7) 4 2 5).
  - reflexivity.
  - vm_compute. split; [discriminate | reflexivity].
Defined.

(** Every pixel the packed path writes is opaque, whatever the input. *)
Lemma yuyv_alpha_opaque (src dst : buffer) (width height p : Z) :
  0 <= p < 2 * Z.quot (width * height) 2 ->
  run_stores (Capture.yuyv_to_rgba_fast src width height) dst (4 * p + 3) = 255.
Proof.
  intros Hp. unfold Capture.yuyv_to_rgba_fast.
  destruct (pixel_split p ltac:(lia)) as (j & h & Hh & ->).
  assert (Hj : (j < Z.to_nat (Z.quot (width * height) 2))%nat) by lia.
  destruct h as [|[|h]]; [| |lia].
  - replace (4 * (2 * Z.of_nat j + Z.of_nat 0) + 3)
      with (0 + 8 * Z.of_nat j + Z.of_nat 3) by lia.
    rewrite yuyv_loop_lookup by (assumption || lia). reflexivity.
  - replace (4 * (2 * Z.of_nat j + Z.of_nat 1) + 3)
      with (0 + 8 * Z.of_nat j + Z.of_nat 7) by lia.
    rewrite yuyv_loop_lookup by (assumption || lia). reflexivity.
Qed.

(** ** The compressed path of capture.c *)

(** A scanline that raises [error_exit] inside the range the loop reads
    makes the loop end by [longjmp]. *)
Lemma mjpeg_rows_scanline_error (fuel : nat) (img : Capture.jpeg_image)
    (width height y y0 : Z) :
  y <= y0 -> y0 < Capture.output_height img -> y0 < height ->
  Capture.scanline img y0 = None ->
  (Z.to_nat (height - y) <= fuel)%nat ->
  snd (Capture.mjpeg_rows fuel img width height y) = false.
Proof.
  revert y. induction fuel as [|fuel IH]; intros y Hy Hoh Hh Hnone Hfuel; [lia|].
  cbn [Capture.mjpeg_rows].
  replace (y <? Capture.output_height img) with true by (symmetry; apply Z.ltb_lt; lia).
  replace (y <? height) with true by (symmetry; apply Z.ltb_lt; lia).
  cbn [andb].
  destruct (Capture.scanline img y) as [row|] eqn:Hrow; [|reflexivity].
  assert (y <> y0) by congruence.
  specialize (IH (y + 1) ltac:(lia) Hoh Hh Hnone ltac:(lia)).
  destruct (Capture.mjpeg_rows fuel img width height (y + 1)) as [[rest y'] ok].
  exact IH.
Qed.

(** When every scanline in range is delivered, the loop stops at
    [min output_height height] without [longjmp]. *)
Lemma mjpeg_rows_complete (fuel : nat) (img : Capture.jpeg_image)
    (width height y : Z) :
  0 <= y ->
  (forall y0, 0 <= y0 < Capture.output_height img -> y0 < height ->
              Capture.scanline img y0 <> None) ->
  (Z.to_nat (height - y) <= fuel)%nat ->
  snd (Capture.mjpeg_rows fuel img width height y) = true
  /\ snd (fst (Capture.mjpeg_rows fuel img width height y))
     = Z.max y (Z.min (Capture.output_height img) height).
Proof.
  revert y. induction fuel as [|fuel IH]; intros y Hy Hall Hfuel.
  - cbn. split; [reflexivity | lia].
  - cbn [Capture.mjpeg_rows].
    destruct (Z.ltb_spec y (Capture.output_height img)); cbn [andb];
      [destruct (Z.ltb_spec y height)|]; cbn [fst snd]; try (split; [reflexivity | lia]).
    destruct (Capture.scanline img y) as [row|] eqn:Hrow.
    + specialize (IH (y + 1) ltac:(lia) Hall ltac:(lia)).
      destruct (Capture.mjpeg_rows fuel img width height (y + 1)) as [[rest y'] ok].
      cbn [fst snd] in *. split; [tauto | lia].
    + exfalso. apply (Hall y); [lia | lia | assumption].
Qed.

(** After an abandoned decode the whole output buffer is zero. *)
Lemma mjpeg_failure_black (dec : Capture.jpeg_decoder) (mjpeg dst : buffer)
    (size width height k : Z) :
  Capture.decode_fails dec mjpeg size height ->
  0 <= k < width * height * 4 ->
  run_stores (Capture.mjpeg_to_rgba dec mjpeg size width height) dst k = 0.
Proof.
  intros Hfail Hk. unfold Capture.mjpeg_to_rgba.
  destruct Hfail as [Hdec | img y Hdec Hy Hh Hnone | img Hdec Hall Hfin]; rewrite Hdec.
  - now apply run_stores_memset0.
  - pose proof (mjpeg_rows_scanline_error (Z.to_nat height) img width height 0 y
                  ltac:(lia) ltac:(lia) Hh Hnone ltac:(lia)) as Hok.
    destruct (Capture.mjpeg_rows (Z.to_nat height) img width height 0) as [[ws y'] ok].
    cbn [snd] in Hok. subst ok. cbn [andb].
    rewrite run_stores_app. now apply run_stores_memset0.
  - pose proof (mjpeg_rows_complete (Z.to_nat height) img width height 0
                  ltac:(lia) Hall ltac:(lia)) as [Hok Hy].
    destruct (Capture.mjpeg_rows (Z.to_nat height) img width height 0) as [[ws y'] ok].
    cbn [fst snd] in Hok, Hy. subst ok y'. rewrite Hfin. cbn [andb].
    rewrite run_stores_app. now apply run_stores_memset0.
Qed.

(** Every alpha byte stored while copying decoded scanlines is 255. *)
Lemma mjpeg_row_alpha (fuel : nat) (row_buffer : buffer) (x width ow dst k v : Z) :
  dst mod 4 = 0 ->
  In (k, v) (Capture.mjpeg_row fuel row_buffer x width ow dst) ->
  k mod 4 = 3 -> v = 255.
Proof.
  intros Hdst. revert x. induction fuel as [|fuel IH]; intros x Hin Hk; [destruct Hin|].
  cbn [Capture.mjpeg_row] in Hin.
  destruct ((x <? width) && (x <? ow)); [|destruct Hin].
  assert (Hb : forall b, 0 <= b < 4 -> (dst + x * 4 + b) mod 4 = b).
  { intros b Hb. replace (dst + x * 4 + b) with (dst + b + x * 4) by lia.
    rewrite Z.mod_add, Z.add_mod, Hdst by lia.
    rewrite Z.add_0_l, Z.mod_mod, Z.mod_small; lia. }
  cbn [app In] in Hin.
  destruct Hin as [H | [H | [H | [H | Hin]]]];
    try (injection H as <- <-; rewrite Hb in Hk by lia; lia || reflexivity).
  now apply (IH (x + 1)).
Qed.

Lemma mjpeg_rows_alpha (fuel : nat) (img : Capture.jpeg_image) (width height y k v : Z) :
  In (k, v) (fst (fst (Capture.mjpeg_rows fuel img width height y))) ->
  k mod 4 = 3 -> v = 255.
Proof.
  revert y. induction fuel as [|fuel IH]; intros y Hin Hk; [destruct Hin|].
  cbn [Capture.mjpeg_rows] in Hin.
  destruct ((y <? Capture.output_height img) && (y <? height)); [|destruct Hin].
  destruct (Capture.scanline img y) as [row|]; [|destruct Hin].
  specialize (IH (y + 1)).
  destruct (Capture.mjpeg_rows fuel img width height (y + 1)) as [[rest y'] ok].
  cbn [fst] in *. apply in_app_iff in Hin. destruct Hin as [Hin | Hin]; [|now apply IH].
  eapply mjpeg_row_alpha; [|exact Hin|exact Hk].
  now rewrite Z.mod_mul by lia.
Qed.

(** C7.  When the decode of a compressed frame is abandoned -- in the
    header, in a scanline, or at the end -- [capture_get_frame] still
    returns a frame: the context's scratch buffer, zero at each of its
    [width * height * 4] bytes, and the slot goes back to the driver. *)
Theorem decode_failure_black_frame (dec : Capture.jpeg_decoder)
    (c : Capture.capture_ctx_t) (drv : Capture.driver)
    (index : nat) (size : Z) (rest : list (nat * Z)) :
  Capture.done drv = (index, size) :: rest ->
  (index < length (Capture.slots drv))%nat ->
  Capture.format c = Capture.V4L2_PIX_FMT_MJPEG ->
  Capture.decode_fails dec (Capture.mapped drv index) size (Capture.height c) ->
  exists rgb c' drv',
    Capture.capture_get_frame dec (Some c) drv = (Some rgb, Some c', drv')
    /\ (forall k, 0 <= k < Capture.width c * Capture.height c * 4 -> rgb k = 0)
    /\ Capture.rgb_buffer c' = rgb
    /\ Capture.slots drv' !! index = Some Capture.Queued.
Proof.
  intros Hdone Hidx Hfmt Hfail.
  unfold Capture.capture_get_frame, Capture.capture_get_frame_raw, Capture.vidioc_dqbuf.
  rewrite Hdone. cbn [Capture.format Capture.set_current_index Capture.mapped
                      Capture.width Capture.height Capture.rgb_buffer].
  rewrite Hfmt. change (Capture.V4L2_PIX_FMT_MJPEG =? Capture.V4L2_PIX_FMT_YUYV) with false.
  rewrite Z.eqb_refl. cbv iota.
  eexists _, _, _. split; [reflexivity|]. split; [|split; [reflexivity|]].
  - intros k Hk. now apply mjpeg_failure_black.
  - unfold Capture.capture_return_buffer, Capture.vidioc_qbuf.
    cbn [Capture.set_rgb_buffer Capture.set_current_index Capture.current_index
         Capture.slots].
    replace (0 <=? Z.of_nat index) with true by (symmetry; apply Z.leb_le; lia).
    rewrite Nat2Z.id, list_lookup_insert_eq by assumption.
    cbn [Capture.slots]. apply list_lookup_insert_eq.
    now rewrite length_insert.
Qed.

Lemma decode_failure_black_frame_witness :
  exists rgb c' drv',
    Capture.capture_get_frame Inputs.failing_decoder (Some Inputs.mjpeg_ctx) Inputs.one_ready
    = (Some rgb, Some c', drv')
    /\ (forall k, 0 <= k < Capture.width Inputs.mjpeg_ctx * Capture.height Inputs.mjpeg_ctx * 4
                  -> rgb k = 0)
    /\ Capture.rgb_buffer c' = rgb
    /\ Capture.slots drv' !! 0%nat = Some Capture.Queued.
Proof.
  apply (decode_failure_black_frame Inputs.failing_decoder Inputs.mjpeg_ctx
           Inputs.one_ready 0%nat 0 []).
  - reflexivity.
  - cbn. lia.
  - reflexivity.
  - apply Capture.fails_header. reflexivity.
Defined.

(** C7 fails as stated for truncated data: the code installs a handler for
    [error_exit] only, so a frame cut short that the decoder recovers from
    without [error_exit] is converted like any decoded image.  The frame
    returned is not black: the bytes that arrived, padding, and alpha
    255. *)
Lemma truncated_frame_not_black :
  Capture.format Inputs.mjpeg_ctx = Capture.V4L2_PIX_FMT_MJPEG
  /\ Capture.done Inputs.truncated_ready = [(0%nat, 3)]
  /\ ~ Capture.decode_fails Inputs.padding_decoder (Capture.mapped Inputs.truncated_ready 0%nat) 3
         (Capture.height Inputs.mjpeg_ctx)
  /\ exists rgb c' drv',
       Capture.capture_get_frame Inputs.padding_decoder (Some Inputs.mjpeg_ctx) Inputs.truncated_ready
       = (Some rgb, Some c', drv')
       /\ map rgb [0; 1; 2; 3; 4; 5; 6; 7] = [200; 200; 200; 255; 128; 128; 128; 255]
       /\ ~ (forall k, 0 <= k < Capture.width Inputs.mjpeg_ctx
                                * Capture.height Inputs.mjpeg_ctx * 4 -> rgb k = 0).
Proof.
  split; [reflexivity|]. split; [reflexivity|]. split.
  - intros [H | img y H _ _ Hs | img H _ Hf].
    + discriminate H.
    + injection H as <-. discriminate Hs.
    + injection H as <-. discriminate Hf.
  - eexists _, _, _. split; [reflexivity|]. split; [reflexivity|].
    intros Hall. specialize (Hall 3 ltac:(cbn; lia)). discriminate Hall.
Qed.

(** C5 (the code departs from the claim).  The frame published after an
    abandoned decode has alpha 0, not 255: on a 2x1 context the alpha bytes
    of both pixels (offsets 3 and 7) are zero, where the scratch buffer held
    255 before. *)
Theorem fallback_frame_alpha_zero :
  exists rgb c' drv',
    Capture.capture_get_frame Inputs.failing_decoder (Some Inputs.mjpeg_ctx) Inputs.one_ready
    = (Some rgb, c', drv')
    /\ Capture.rgb_buffer Inputs.mjpeg_ctx 3 = 255
    /\ rgb 3 = 0 /\ rgb 7 = 0.
Proof.
  eexists _, _, _. split; [reflexivity|]. repeat split.
Qed.

(** ** The cropped conversion of main.c *)

(** The inner loop runs [(crop_w - x + 1) / 2] times: once per started
    pair of pixels. *)
Lemma crop_row_iterations (fuel : nat) (src : buffer) (x crop_w row out : Z) :
  (Z.to_nat ((crop_w - x + 1) / 2) <= fuel)%nat ->
  Main.crop_row fuel src x crop_w row out
  = Capture.yuyv_loop (Z.to_nat ((crop_w - x + 1) / 2)) src row out.
Proof.
  revert x row out. induction fuel as [|fuel IH]; intros x row out Hfuel.
  - replace (Z.to_nat ((crop_w - x + 1) / 2)) with 0%nat by lia. reflexivity.
  - cbn [Main.crop_row]. destruct (Z.ltb_spec x crop_w) as [Hlt|Hge].
    + assert (Hn : (crop_w - x + 1) / 2 = (crop_w - (x + 2) + 1) / 2 + 1).
      { replace (crop_w - x + 1) with (crop_w - (x + 2) + 1 + 1 * 2) by lia.
        now rewrite Z.div_add by lia. }
      assert (0 <= (crop_w - (x + 2) + 1) / 2) by (apply Z.div_pos; lia).
      rewrite Hn in *.
      replace (Z.to_nat ((crop_w - (x + 2) + 1) / 2 + 1))
        with (S (Z.to_nat ((crop_w - (x + 2) + 1) / 2))) in * by lia.
      cbn [Capture.yuyv_loop]. rewrite IH by lia. reflexivity.
    + assert ((crop_w - x + 1) / 2 <= 0).
      { destruct (Z.eq_dec (crop_w - x + 1) 1) as [->|]; [reflexivity|].
        assert ((crop_w - x + 1) / 2 <= 0 / 2) by (apply Z.div_le_mono; lia).
        now rewrite Z.div_0_l in * by lia. }
      replace (Z.to_nat ((crop_w - x + 1) / 2)) with 0%nat by lia. reflexivity.
Qed.

Lemma crop_row_at_loop (src : buffer) (src_w crop_x crop_y crop_w y : Z) :
  Main.crop_row_at src src_w crop_x crop_y crop_w y
  = Capture.yuyv_loop (Z.to_nat ((crop_w + 1) / 2)) src
      (((crop_y + y) * src_w + crop_x) * 2) (y * crop_w * 4).
Proof.
  unfold Main.crop_row_at.
  assert ((crop_w + 1) / 2 <= crop_w \/ (crop_w + 1) / 2 <= 0).
  { destruct (Z.le_gt_cases 1 crop_w).
    - left. apply Z.div_le_upper_bound; lia.
    - right. destruct (Z.eq_dec crop_w 0) as [->|]; [reflexivity|].
      assert ((crop_w + 1) / 2 <= 0 / 2) by (apply Z.div_le_mono; lia).
      now rewrite Z.div_0_l in * by lia. }
  rewrite crop_row_iterations; replace (crop_w - 0 + 1) with (crop_w + 1) by lia;
    [reflexivity | lia].
Qed.

(** The offsets one row writes: [2 * ((crop_w + 1) / 2)] pixels from the
    start of the row's slot. *)
Lemma offsets_crop_row_at (src : buffer) (src_w crop_x crop_y crop_w y k : Z) :
  0 <= crop_w ->
  In k (offsets (Main.crop_row_at src src_w crop_x crop_y crop_w y))
  <-> y * crop_w * 4 <= k < y * crop_w * 4 + 8 * ((crop_w + 1) / 2).
Proof.
  intros Hw. rewrite crop_row_at_loop, offsets_yuyv_loop.
  assert (0 <= (crop_w + 1) / 2) by (apply Z.div_pos; lia).
  rewrite Z2Nat.id by assumption. reflexivity.
Qed.

Lemma half_odd (w : Z) : Z.odd w = true -> 8 * ((w + 1) / 2) = 4 * w + 4.
Proof.
  intros Ho. rewrite (Zodd_div2 w) at 1 by (now apply Zodd_bool_iff).
  rewrite Z.div2_div.
  replace (2 * (w / 2) + 1 + 1) with ((w / 2 + 1) * 2) by lia.
  rewrite Z.div_mul by lia.
  pose proof (Zodd_div2 w ltac:(now apply Zodd_bool_iff)) as H.
  rewrite Z.div2_div in H. lia.
Qed.

Lemma half_even (w : Z) : Z.even w = true -> 8 * ((w + 1) / 2) = 4 * w.
Proof.
  intros He. pose proof (Zeven_div2 w ltac:(now apply Zeven_bool_iff)) as H.
  rewrite Z.div2_div in H.
  replace (w + 1) with (1 + (w / 2) * 2) by lia.
  rewrite Z.div_add by lia. change (1 / 2) with 0. lia.
Qed.

(** The rows from [y] on touch the union of their rows' offsets. *)
Lemma offsets_crop_rows (fuel : nat) (src : buffer)
    (src_w crop_x crop_y crop_w crop_h y k : Z) :
  (Z.to_nat (crop_h - y) <= fuel)%nat ->
  In k (offsets (Main.crop_rows fuel src src_w crop_x crop_y crop_w crop_h y))
  <-> exists y', y <= y' < crop_h
        /\ In k (offsets (Main.crop_row_at src src_w crop_x crop_y crop_w y')).
Proof.
  revert y. induction fuel as [|fuel IH]; intros y Hfuel.
  - cbn. split; [tauto|]. intros (y' & Hy' & _). lia.
  - cbn [Main.crop_rows]. destruct (Z.ltb_spec y crop_h) as [Hlt|Hge].
    + unfold offsets in *. rewrite map_app, in_app_iff, IH by lia. split.
      * intros [H | (y' & Hy' & H)]; [exists y | exists y']; (split; [lia | exact H]).
      * intros (y' & Hy' & H). destruct (Z.eq_dec y' y) as [->|];
          [now left | right; exists y'; split; [lia | exact H]].
    + cbn. split; [tauto|]. intros (y' & Hy' & _). lia.
Qed.

Lemma length_stores_from (off : Z) (vs : list Z) :
  length (stores_from off vs) = length vs.
Proof.
  revert off. induction vs as [|v vs IH]; intros off; cbn [stores_from length];
    [reflexivity | now rewrite IH].
Qed.

Lemma length_yuyv_loop (n : nat) (src : buffer) (sp dp : Z) :
  length (Capture.yuyv_loop n src sp dp) = (8 * n)%nat.
Proof.
  revert sp dp. induction n as [|n IH]; intros sp dp; cbn [Capture.yuyv_loop];
    [reflexivity|].
  rewrite length_app, IH. unfold convert_at.
  rewrite length_stores_from, length_macropixel. lia.
Qed.

Lemma offsets_crop (src : buffer) (src_w src_h crop_x crop_y crop_w crop_h k : Z) :
  In k (offsets (Main.yuyv_crop_to_rgba src src_w src_h crop_x crop_y crop_w crop_h))
  <-> exists y, 0 <= y < crop_h
        /\ In k (offsets (Main.crop_row_at src src_w (Z.land crop_x (Z.lnot 1))
                            crop_y crop_w y)).
Proof. unfold Main.yuyv_crop_to_rgba. apply offsets_crop_rows. lia. Qed.

(** C10.  With an odd crop width every row is converted as
    [crop_w + 1] pixels: row [y] stores [4 * (crop_w + 1)] bytes, from the
    start of its slot to 4 bytes past the slot's end, the last row stores at
    the 4 offsets that follow the [crop_w * crop_h * 4] bytes of the output
    buffer, and the call as a whole touches exactly the offsets below
    [crop_w * crop_h * 4 + 4]. *)
Theorem odd_width_overrun (src : buffer)
    (src_w src_h crop_x crop_y crop_w crop_h : Z) :
  0 < crop_w -> Z.odd crop_w = true -> 0 < crop_h ->
  let row := Main.crop_row_at src src_w (Z.land crop_x (Z.lnot 1)) crop_y crop_w in
  (forall y, 0 <= y < crop_h ->
     length (row y) = Z.to_nat (4 * (crop_w + 1))
     /\ forall k, In k (offsets (row y))
                  <-> y * crop_w * 4 <= k < y * crop_w * 4 + crop_w * 4 + 4)
  /\ (forall b, 0 <= b < 4 ->
        In (crop_w * crop_h * 4 + b) (offsets (row (crop_h - 1))))
  /\ (forall k,
        In k (offsets (Main.yuyv_crop_to_rgba src src_w src_h
                         crop_x crop_y crop_w crop_h))
        <-> 0 <= k < crop_w * crop_h * 4 + 4).
Proof.
  intros Hw Hodd Hh row.
  pose proof (half_odd crop_w Hodd) as Hhalf.
  assert (Hrow : forall y k, In k (offsets (row y))
                   <-> y * crop_w * 4 <= k < y * crop_w * 4 + crop_w * 4 + 4).
  { intros y k. subst row. rewrite offsets_crop_row_at by lia. lia. }
  split; [|split].
  - intros y Hy. split; [|apply Hrow].
    subst row. rewrite crop_row_at_loop, length_yuyv_loop.
    assert (0 <= (crop_w + 1) / 2) by (apply Z.div_pos; lia). lia.
  - intros b Hb. apply Hrow. lia.
  - intros k. rewrite offsets_crop. fold row. split.
    + intros (y & Hy & Hin). apply Hrow in Hin. nia.
    + intros Hk.
      destruct (Z.lt_ge_cases k (crop_w * crop_h * 4)) as [Hin|Hout].
      * exists (k / (crop_w * 4)). 
        pose proof (Z.div_mod k (crop_w * 4) ltac:(lia)) as Hdm.
        pose proof (Z.mod_pos_bound k (crop_w * 4) ltac:(lia)) as Hmod.
        assert (0 <= k / (crop_w * 4)) by (apply Z.div_pos; lia).
        assert (k / (crop_w * 4) < crop_h) by (apply Z.div_lt_upper_bound; lia).
        split; [lia|]. apply Hrow. lia.
      * exists (crop_h - 1). split; [lia|]. apply Hrow. lia.
Qed.

Lemma odd_width_overrun_witness :
  let row := Main.crop_row_at Inputs.gray_frame 4 (Z.land 0 (Z.lnot 1)) 0 3 in
  (forall y, 0 <= y < 2 ->
     length (row y) = Z.to_nat (4 * (3 + 1))
     /\ forall k, In k (offsets (row y)) <-> y * 3 * 4 <= k < y * 3 * 4 + 3 * 4 + 4)
  /\ (forall b, 0 <= b < 4 -> In (3 * 2 * 4 + b) (offsets (row (2 - 1))))
  /\ (forall k,
        In k (offsets (Main.yuyv_crop_to_rgba Inputs.gray_frame 4 2 0 0 3 2))
        <-> 0 <= k < 3 * 2 * 4 + 4).
Proof.
  apply (odd_width_overrun Inputs.gray_frame 4 2 0 0 3 2).
  - lia.
  - reflexivity.
  - lia.
Defined.

(** [x & ~1] is [x] rounded down to an even value. *)
Lemma land_lnot_1 (x : Z) : Z.land x (Z.lnot 1) = 2 * (x / 2).
Proof.
  rewrite <- Z.ldiff_land. change 1 with (Z.ones 1) at 1.
  rewrite Z.ldiff_ones_r by lia.
  rewrite Z.shiftr_div_pow2, Z.shiftl_mul_pow2 by lia.
  change (2 ^ 1) with 2. lia.
Qed.

Lemma crop_rows_lower_bound (fuel : nat) (src : buffer)
    (src_w crop_x crop_y crop_w crop_h y k : Z) :
  0 <= crop_w -> 0 <= y ->
  (Z.to_nat (crop_h - y) <= fuel)%nat ->
  In k (offsets (Main.crop_rows fuel src src_w crop_x crop_y crop_w crop_h y)) ->
  y * crop_w * 4 <= k.
Proof.
  intros Hw Hy Hfuel Hin. apply offsets_crop_rows in Hin; [|assumption].
  destruct Hin as (y' & Hy' & Hin). apply offsets_crop_row_at in Hin; [|assumption].
  nia.
Qed.

(** Byte [b] of output pixel [(i, j)] after the rows from [y <= j] on have
    run: rows before [j] are overwritten or elsewhere, rows after [j] start
    past it. *)
Lemma crop_rows_lookup (fuel : nat) (src m : buffer)
    (src_w crop_x crop_y crop_w crop_h y i j : Z) (b : nat) :
  0 <= i < crop_w -> 0 <= y <= j -> j < crop_h -> (b < 4)%nat ->
  (Z.to_nat (crop_h - y) <= fuel)%nat ->
  let sp := ((crop_y + j) * src_w + crop_x) * 2 + 4 * (i / 2) in
  run_stores (Main.crop_rows fuel src src_w crop_x crop_y crop_w crop_h y) m
             (4 * (j * crop_w + i) + Z.of_nat b)
  = nth (Z.to_nat (4 * (i mod 2)) + b)
        (macropixel (src sp) (src (sp + 1)) (src (sp + 2)) (src (sp + 3))) 0.
Proof.
  intros Hi Hy Hj Hb Hfuel sp. revert y m Hy Hfuel.
  induction fuel as [|fuel IH]; intros y m Hy Hfuel; [lia|].
  cbn [Main.crop_rows].
  replace (y <? crop_h) with true by (symmetry; apply Z.ltb_lt; lia).
  rewrite run_stores_app.
  destruct (Z.eq_dec y j) as [->|Hne].
  - rewrite run_stores_untouched.
    + rewrite crop_row_at_loop.
      pose proof (Z.div_mod i 2 ltac:(lia)) as Hdm.
      pose proof (Z.mod_pos_bound i 2 ltac:(lia)) as Hmod.
      assert (0 <= i / 2) by (apply Z.div_pos; lia).
      assert (i / 2 < (crop_w + 1) / 2).
      { apply Z.div_lt_upper_bound; [lia|].
        pose proof (Z.div_mod (crop_w + 1) 2 ltac:(lia)).
        pose proof (Z.mod_pos_bound (crop_w + 1) 2 ltac:(lia)). lia. }
      replace (4 * (j * crop_w + i) + Z.of_nat b)
        with (j * crop_w * 4 + 8 * Z.of_nat (Z.to_nat (i / 2))
              + Z.of_nat (Z.to_nat (4 * (i mod 2)) + b)) by lia.
      rewrite yuyv_loop_lookup by lia.
      subst sp. rewrite Z2Nat.id by assumption. reflexivity.
    + intros Hin. apply crop_rows_lower_bound in Hin; lia.
  - apply IH; lia.
Qed.

(** Output pixel [(i, j)] of the crop is the conversion of the source
    macropixel that holds pixel [(crop_x & ~1) + i] of source row
    [crop_y + j]; this holds for even and for odd widths. *)
Lemma crop_pixel_content (src dst : buffer)
    (src_w src_h crop_x crop_y crop_w crop_h i j : Z) (b : nat) :
  0 <= i < crop_w -> 0 <= j < crop_h -> (b < 4)%nat ->
  let sp := ((crop_y + j) * src_w + Z.land crop_x (Z.lnot 1)) * 2 + 4 * (i / 2) in
  run_stores (Main.yuyv_crop_to_rgba src src_w src_h crop_x crop_y crop_w crop_h) dst
             (4 * (j * crop_w + i) + Z.of_nat b)
  = nth (Z.to_nat (4 * (i mod 2)) + b)
        (macropixel (src sp) (src (sp + 1)) (src (sp + 2)) (src (sp + 3))) 0.
Proof.
  intros Hi Hj Hb. unfold Main.yuyv_crop_to_rgba.
  apply crop_rows_lookup; lia.
Qed.


(** C9 (the code departs from the claim at odd widths).  A 1x1 crop at the
    origin of a 2x1 source lies inside the source, yet the conversion stores
    two pixels: eight bytes at offsets 0..7, not all of them inside the
    [1 * 1 * 4] bytes that the output of a 1x1 crop has. *)
Theorem odd_crop_stores_extra_pixel :
  let out := Main.yuyv_crop_to_rgba Inputs.gray_frame 2 1 0 0 1 1 in
  out = [(0, 128); (1, 128); (2, 128); (3, 255); (4, 128); (5, 128); (6, 128); (7, 255)]
  /\ ~ (forall k, In k (offsets out) -> 0 <= k < 1 * 1 * 4).
Proof.
  split; [reflexivity|]. intros Hall.
  assert (H4 : In 4 (offsets (Main.yuyv_crop_to_rgba Inputs.gray_frame 2 1 0 0 1 1)))
    by (vm_compute; tauto).
  specialize (Hall 4 H4). lia.
Qed.

(** ** The one-shot border scan of main.c *)

(** An upward scan either finds nothing and keeps the initial value, or
    stops at a scanned position where the test holds. *)
Lemma scan_up_cases (fuel : nat) (hit : Z -> bool) (pos limit dflt : Z) :
  (Z.to_nat (limit - pos) <= fuel)%nat ->
  (Main.scan_up fuel hit pos limit dflt = dflt
   /\ forall k, 0 <= k -> pos + 2 * k < limit -> hit (pos + 2 * k) = false)
  \/ (exists k, 0 <= k /\ pos + 2 * k < limit /\ hit (pos + 2 * k) = true
                /\ Main.scan_up fuel hit pos limit dflt = pos + 2 * k).
Proof.
  revert pos. induction fuel as [|fuel IH]; intros pos Hfuel.
  - left. split; [reflexivity | intros; lia].
  - cbn [Main.scan_up]. destruct (Z.ltb_spec pos limit) as [Hlt|Hge].
    + destruct (hit pos) eqn:Hhit.
      * right. exists 0. rewrite Z.mul_0_r, Z.add_0_r. repeat split; (lia || assumption).
      * destruct (IH (pos + 2) ltac:(lia)) as [[Heq Hnone] | (k & Hk & Hlim & Hh & Heq)].
        -- left. split; [assumption|]. intros k Hk Hklt.
           destruct (Z.eq_dec k 0) as [->|]; [now rewrite Z.mul_0_r, Z.add_0_r|].
           replace (pos + 2 * k) with (pos + 2 + 2 * (k - 1)) by lia.
           apply Hnone; lia.
        -- right. exists (k + 1).
           replace (pos + 2 * (k + 1)) with (pos + 2 + 2 * k) by lia.
           repeat split; (lia || assumption).
    + left. split; [reflexivity | intros; lia].
Qed.

(** A scan whose test holds nowhere on its path keeps the initial value. *)
Lemma scan_up_none (fuel : nat) (hit : Z -> bool) (pos limit dflt : Z) :
  (forall k, 0 <= k -> pos + 2 * k < limit -> hit (pos + 2 * k) = false) ->
  Main.scan_up fuel hit pos limit dflt = dflt.
Proof.
  revert pos. induction fuel as [|fuel IH]; intros pos Hnone; [reflexivity|].
  cbn [Main.scan_up]. destruct (Z.ltb_spec pos limit) as [Hlt|Hge]; [|reflexivity].
  pose proof (Hnone 0 ltac:(lia) ltac:(lia)) as H0.
  rewrite Z.mul_0_r, Z.add_0_r in H0. rewrite H0.
  apply IH. intros k Hk Hklt.
  replace (pos + 2 + 2 * k) with (pos + 2 * (k + 1)) by lia. apply Hnone; lia.
Qed.

Lemma scan_down_none (fuel : nat) (hit : Z -> bool) (pos limit dflt : Z) :
  (forall k, 0 <= k -> pos - 2 * k > limit -> hit (pos - 2 * k) = false) ->
  Main.scan_down fuel hit pos limit dflt = dflt.
Proof.
  revert pos. induction fuel as [|fuel IH]; intros pos Hnone; [reflexivity|].
  cbn [Main.scan_down]. destruct (Z.gtb_spec pos limit) as [Hgt|Hle]; [|reflexivity].
  pose proof (Hnone 0 ltac:(lia) ltac:(lia)) as H0.
  rewrite Z.mul_0_r, Z.sub_0_r in H0. rewrite H0.
  apply IH. intros k Hk Hkgt.
  replace (pos - 2 - 2 * k) with (pos - 2 * (k + 1)) by lia. apply Hnone; lia.
Qed.

(** The left-edge scan: nothing found and the edge stays 0, or the edge is
    a scanned column, at least 150, where the content test holds. *)
Lemma left_edge_cases (yuyv : buffer) (width height : Z) :
  (Main.left_edge_of yuyv width height = 0
   /\ forall k, 0 <= k -> 150 + 2 * k < Z.quot width 2 ->
        Main.is_content (Main.border_luma_of yuyv width height)
          (Main.sample_yuyv_luma yuyv width (150 + 2 * k) (Z.quot height 2)) = false)
  \/ (exists k, 0 <= k /\ 150 + 2 * k < Z.quot width 2
        /\ Main.is_content (Main.border_luma_of yuyv width height)
             (Main.sample_yuyv_luma yuyv width (150 + 2 * k) (Z.quot height 2)) = true
        /\ Main.left_edge_of yuyv width height = 150 + 2 * k).
Proof.
  unfold Main.left_edge_of.
  apply (scan_up_cases _
           (fun x => Main.is_content (Main.border_luma_of yuyv width height)
                       (Main.sample_yuyv_luma yuyv width x (Z.quot height 2)))).
  lia.
Qed.

(** C3, as the code has it.  The scan answers NotFound exactly when the
    left-edge scan finds no transition, or the detected width or height is
    below 200.  A right, top or bottom scan that finds no transition leaves
    its edge at the frame's width, at 0 and at the frame's height, and the
    rectangle is judged with those values. *)
Theorem scan_rejects_iff (yuyv : buffer) (width height : Z) :
  let border := Main.border_luma_of yuyv width height in
  let content x y := Main.is_content border (Main.sample_yuyv_luma yuyv width x y) in
  let left_edge := Main.left_edge_of yuyv width height in
  let right_edge := Main.right_edge_of yuyv width height in
  let top_edge := Main.top_edge_of yuyv width height in
  let bottom_edge := Main.bottom_edge_of yuyv width height in
  (Main.scan_for_game_area yuyv width height = None
   <-> (forall k, 0 <= k -> 150 + 2 * k < Z.quot width 2 ->
          content (150 + 2 * k) (Z.quot height 2) = false)
       \/ right_edge - left_edge < 200
       \/ bottom_edge - top_edge < 200)
  /\ ((forall k, 0 <= k -> width - 150 - 2 * k > Z.quot width 2 ->
         content (width - 150 - 2 * k) (Z.quot height 2) = false)
      -> right_edge = width)
  /\ ((forall k, 0 <= k -> 120 + 2 * k < Z.quot height 2 ->
         content (Main.center_x_of yuyv width height) (120 + 2 * k) = false)
      -> top_edge = 0)
  /\ ((forall k, 0 <= k -> height - 100 - 2 * k > Z.quot height 2 ->
         content (Main.scan_x_bottom_of yuyv width height) (height - 100 - 2 * k) = false)
      -> bottom_edge = height).
Proof.
  cbv zeta. split; [|split; [|split]].
  - unfold Main.scan_for_game_area.
    destruct (left_edge_cases yuyv width height)
      as [[Hzero Hnone] | (k & Hk & Hlim & Hhit & Heq)].
    + rewrite Hzero. cbn [Z.ltb Z.compare orb]. split; [intros _; now left | reflexivity].
    + replace (Main.left_edge_of yuyv width height <? 50) with false
        by (symmetry; apply Z.ltb_ge; lia).
      cbn [orb].
      destruct (Z.ltb_spec (Main.right_edge_of yuyv width height
                            - Main.left_edge_of yuyv width height) 200) as [Hw|Hw];
        cbn [orb].
      * split; [intros _; right; now left | reflexivity].
      * destruct (Z.ltb_spec (Main.bottom_edge_of yuyv width height
                              - Main.top_edge_of yuyv width height) 200) as [Hh|Hh].
        -- split; [intros _; right; now right | reflexivity].
        -- split; [discriminate|].
           intros [Hnone | [? | ?]]; [|lia|lia].
           specialize (Hnone k Hk Hlim). congruence.
  - intros Hnone. unfold Main.right_edge_of. now apply scan_down_none.
  - intros Hnone. unfold Main.top_edge_of. now apply scan_up_none.
  - intros Hnone. unfold Main.bottom_edge_of. now apply scan_down_none.
Qed.

(** C3 fails as stated: on a dark 1920x1080 frame with one bright pixel at
    (150, 540) the right, top and bottom scans find no transition, and the
    scan still returns a rectangle. *)
Lemma scan_accepts_three_failed_edges :
  let yuyv := Inputs.left_only_frame in
  let border := Main.border_luma_of yuyv 1920 1080 in
  let content x y := Main.is_content border (Main.sample_yuyv_luma yuyv 1920 x y) in
  (forall k, 0 <= k -> 1920 - 150 - 2 * k > Z.quot 1920 2 ->
     content (1920 - 150 - 2 * k) (Z.quot 1080 2) = false)
  /\ (forall k, 0 <= k -> 120 + 2 * k < Z.quot 1080 2 ->
        content (Main.center_x_of yuyv 1920 1080) (120 + 2 * k) = false)
  /\ (forall k, 0 <= k -> 1080 - 100 - 2 * k > Z.quot 1080 2 ->
        content (Main.scan_x_bottom_of yuyv 1920 1080) (1080 - 100 - 2 * k) = false)
  /\ Main.scan_for_game_area yuyv 1920 1080 = Some (148, 0, 1772, 1080).
Proof.
  cbv zeta.
  assert (Hc : Main.center_x_of Inputs.left_only_frame 1920 1080 = 1035)
    by (vm_compute; reflexivity).
  assert (Hb : Main.scan_x_bottom_of Inputs.left_only_frame 1920 1080 = 200)
    by (vm_compute; reflexivity).
  assert (Hdark : forall x y, (y * 1920 + x) * 2 <> (540 * 1920 + 150) * 2 ->
            Main.is_content (Main.border_luma_of Inputs.left_only_frame 1920 1080)
              (Main.sample_yuyv_luma Inputs.left_only_frame 1920 x y) = false).
  { intros x y Hne. unfold Main.sample_yuyv_luma at 1.
    unfold Inputs.left_only_frame at 2, Inputs.spot.
    destruct (Z.eqb_spec ((y * 1920 + x) * 2) ((540 * 1920 + 150) * 2)); [contradiction|].
    reflexivity. }
  change (Z.quot 1920 2) with 960. change (Z.quot 1080 2) with 540.
  rewrite Hc, Hb.
  split; [|split; [|split]].
  - intros k Hk Hlim. apply Hdark. lia.
  - intros k Hk Hlim. apply Hdark. lia.
  - intros k Hk Hlim. apply Hdark. lia.
  - vm_compute. reflexivity.
Qed.

(** ** Manual scan and auto-detect in the frame loop *)

Lemma install_crop_keeps (st : Main.main_state) (x y w h : Z) :
  Main.auto_detect (Main.install_crop st x y w h) = Main.auto_detect st
  /\ Main.last_detected (Main.install_crop st x y w h) = Main.last_detected st
  /\ Main.detect_cooldown (Main.install_crop st x y w h) = Main.detect_cooldown st.
Proof. unfold Main.install_crop. destruct (_ || _); repeat split. Qed.

(** With auto-detect off the auto-detect block and the cooldown tick leave
    the switch and the label alone. *)
Lemma auto_off_keeps (raw : buffer) (width height : Z) (st : Main.main_state) :
  Main.auto_detect st = false ->
  Main.auto_detect (Main.cooldown_tick (Main.auto_detect_step raw width height st)) = false
  /\ Main.last_detected (Main.cooldown_tick (Main.auto_detect_step raw width height st))
     = Main.last_detected st.
Proof.
  intros Hoff. unfold Main.auto_detect_step. rewrite Hoff. cbn [andb].
  unfold Main.cooldown_tick. destruct (_ >? 0); cbn; auto.
Qed.

(** C4, as the code has it.  After [D] is pressed, the next frame's scan
    decides: if it finds a rectangle, auto-detect is switched off and the
    label is reset to [PRESET_NONE] (and they stay so to the end of that
    frame's processing); if it answers NotFound, the switch, the label and
    the crop are what they were. *)
Theorem manual_scan_outcomes (raw : buffer) (width height : Z) (st0 : Main.main_state) :
  let st := Main.handle_key Main.SDLK_d st0 in
  let st' := Main.manual_scan_step raw width height st in
  match Main.scan_for_game_area raw width height with
  | Some _ =>
      Main.auto_detect st' = false /\ Main.last_detected st' = Main.PRESET_NONE
      /\ Main.auto_detect (Main.process_frame raw width height st) = false
      /\ Main.last_detected (Main.process_frame raw width height st) = Main.PRESET_NONE
  | None =>
      Main.auto_detect st' = Main.auto_detect st0
      /\ Main.last_detected st' = Main.last_detected st0
      /\ (Main.crop_x st', Main.crop_y st', Main.crop_w st', Main.crop_h st')
         = (Main.crop_x st0, Main.crop_y st0, Main.crop_w st0, Main.crop_h st0)
  end.
Proof.
  intros st st'. subst st'. unfold Main.process_frame, Main.manual_scan_step.
  subst st. cbn [Main.handle_key Main.set_pending_border_scan Main.pending_border_scan].
  destruct (Main.scan_for_game_area raw width height) as [[[[cx cy] cw] ch]|].
  - split; [reflexivity|]. split; [reflexivity|]. now apply auto_off_keeps.
  - repeat split.
Qed.

(** C4 fails as stated: with auto-detect on and the NES layout recognised,
    a scan of a dark frame answers NotFound and leaves auto-detect on and
    the label NES, right after the scan and at the end of the frame. *)
Lemma failed_scan_keeps_auto_detect :
  Main.pending_border_scan Inputs.nes_scanning = true
  /\ Main.scan_for_game_area Inputs.dark_frame 1920 1080 = None
  /\ Main.auto_detect (Main.manual_scan_step Inputs.dark_frame 1920 1080 Inputs.nes_scanning)
     = true
  /\ Main.last_detected (Main.manual_scan_step Inputs.dark_frame 1920 1080 Inputs.nes_scanning)
     = Main.PRESET_NES_SWITCH
  /\ Main.auto_detect (Main.process_frame Inputs.dark_frame 1920 1080 Inputs.nes_scanning)
     = true
  /\ Main.last_detected (Main.process_frame Inputs.dark_frame 1920 1080 Inputs.nes_scanning)
     = Main.PRESET_NES_SWITCH.
Proof. repeat split; vm_compute; reflexivity. Qed.

(** The sum of absolute differences of a sample set with itself. *)
Lemma border_diff_same (l : list Z) : Main.border_diff l l = 0.
Proof.
  unfold Main.border_diff. cbn [seq fold_left]. rewrite !Z.sub_diag. reflexivity.
Qed.

(** Frames that agree at the probe coordinates give the same border
    samples and the same classification. *)
Lemma same_probes_samples (width height : Z) (f g : buffer) :
  Main.same_probes width f g ->
  Main.border_samples g width = Main.border_samples f width
  /\ Main.detect_preset g width height = Main.detect_preset f width height.
Proof.
  intros H. unfold Main.border_samples, Main.detect_preset.
  rewrite !(H 400 200), !(H 400 400), !(H 400 600), !(H 400 800),
          !(H 400 300), !(H 400 500), !(H 400 700),
          !(H 700 85), !(H 700 95), !(H 960 540), !(H 700 83)
    by (unfold Main.probe_points; cbn; tauto).
  split; reflexivity.
Qed.

(** Projections of the state after the cooldown tick. *)
Ltac state_simpl :=
  unfold Main.cooldown_tick;
  match goal with
  | |- context [if ?c >? 0 then _ else _] => destruct (c >? 0)
  | _ => idtac
  end;
  cbn [Main.set_detect_cooldown Main.set_last_border_luma Main.set_last_detected
       Main.set_crop Main.last_detected Main.crop_x Main.crop_y Main.crop_w
       Main.crop_h Main.last_border_luma Main.pending_border_scan
       Main.detect_cooldown Main.auto_detect].

(** One frame on a settled detector: label and crop stay, and the detector
    stays settled for that frame. *)
Lemma process_frame_settled (raw : buffer) (width height : Z) (st : Main.main_state) :
  Main.pending_border_scan st = false ->
  Main.settled raw width height st ->
  let st' := Main.process_frame raw width height st in
  Main.last_detected st' = Main.last_detected st
  /\ (Main.crop_x st', Main.crop_y st', Main.crop_w st', Main.crop_h st')
     = (Main.crop_x st, Main.crop_y st, Main.crop_w st, Main.crop_h st)
  /\ Main.pending_border_scan st' = false
  /\ Main.settled raw width height st'.
Proof.
  intros Hpend Hset. unfold Main.settled in *.
  unfold Main.process_frame, Main.manual_scan_step, Main.auto_detect_step.
  rewrite Hpend.
  destruct (Main.auto_detect st && (Main.detect_cooldown st <=? 0)).
  - unfold Main.border_changed.
    cbn [Main.set_last_border_luma Main.last_detected].
    assert (Hafter :
              Main.detect_preset raw width height = Main.last_detected st
              \/ (Main.last_detected st <> Main.PRESET_NONE
                  /\ Main.border_diff (Main.border_samples raw width)
                       (Main.border_samples raw width) <= 60)).
    { rewrite border_diff_same.
      destruct Hset as [E | [N _]]; [now left | right; split; [exact N | lia]]. }
    destruct (bool_decide (Main.last_detected st = Main.PRESET_NONE)) eqn:Enone.
    + apply bool_decide_eq_true_1 in Enone.
      destruct Hset as [E | [N _]]; [|contradiction].
      rewrite bool_decide_eq_false_2 by (intros H; now apply H).
      state_simpl; repeat split; try reflexivity; try assumption.
    + destruct (_ >? 60) eqn:Ediff.
      * destruct Hset as [E | [_ D]]; [|apply Z.gtb_lt in Ediff; lia].
        rewrite bool_decide_eq_false_2 by (intros H; now apply H).
        state_simpl; repeat split; try reflexivity; try assumption.
      * state_simpl; repeat split; try reflexivity; try assumption.
  - unfold Main.cooldown_tick. destruct (_ >? 0); cbn; repeat split; auto.
Qed.

(** Frames with the probe values of [raw], fed to a detector settled for
    [raw], change neither the label nor the crop. *)
Lemma feed_settled (raw : buffer) (frames : list buffer) (width height : Z)
    (st : Main.main_state) :
  Main.pending_border_scan st = false ->
  Forall (Main.same_probes width raw) frames ->
  Main.settled raw width height st ->
  let st' := Main.feed frames width height st in
  Main.last_detected st' = Main.last_detected st
  /\ (Main.crop_x st', Main.crop_y st', Main.crop_w st', Main.crop_h st')
     = (Main.crop_x st, Main.crop_y st, Main.crop_w st, Main.crop_h st).
Proof.
  intros Hpend Hframes. revert st Hpend.
  induction Hframes as [|f frames Hf _ IH]; intros st Hpend Hset; cbn [Main.feed].
  - split; reflexivity.
  - destruct (same_probes_samples width height raw f Hf) as [Hb Hc].
    assert (Hsetf : Main.settled f width height st).
    { unfold Main.settled in *. now rewrite Hb, Hc. }
    destruct (process_frame_settled f width height st Hpend Hsetf)
      as (Hl & Hcrop & Hp & Hs).
    cbv zeta in IH.
    destruct (IH (Main.process_frame f width height st) Hp) as [IHl IHc].
    + unfold Main.settled in *. now rewrite <- Hb, <- Hc.
    + split; [now rewrite IHl | now rewrite IHc].
Qed.

(** An evaluation settles the detector for the frame it looked at. *)
Lemma evaluation_settles (raw : buffer) (width height : Z) (st : Main.main_state) :
  Main.pending_border_scan st = false ->
  Main.auto_detect st = true -> Main.detect_cooldown st <= 0 ->
  let st' := Main.process_frame raw width height st in
  Main.pending_border_scan st' = false /\ Main.settled raw width height st'.
Proof.
  intros Hpend Hauto Hcool. unfold Main.settled.
  unfold Main.process_frame, Main.manual_scan_step, Main.auto_detect_step.
  rewrite Hpend, Hauto.
  replace (Main.detect_cooldown st <=? 0) with true by (symmetry; apply Z.leb_le; lia).
  cbn [andb]. unfold Main.border_changed.
  cbn [Main.set_last_border_luma Main.last_detected].
  destruct (if bool_decide (Main.last_detected st = Main.PRESET_NONE) then true
            else Main.border_diff (Main.border_samples raw width)
                   (Main.last_border_luma st) >? 60) eqn:Echanged.
  - destruct (bool_decide (Main.detect_preset raw width height <> Main.last_detected st))
      eqn:Ediff.
    + destruct (Main.apply_detected_preset (Main.detect_preset raw width height))
        as [[[cx cy] cw] ch].
      unfold Main.install_crop.
      destruct (negb _ || negb _); state_simpl; (split; [assumption | now left]).
    + apply bool_decide_eq_false_1 in Ediff.
      assert (E : Main.detect_preset raw width height = Main.last_detected st).
      { destruct (decide (Main.detect_preset raw width height = Main.last_detected st));
          [assumption | contradiction]. }
      state_simpl; (split; [assumption | now left]).
  - destruct (bool_decide (Main.last_detected st = Main.PRESET_NONE)) eqn:Enone;
      [discriminate|].
    apply bool_decide_eq_false_1 in Enone.
    state_simpl; (split; [assumption|]; right; split; [assumption|];
                  rewrite border_diff_same; lia).
Qed.

(** C6.  A frame [raw] followed by any number of frames with the same luma
    at the probe coordinates, fed to the continuous detector in any state,
    with any starting label ([PRESET_NONE] included).  If the detector is
    settled for [raw] -- its label is what the frames classify as, which
    for [PRESET_NONE] is what the re-check at each evaluation finds again,
    or it is a recognised layout whose stored samples are within the
    threshold -- then none of the frames changes the label or the crop.
    And whatever the state, once the detector has evaluated [raw] none of
    the frames after it changes the label or the crop. *)
Theorem debounce_stable (raw : buffer) (frames : list buffer) (width height : Z)
    (st : Main.main_state) :
  Main.pending_border_scan st = false ->
  Forall (Main.same_probes width raw) frames ->
  let st1 := Main.process_frame raw width height st in
  let st' := Main.feed frames width height st1 in
  (Main.settled raw width height st ->
   Main.last_detected st' = Main.last_detected st
   /\ (Main.crop_x st', Main.crop_y st', Main.crop_w st', Main.crop_h st')
      = (Main.crop_x st, Main.crop_y st, Main.crop_w st, Main.crop_h st))
  /\ (Main.auto_detect st = true -> Main.detect_cooldown st <= 0 ->
      Main.last_detected st' = Main.last_detected st1
      /\ (Main.crop_x st', Main.crop_y st', Main.crop_w st', Main.crop_h st')
         = (Main.crop_x st1, Main.crop_y st1, Main.crop_w st1, Main.crop_h st1)).
Proof.
  intros Hpend Hframes st1 st'. split.
  - intros Hset.
    destruct (process_frame_settled raw width height st Hpend Hset)
      as (Hl & Hc & Hp & Hs).
    destruct (feed_settled raw frames width height st1 Hp Hframes Hs) as [Hl' Hc'].
    subst st'. split; [now rewrite Hl' | now rewrite Hc'].
  - intros Hauto Hcool.
    destruct (evaluation_settles raw width height st Hpend Hauto Hcool) as [Hp Hs].
    exact (feed_settled raw frames width height st1 Hp Hframes Hs).
Qed.

Lemma debounce_stable_witness :
  let st' := Main.feed (repeat Inputs.dark_frame 70) 1920 1080
               (Main.process_frame Inputs.dark_frame 1920 1080 Inputs.auto_on) in
  Main.last_detected st' = Main.PRESET_NONE
  /\ (Main.crop_x st', Main.crop_y st', Main.crop_w st', Main.crop_h st')
     = (448, 83, 1024, 912).
Proof.
  assert (Hframes : Forall (Main.same_probes 1920 Inputs.dark_frame)
                      (repeat Inputs.dark_frame 70)).
  { apply Forall_forall. intros f Hin. apply repeat_spec in Hin. subst f.
    intros x y _. reflexivity. }
  destruct (debounce_stable Inputs.dark_frame (repeat Inputs.dark_frame 70) 1920 1080
              Inputs.auto_on eq_refl Hframes) as [Hsteady _].
  apply Hsteady. left. reflexivity.
Defined.

(** ** Buffer ownership in capture.c *)

Lemma acquired_count_insert_queued (l : list Capture.slot_state) (i : nat) :
  (Capture.acquired_count (<[i := Capture.Queued]> l) <= Capture.acquired_count l)%nat.
Proof.
  revert i. induction l as [|s l IH]; intros i; [reflexivity|].
  destruct i as [|i]; cbn.
  - destruct s; lia.
  - specialize (IH i). destruct s; [exact IH | apply le_n_S; exact IH].
Qed.

Lemma acquired_count_insert_acquired (l : list Capture.slot_state) (i : nat) :
  (Capture.acquired_count (<[i := Capture.Acquired]> l) <= S (Capture.acquired_count l))%nat.
Proof.
  revert i. induction l as [|s l IH]; intros i; [change (0 <= 1)%nat; lia|].
  destruct i as [|i]; cbn.
  - destruct s; lia.
  - specialize (IH i). destruct s; [exact IH | apply le_n_S; exact IH].
Qed.

Lemma driver_fill_slots (drv : Capture.driver) (i : nat) (frame : buffer) (used : Z) :
  Capture.slots (Capture.driver_fill drv i frame used) = Capture.slots drv.
Proof.
  unfold Capture.driver_fill.
  destruct (Capture.slots drv !! i) as [[|]|]; [|reflexivity|reflexivity].
  destruct (bool_decide _); reflexivity.
Qed.

(** Releasing right after an acquire that started with nothing held leaves
    nothing held. *)
Lemma release_after_acquire (c : Capture.capture_ctx_t) (drv : Capture.driver)
    (index : nat) (rest : list (nat * Z)) :
  Capture.acquired_count (Capture.slots drv) = 0%nat ->
  Capture.acquired_count
    (Capture.slots
       (Capture.capture_return_buffer
          (Some (Capture.set_current_index c (Z.of_nat index)))
          {| Capture.slots := <[index := Capture.Acquired]> (Capture.slots drv);
             Capture.done := rest;
             Capture.mapped := Capture.mapped drv |})) = 0%nat.
Proof.
  intros Hnone. unfold Capture.capture_return_buffer, Capture.vidioc_qbuf.
  cbn [Capture.set_current_index Capture.current_index Capture.slots].
  replace (0 <=? Z.of_nat index) with true by (symmetry; apply Z.leb_le; lia).
  rewrite Nat2Z.id.
  destruct (Nat.lt_ge_cases index (length (Capture.slots drv))) as [Hlt|Hge].
  - rewrite list_lookup_insert_eq by assumption. cbn [Capture.slots].
    rewrite list_insert_insert_eq.
    pose proof (acquired_count_insert_queued (Capture.slots drv) index). lia.
  - rewrite list_insert_ge by assumption.
    destruct (Capture.slots drv !! index) as [[|]|] eqn:Hl; cbn [Capture.slots];
      try assumption.
    pose proof (acquired_count_insert_queued (Capture.slots drv) index). lia.
Qed.

Lemma poll_keeps_none_held (ctx : option Capture.capture_ctx_t) (drv : Capture.driver) :
  Capture.acquired_count (Capture.slots drv) = 0%nat ->
  Capture.acquired_count (Capture.slots (snd (Capture.poll ctx drv))) = 0%nat.
Proof.
  intros Hnone. unfold Capture.poll, Capture.capture_get_frame_raw, Capture.vidioc_dqbuf.
  destruct ctx as [c|]; [|assumption].
  destruct (Capture.done drv) as [|[index used] rest]; [assumption|].
  cbn [snd]. now apply release_after_acquire.
Qed.

Lemma run_keeps_none_held (events : list Capture.event)
    (ctx : option Capture.capture_ctx_t) (drv : Capture.driver) :
  Capture.acquired_count (Capture.slots drv) = 0%nat ->
  Capture.acquired_count (Capture.slots (snd (Capture.run events ctx drv))) = 0%nat.
Proof.
  revert ctx drv. induction events as [|[i frame used|] events IH]; intros ctx drv Hnone;
    cbn [Capture.run].
  - assumption.
  - apply IH. now rewrite driver_fill_slots.
  - pose proof (poll_keeps_none_held ctx drv Hnone) as Hp.
    destruct (Capture.poll ctx drv) as [ctx' drv']. now apply IH.
Qed.

(** C1, as the code has it.  When every acquire that returned a frame is
    followed by a release before the next acquire -- the way
    [capture_get_frame] and the frame loop use the pair -- then after any
    session of driver fills and polls no slot is held, the next acquire
    holds at most one slot, that slot is the one [current_index] names, and
    the release hands it back. *)
Theorem alternating_single_owner (events : list Capture.event)
    (c : Capture.capture_ctx_t) (drv0 : Capture.driver) :
  Capture.acquired_count (Capture.slots drv0) = 0%nat ->
  let '(ctx, drv) := Capture.run events (Some c) drv0 in
  Capture.acquired_count (Capture.slots drv) = 0%nat
  /\ let '(frame, ctx1, drv1) := Capture.capture_get_frame_raw ctx drv in
     (Capture.acquired_count (Capture.slots drv1) <= 1)%nat
     /\ match frame with
        | Some (index, _) =>
            (exists c1, ctx1 = Some c1 /\ Capture.current_index c1 = Z.of_nat index)
            /\ (forall i, Capture.slots drv1 !! i = Some Capture.Acquired -> i = index)
            /\ Capture.acquired_count
                 (Capture.slots (Capture.capture_return_buffer ctx1 drv1)) = 0%nat
        | None => drv1 = drv
        end.
Proof.
  intros Hnone0.
  pose proof (run_keeps_none_held events (Some c) drv0 Hnone0) as Hnone.
  destruct (Capture.run events (Some c) drv0) as [ctx drv]. cbn [snd] in Hnone.
  split; [assumption|].
  unfold Capture.capture_get_frame_raw, Capture.vidioc_dqbuf.
  destruct ctx as [c'|].
  - destruct (Capture.done drv) as [|[index used] rest].
    + split; [lia | reflexivity].
    + cbn [Capture.slots]. split.
      * pose proof (acquired_count_insert_acquired (Capture.slots drv) index). lia.
      * split; [eexists; split; reflexivity|]. split.
        -- intros i Hi. destruct (Nat.eq_dec i index) as [|Hne]; [assumption|].
           rewrite list_lookup_insert_ne in Hi by congruence.
           exfalso. clear - Hi Hnone. revert i Hi.
           induction (Capture.slots drv) as [|s l IH]; intros i Hi; [discriminate|].
           destruct s; [|discriminate]. destruct i as [|i]; [discriminate|].
           now apply (IH Hnone i).
        -- now apply release_after_acquire.
  - split; [lia | reflexivity].
Qed.

Lemma alternating_single_owner_witness :
  let '(ctx, drv) :=
    Capture.run [Capture.Fill 0 Inputs.gray_frame 16; Capture.Poll;
                 Capture.Fill 1 Inputs.gray_frame 16; Capture.Fill 0 Inputs.gray_frame 16]
                (Some Inputs.mjpeg_ctx) Inputs.one_ready in
  Capture.acquired_count (Capture.slots drv) = 0%nat
  /\ let '(frame, ctx1, drv1) := Capture.capture_get_frame_raw ctx drv in
     (Capture.acquired_count (Capture.slots drv1) <= 1)%nat
     /\ match frame with
        | Some (index, _) =>
            (exists c1, ctx1 = Some c1 /\ Capture.current_index c1 = Z.of_nat index)
            /\ (forall i, Capture.slots drv1 !! i = Some Capture.Acquired -> i = index)
            /\ Capture.acquired_count
                 (Capture.slots (Capture.capture_return_buffer ctx1 drv1)) = 0%nat
        | None => drv1 = drv
        end.
Proof.
  apply (alternating_single_owner
           [Capture.Fill 0 Inputs.gray_frame 16; Capture.Poll;
            Capture.Fill 1 Inputs.gray_frame 16; Capture.Fill 0 Inputs.gray_frame 16]
           Inputs.mjpeg_ctx Inputs.one_ready).
  reflexivity.
Defined.

(** C1 fails as stated: with both slots filled, a second acquire without a
    release is not rejected and does not return the first frame; it
    dequeues slot 1 and overwrites [current_index].  Two slots are then
    held, and releasing -- once or twice -- hands back slot 1 only: slot 0
    stays held. *)
Lemma double_acquire_loses_slot :
  let '(frame1, ctx1, drv1) :=
    Capture.capture_get_frame_raw (Some Inputs.mjpeg_ctx) Inputs.two_ready in
  let '(frame2, ctx2, drv2) := Capture.capture_get_frame_raw ctx1 drv1 in
  let drv3 := Capture.capture_return_buffer ctx2 drv2 in
  let drv4 := Capture.capture_return_buffer ctx2 drv3 in
  frame1 = Some (0%nat, 16) /\ frame2 = Some (1%nat, 16)
  /\ Capture.slots drv2 = [Capture.Acquired; Capture.Acquired]
  /\ Capture.acquired_count (Capture.slots drv2) = 2%nat
  /\ option_map Capture.current_index ctx2 = Some 1
  /\ Capture.slots drv3 = [Capture.Acquired; Capture.Queued]
  /\ Capture.slots drv4 = [Capture.Acquired; Capture.Queued].
Proof. repeat split. Qed.

(** ** The buffer count *)

(** The [B] key keeps the count within 1..4; the other keys do not touch it. *)
Lemma handle_key_buffer_count (k : Main.key) (st : Main.main_state) :
  1 <= Main.buffer_count st <= 4 ->
  1 <= Main.buffer_count (Main.handle_key k st) <= 4.
Proof.
  intros Hr. destruct k; cbn [Main.handle_key Main.set_auto_detect
    Main.set_pending_border_scan Main.set_buffer_count Main.buffer_count]; try assumption.
  destruct (Z.gtb_spec (Main.buffer_count st + 1) 4); lia.
Qed.

Lemma press_buffer_count (keys : list Main.key) (st : Main.main_state) :
  1 <= Main.buffer_count st <= 4 ->
  1 <= Main.buffer_count (Main.press keys st) <= 4.
Proof.
  revert st. unfold Main.press.
  induction keys as [|k keys IH]; intros st Hr; cbn [fold_left]; [assumption|].
  apply IH. now apply handle_key_buffer_count.
Qed.

(** What a successful open did with the count it was given. *)
Lemma open_buffers_count (dev : Capture.device) (uninit : buffer)
    (w h n : Z) (ctx : Capture.capture_ctx_t) (drv : Capture.driver) :
  Capture.capture_open_buffers dev uninit w h n = Some (ctx, drv) ->
  exists granted,
    Capture.dev_reqbufs dev (Capture.requested_count n) = Some granted
    /\ Capture.buffer_count ctx = Capture.to_int granted
    /\ length (Capture.slots drv) = Z.to_nat granted
    /\ Capture.acquired_count (Capture.slots drv) = 0%nat.
Proof.
  unfold Capture.capture_open_buffers. intros Hopen.
  destruct (negb (Capture.dev_open dev)); [discriminate|].
  destruct (Capture.dev_querycap dev) as [caps|]; [|discriminate].
  destruct (_ =? 0); [discriminate|].
  destruct (match Capture.dev_s_fmt dev Capture.V4L2_PIX_FMT_MJPEG w h with
            | Some _ => _ | None => _ end) as [[[pf w'] h']|]; [|discriminate].
  destruct (Capture.dev_reqbufs dev (Capture.requested_count n)) as [granted|];
    [|discriminate].
  destruct (_ && _); [|discriminate].
  injection Hopen as <- <-. exists granted. cbn [Capture.buffer_count Capture.slots].
  rewrite repeat_length. repeat split.
  induction (Z.to_nat granted) as [|k IH]; [reflexivity | exact IH].
Qed.

(** C2, as the code has it.  [capture_open_buffers] does not clamp: it asks
    the driver for exactly the count it is given and records the count the
    driver grants.  The counts it is given lie in 1..4 because the caller
    only cycles its count through 1..4 (the [B] key wraps from 4 to 1,
    starting from 2). *)
Theorem open_requests_caller_count (keys : list Main.key) (dev : Capture.device)
    (uninit : buffer) (w h : Z) (ctx : Capture.capture_ctx_t) (drv : Capture.driver) :
  let n := Main.buffer_count (Main.press keys Main.initial_state) in
  Capture.capture_open_buffers dev uninit w h n = Some (ctx, drv) ->
  1 <= n <= 4
  /\ Capture.requested_count n = n
  /\ exists granted,
       Capture.dev_reqbufs dev n = Some granted
       /\ Capture.buffer_count ctx = Capture.to_int granted
       /\ length (Capture.slots drv) = Z.to_nat granted.
Proof.
  intros n Hopen.
  assert (Hn : 1 <= n <= 4).
  { subst n. apply press_buffer_count. cbn. lia. }
  assert (Hreq : Capture.requested_count n = n).
  { unfold Capture.requested_count, Capture.to_u32. apply Z.mod_small. lia. }
  split; [assumption|]. split; [assumption|].
  destruct (open_buffers_count dev uninit w h n ctx drv Hopen)
    as (granted & Hg & Hc & Hl & _).
  exists granted. rewrite <- Hreq at 1. auto.
Qed.

Lemma open_requests_caller_count_witness :
  exists ctx drv,
    let n := Main.buffer_count
               (Main.press [Main.SDLK_b; Main.SDLK_b; Main.SDLK_b] Main.initial_state) in
    Capture.capture_open_buffers Inputs.granting_device Inputs.dark_frame 1920 1080 n
    = Some (ctx, drv)
    /\ 1 <= n <= 4
    /\ Capture.requested_count n = n
    /\ exists granted,
         Capture.dev_reqbufs Inputs.granting_device n = Some granted
         /\ Capture.buffer_count ctx = Capture.to_int granted
         /\ length (Capture.slots drv) = Z.to_nat granted.
Proof.
  eexists _, _. cbv zeta.
  assert (Hopen : Capture.capture_open_buffers Inputs.granting_device Inputs.dark_frame
            1920 1080
            (Main.buffer_count
               (Main.press [Main.SDLK_b; Main.SDLK_b; Main.SDLK_b] Main.initial_state))
          = Some ({| Capture.width := 1920; Capture.height := 1080;
                     Capture.format := Capture.V4L2_PIX_FMT_MJPEG;
                     Capture.buffer_count := 1; Capture.current_index := 0;
                     Capture.rgb_buffer := Inputs.dark_frame |},
                  {| Capture.slots := [Capture.Queued]; Capture.done := [];
                     Capture.mapped := fun _ _ => 0 |})) by reflexivity.
  split; [exact Hopen|].
  exact (open_requests_caller_count [Main.SDLK_b; Main.SDLK_b; Main.SDLK_b]
           Inputs.granting_device Inputs.dark_frame 1920 1080 _ _ Hopen).
Defined.

(** C2 fails as stated: asked for 7 buffers, or for 0, on a device that
    grants what it is asked, the open succeeds with 7 slots, or with none. *)
Lemma open_does_not_clamp :
  (exists ctx drv,
     Capture.capture_open_buffers Inputs.granting_device Inputs.dark_frame 1920 1080 7
     = Some (ctx, drv)
     /\ Capture.buffer_count ctx = 7 /\ length (Capture.slots drv) = 7%nat)
  /\ (exists ctx drv,
        Capture.capture_open_buffers Inputs.granting_device Inputs.dark_frame 1920 1080 0
        = Some (ctx, drv)
        /\ Capture.buffer_count ctx = 0 /\ length (Capture.slots drv) = 0%nat).
Proof. split; eexists _, _; repeat split. Qed.

(** ** Further properties of the conversions *)

Lemma clamp255_range (c : Z) : 0 <= clamp255 c <= 255.
Proof.
  unfold clamp255. destruct (Z.ltb_spec c 0); [lia|].
  destruct (Z.gtb_spec c 255); lia.
Qed.

Lemma macropixel_range (y0 u y1 v x : Z) :
  In x (macropixel y0 u y1 v) -> 0 <= x <= 255.
Proof.
  unfold macropixel. cbn [In].
  intros [<- | [<- | [<- | [<- | [<- | [<- | [<- | [<- | []]]]]]]]];
    (apply clamp255_range || lia).
Qed.

Lemma in_stores_from (off : Z) (vs : list Z) (k v : Z) :
  In (k, v) (stores_from off vs) -> In v vs.
Proof.
  revert off. induction vs as [|x vs IH]; intros off; cbn [stores_from In]; [tauto|].
  intros [H | H]; [left; congruence | right; eapply IH; exact H].
Qed.

Lemma yuyv_loop_range (n : nat) (src : buffer) (sp dp k v : Z) :
  In (k, v) (Capture.yuyv_loop n src sp dp) -> 0 <= v <= 255.
Proof.
  revert sp dp. induction n as [|n IH]; intros sp dp; cbn [Capture.yuyv_loop In]; [tauto|].
  rewrite in_app_iff. intros [H | H]; [|eapply IH; exact H].
  unfold convert_at in H. apply in_stores_from in H. eapply macropixel_range; exact H.
Qed.

Lemma crop_rows_range (fuel : nat) (src : buffer)
    (src_w crop_x crop_y crop_w crop_h y k v : Z) :
  In (k, v) (Main.crop_rows fuel src src_w crop_x crop_y crop_w crop_h y) ->
  0 <= v <= 255.
Proof.
  revert y. induction fuel as [|fuel IH]; intros y; cbn [Main.crop_rows In]; [tauto|].
  destruct (y <? crop_h); [|intros []].
  rewrite in_app_iff, crop_row_at_loop. intros [H | H]; [|eapply IH; exact H].
  eapply yuyv_loop_range; exact H.
Qed.

(** X1.  Every byte that either packed converter stores is a channel
    value between 0 and 255, whatever the input bytes are. *)
Theorem converters_store_bytes (src : buffer)
    (width height crop_x crop_y crop_w crop_h k v : Z) :
  In (k, v) (Capture.yuyv_to_rgba_fast src width height)
  \/ In (k, v) (Main.yuyv_crop_to_rgba src width height crop_x crop_y crop_w crop_h) ->
  0 <= v <= 255.
Proof.
  intros [H | H].
  - eapply yuyv_loop_range; exact H.
  - eapply crop_rows_range; exact H.
Qed.

Lemma converters_store_bytes_witness :
  In (3, 255) (Capture.yuyv_to_rgba_fast Inputs.gray_frame 2 1) /\ 0 <= 255 <= 255.
Proof.
  assert (H : In (3, 255) (Capture.yuyv_to_rgba_fast Inputs.gray_frame 2 1))
    by (vm_compute; tauto).
  split; [exact H|].
  apply (converters_store_bytes Inputs.gray_frame 2 1 0 0 2 1 3 255). now left.
Defined.

(** X2.  The full-frame packed conversion stores at exactly the offsets
    below [8 * (width * height / 2)]: never outside the
    [width * height * 4] bytes of the scratch buffer, and at every one of
    them when [width * height] is even. *)
Theorem yuyv_footprint (src : buffer) (width height k : Z) :
  0 <= width * height ->
  (In k (offsets (Capture.yuyv_to_rgba_fast src width height))
   <-> 0 <= k < 8 * Z.quot (width * height) 2)
  /\ 8 * Z.quot (width * height) 2 <= width * height * 4
  /\ (Z.even (width * height) = true ->
      8 * Z.quot (width * height) 2 = width * height * 4).
Proof.
  intros Hwh. unfold Capture.yuyv_to_rgba_fast.
  rewrite Z.quot_div_nonneg by lia.
  assert (0 <= width * height / 2) by (apply Z.div_pos; lia).
  pose proof (Z.mul_div_le (width * height) 2 ltac:(lia)).
  split; [|split].
  - rewrite offsets_yuyv_loop. lia.
  - lia.
  - intros He. apply Zeven_bool_iff, Zeven_div2 in He.
    rewrite Z.div2_div in He. lia.
Qed.

Lemma yuyv_footprint_witness :
  (In 31 (offsets (Capture.yuyv_to_rgba_fast Inputs.gray_frame 4 2))
   <-> 0 <= 31 < 8 * Z.quot (4 * 2) 2)
  /\ 8 * Z.quot (4 * 2) 2 <= 4 * 2 * 4
  /\ (Z.even (4 * 2) = true -> 8 * Z.quot (4 * 2) 2 = 4 * 2 * 4).
Proof. apply (yuyv_footprint Inputs.gray_frame 4 2 31). lia. Defined.

(** X3.  With neutral chroma (U = V = 128) a pixel comes out gray at its
    own luma: R = G = B = Y, alpha 255, for every luma byte. *)
Theorem neutral_chroma_gray (src dst : buffer) (width height p : Z) :
  0 <= p < 2 * Z.quot (width * height) 2 ->
  0 <= src (2 * p) <= 255 ->
  src (4 * (p / 2) + 1) = 128 -> src (4 * (p / 2) + 3) = 128 ->
  let out := run_stores (Capture.yuyv_to_rgba_fast src width height) dst in
  out (4 * p) = src (2 * p) /\ out (4 * p + 1) = src (2 * p)
  /\ out (4 * p + 2) = src (2 * p) /\ out (4 * p + 3) = 255.
Proof.
  intros Hp Hy Hu Hv out. subst out. unfold Capture.yuyv_to_rgba_fast.
  destruct (pixel_split p ltac:(lia)) as (j & h & Hh & ->).
  assert (Hj : (j < Z.to_nat (Z.quot (width * height) 2))%nat) by lia.
  assert (Hdiv : (2 * Z.of_nat j + Z.of_nat h) / 2 = Z.of_nat j).
  { rewrite Z.mul_comm, Z.div_add_l by lia. rewrite Z.div_small; lia. }
  rewrite Hdiv in Hu, Hv.
  assert (Hc : forall y, 0 <= y <= 255 -> clamp255 y = y).
  { intros y Hy'. unfold clamp255. destruct (Z.ltb_spec y 0); [lia|].
    destruct (Z.gtb_spec y 255); lia. }
  assert (Hb : forall b : nat, (b < 8)%nat ->
     run_stores (Capture.yuyv_loop (Z.to_nat (Z.quot (width * height) 2)) src 0 0) dst
                (0 + 8 * Z.of_nat j + Z.of_nat b)
     = nth b (macropixel (src (4 * Z.of_nat j)) 128 (src (4 * Z.of_nat j + 2)) 128) 0).
  { intros b Hb8. rewrite yuyv_loop_lookup by assumption.
    rewrite !Z.add_0_l, Hu, Hv. reflexivity. }
  unfold macropixel in Hb. change (Z.shiftr (359 * (128 - 128)) 8) with 0 in Hb.
  change (Z.shiftr (88 * (128 - 128) + 183 * (128 - 128)) 8) with 0 in Hb.
  change (Z.shiftr (454 * (128 - 128)) 8) with 0 in Hb.
  rewrite !Z.add_0_r, !Z.sub_0_r in Hb.
  destruct h as [|[|h]]; [| |lia].
  - replace (2 * (2 * Z.of_nat j + Z.of_nat 0)) with (4 * Z.of_nat j) in * by lia.
    pose proof (Hb 0%nat ltac:(lia)) as H0. pose proof (Hb 1%nat ltac:(lia)) as H1.
    pose proof (Hb 2%nat ltac:(lia)) as H2. pose proof (Hb 3%nat ltac:(lia)) as H3.
    cbn [nth] in H0, H1, H2, H3. rewrite Hc in H0, H1, H2 by assumption.
    repeat split; [rewrite <- H0 | rewrite <- H1 | rewrite <- H2 | rewrite <- H3];
      f_equal; lia.
  - replace (2 * (2 * Z.of_nat j + Z.of_nat 1)) with (4 * Z.of_nat j + 2) in * by lia.
    pose proof (Hb 4%nat ltac:(lia)) as H0. pose proof (Hb 5%nat ltac:(lia)) as H1.
    pose proof (Hb 6%nat ltac:(lia)) as H2. pose proof (Hb 7%nat ltac:(lia)) as H3.
    cbn [nth] in H0, H1, H2, H3. rewrite Hc in H0, H1, H2 by assumption.
    repeat split; [rewrite <- H0 | rewrite <- H1 | rewrite <- H2 | rewrite <- H3];
      f_equal; lia.
Qed.

Lemma neutral_chroma_gray_witness :
  let out := run_stores (Capture.yuyv_to_rgba_fast Inputs.neutral_ramp 4 2) Inputs.dark_frame in
  out (4 * 3) = Inputs.neutral_ramp (2 * 3) /\ out (4 * 3 + 1) = Inputs.neutral_ramp (2 * 3)
  /\ out (4 * 3 + 2) = Inputs.neutral_ramp (2 * 3) /\ out (4 * 3 + 3) = 255.
Proof.
  apply (neutral_chroma_gray Inputs.neutral_ramp Inputs.dark_frame 4 2 3).
  - vm_compute. split; [discriminate | reflexivity].
  - vm_compute. split; discriminate.
  - reflexivity.
  - reflexivity.
Defined.

Lemma yuyv_loop_app (n m : nat) (src : buffer) (sp dp : Z) :
  Capture.yuyv_loop (n + m) src sp dp
  = Capture.yuyv_loop n src sp dp
    ++ Capture.yuyv_loop m src (sp + 4 * Z.of_nat n) (dp + 8 * Z.of_nat n).
Proof.
  revert sp dp. induction n as [|n IH]; intros sp dp.
  - cbn [Nat.add Capture.yuyv_loop app]. f_equal; lia.
  - cbn [Nat.add Capture.yuyv_loop]. rewrite IH, <- app_assoc. do 3 f_equal; lia.
Qed.

(** The rows from [y] on of a full-width crop at the origin are the
    remaining macropixels of the frame in order. *)
Lemma full_crop_rows (fuel : nat) (src : buffer) (half height y : Z) :
  0 <= half -> 0 <= y ->
  (Z.to_nat (height - y) <= fuel)%nat ->
  Main.crop_rows fuel src (2 * half) 0 0 (2 * half) height y
  = Capture.yuyv_loop (Z.to_nat ((height - y) * half)) src
      (4 * (y * half)) (8 * (y * half)).
Proof.
  intros Hhalf. revert y. induction fuel as [|fuel IH]; intros y Hy Hfuel.
  - replace (Z.to_nat ((height - y) * half)) with 0%nat by nia. reflexivity.
  - cbn [Main.crop_rows]. destruct (Z.ltb_spec y height) as [Hlt|Hge].
    + rewrite crop_row_at_loop, IH by lia.
      replace ((2 * half + 1) / 2) with half
        by (rewrite Z.mul_comm, Z.div_add_l by lia; change (1 / 2) with 0; lia).
      replace (Z.to_nat ((height - y) * half))
        with (Z.to_nat half + Z.to_nat ((height - (y + 1)) * half))%nat by nia.
      rewrite yuyv_loop_app. rewrite Z2Nat.id by lia. do 2 f_equal; lia.
    + replace (Z.to_nat ((height - y) * half)) with 0%nat by nia. reflexivity.
Qed.

(** X4.  Cropping the whole frame is the full-frame conversion: for an even
    width the two converters make the same stores in the same order. *)
Theorem full_crop_is_full_conversion (src : buffer) (width height : Z) :
  0 <= width -> Z.even width = true -> 0 <= height ->
  Main.yuyv_crop_to_rgba src width height 0 0 width height
  = Capture.yuyv_to_rgba_fast src width height.
Proof.
  intros Hw He Hh. apply Zeven_bool_iff, Zeven_div2 in He. rewrite Z.div2_div in He.
  set (half := width / 2) in *.
  unfold Main.yuyv_crop_to_rgba, Capture.yuyv_to_rgba_fast.
  change (Z.land 0 (Z.lnot 1)) with 0. rewrite He.
  rewrite full_crop_rows by lia.
  replace (Z.quot (2 * half * height) 2) with (height * half).
  - rewrite Z.sub_0_r. f_equal.
  - rewrite Z.quot_div_nonneg by nia.
    replace (2 * half * height) with (height * half * 2) by lia.
    now rewrite Z.div_mul by lia.
Qed.

Lemma full_crop_is_full_conversion_witness :
  Main.yuyv_crop_to_rgba Inputs.ramp 4 3 0 0 4 3
  = Capture.yuyv_to_rgba_fast Inputs.ramp 4 3.
Proof.
  apply (full_crop_is_full_conversion Inputs.ramp 4 3); [lia | reflexivity | lia].
Defined.

(** X5.  Output pixel [(i, j)] of a crop holds the conversion of source
    pixel [((crop_x & ~1) + i, crop_y + j)]: byte [b] of the pixel is byte
    [b] of the first or second half of the converted macropixel that the
    source pixel belongs to.  This holds for odd widths too. *)
Theorem crop_pixel_from_source (src dst : buffer)
    (src_w src_h crop_x crop_y crop_w crop_h i j : Z) (b : nat) :
  0 <= i < crop_w -> 0 <= j < crop_h -> (b < 4)%nat ->
  let sp := ((crop_y + j) * src_w + Z.land crop_x (Z.lnot 1)) * 2 + 4 * (i / 2) in
  run_stores (Main.yuyv_crop_to_rgba src src_w src_h crop_x crop_y crop_w crop_h) dst
             (4 * (j * crop_w + i) + Z.of_nat b)
  = nth (Z.to_nat (4 * (i mod 2)) + b)
        (macropixel (src sp) (src (sp + 1)) (src (sp + 2)) (src (sp + 3))) 0.
Proof.
  intros Hi Hj Hb. unfold Main.yuyv_crop_to_rgba.
  apply crop_rows_lookup; lia.
Qed.

Lemma crop_pixel_from_source_witness :
  let sp := ((1 + 1) * 8 + Z.land 3 (Z.lnot 1)) * 2 + 4 * (2 / 2) in
  run_stores (Main.yuyv_crop_to_rgba Inputs.ramp 8 4 3 1 3 2) Inputs.dark_frame
             (4 * (1 * 3 + 2) + Z.of_nat 1)
  = nth (Z.to_nat (4 * (2 mod 2)) + 1)
        (macropixel (Inputs.ramp sp) (Inputs.ramp (sp + 1))
                    (Inputs.ramp (sp + 2)) (Inputs.ramp (sp + 3))) 0.
Proof.
  apply (crop_pixel_from_source Inputs.ramp Inputs.dark_frame 8 4 3 1 3 2 2 1 1); lia.
Defined.

(** X6.  For a crop of even width the conversion stores at exactly the
    [crop_w * crop_h * 4] offsets of the output buffer, wherever the crop
    lies in the source. *)
Theorem even_crop_exact_footprint (src : buffer)
    (src_w src_h crop_x crop_y crop_w crop_h k : Z) :
  0 < crop_w -> Z.even crop_w = true -> 0 < crop_h ->
  In k (offsets (Main.yuyv_crop_to_rgba src src_w src_h crop_x crop_y crop_w crop_h))
  <-> 0 <= k < crop_w * crop_h * 4.
Proof.
  intros Hw Heven Hh. pose proof (half_even crop_w Heven) as Hhalf.
  rewrite offsets_crop. split.
  - intros (y & Hy & Hin). apply offsets_crop_row_at in Hin; [|lia]. nia.
  - intros Hk. exists (k / (crop_w * 4)).
    pose proof (Z.div_mod k (crop_w * 4) ltac:(lia)) as Hdm.
    pose proof (Z.mod_pos_bound k (crop_w * 4) ltac:(lia)) as Hmod.
    assert (0 <= k / (crop_w * 4)) by (apply Z.div_pos; lia).
    assert (k / (crop_w * 4) < crop_h) by (apply Z.div_lt_upper_bound; lia).
    split; [lia|]. apply offsets_crop_row_at; lia.
Qed.

Lemma even_crop_exact_footprint_witness :
  In 47 (offsets (Main.yuyv_crop_to_rgba Inputs.ramp 8 4 2 1 4 3))
  <-> 0 <= 47 < 4 * 3 * 4.
Proof.
  apply (even_crop_exact_footprint Inputs.ramp 8 4 2 1 4 3 47); [lia | reflexivity | lia].
Defined.

(** X7.  [sample_yuyv_rgb] at a source pixel gives the R, G and B that the
    cropped conversion stores for that pixel. *)
Theorem sample_matches_conversion (src dst : buffer)
    (src_w src_h crop_x crop_y crop_w crop_h i j : Z) :
  0 <= i < crop_w -> 0 <= j < crop_h ->
  let out := run_stores (Main.yuyv_crop_to_rgba src src_w src_h
                           crop_x crop_y crop_w crop_h) dst in
  Main.sample_yuyv_rgb src src_w (Z.land crop_x (Z.lnot 1) + i) (crop_y + j)
  = (out (4 * (j * crop_w + i)), out (4 * (j * crop_w + i) + 1),
     out (4 * (j * crop_w + i) + 2)).
Proof.
  intros Hi Hj out. subst out.
  pose proof (crop_pixel_content src dst src_w src_h crop_x crop_y crop_w crop_h i j
                0%nat Hi Hj ltac:(lia)) as H0.
  pose proof (crop_pixel_content src dst src_w src_h crop_x crop_y crop_w crop_h i j
                1%nat Hi Hj ltac:(lia)) as H1.
  pose proof (crop_pixel_content src dst src_w src_h crop_x crop_y crop_w crop_h i j
                2%nat Hi Hj ltac:(lia)) as H2.
  cbv zeta in H0, H1, H2.
  replace (4 * (j * crop_w + i) + Z.of_nat 0) with (4 * (j * crop_w + i)) in H0 by lia.
  change (Z.of_nat 1) with 1 in H1. change (Z.of_nat 2) with 2 in H2.
  rewrite H0, H1, H2. clear H0 H1 H2.
  unfold Main.sample_yuyv_rgb.
  set (cx := Z.land crop_x (Z.lnot 1)).
  assert (Hcx : cx = 2 * (crop_x / 2)) by apply land_lnot_1.
  assert (Hx : Z.land (cx + i) (Z.lnot 1) = cx + 2 * (i / 2)).
  { rewrite land_lnot_1, Hcx. replace (2 * (crop_x / 2) + i) with (i + (crop_x / 2) * 2) by lia.
    rewrite Z.div_add by lia. lia. }
  rewrite Hx.
  replace (((crop_y + j) * src_w + (cx + 2 * (i / 2))) * 2)
    with (((crop_y + j) * src_w + cx) * 2 + 4 * (i / 2)) by lia.
  set (sp := ((crop_y + j) * src_w + cx) * 2 + 4 * (i / 2)).
  pose proof (Z.div_mod i 2 ltac:(lia)) as Hdm.
  pose proof (Z.mod_pos_bound i 2 ltac:(lia)) as Hmod.
  assert (Hc : forall c, (if (if c <? 0 then 0 else c) >? 255 then 255
                          else (if c <? 0 then 0 else c)) = clamp255 c).
  { intros c. unfold clamp255. destruct (Z.ltb_spec c 0); [reflexivity|].
    destruct (Z.gtb_spec c 255); reflexivity. }
  rewrite !Hc.
  assert (Hcase : i mod 2 = 0 \/ i mod 2 = 1) by lia.
  destruct Hcase as [Hm | Hm]; rewrite Hm.
  - replace (((crop_y + j) * src_w + (cx + i)) * 2) with sp by (subst sp; lia).
    reflexivity.
  - replace (((crop_y + j) * src_w + (cx + i)) * 2) with (sp + 2) by (subst sp; lia).
    reflexivity.
Qed.

Lemma sample_matches_conversion_witness :
  let out := run_stores (Main.yuyv_crop_to_rgba Inputs.ramp 8 4 3 1 3 2) Inputs.dark_frame in
  Main.sample_yuyv_rgb Inputs.ramp 8 (Z.land 3 (Z.lnot 1) + 2) (1 + 1)
  = (out (4 * (1 * 3 + 2)), out (4 * (1 * 3 + 2) + 1), out (4 * (1 * 3 + 2) + 2)).
Proof.
  apply (sample_matches_conversion Inputs.ramp Inputs.dark_frame 8 4 3 1 3 2 2 1); lia.
Defined.

(** X8.  Every pixel the full-frame packed conversion writes has alpha 255,
    whatever the input bytes. *)
Theorem packed_alpha_opaque (src dst : buffer) (width height p : Z) :
  0 <= p < 2 * Z.quot (width * height) 2 ->
  run_stores (Capture.yuyv_to_rgba_fast src width height) dst (4 * p + 3) = 255.
Proof.
  intros Hp. unfold Capture.yuyv_to_rgba_fast.
  destruct (pixel_split p ltac:(lia)) as (j & h & Hh & ->).
  assert (Hj : (j < Z.to_nat (Z.quot (width * height) 2))%nat) by lia.
  destruct h as [|[|h]]; [| |lia].
  - replace (4 * (2 * Z.of_nat j + Z.of_nat 0) + 3)
      with (0 + 8 * Z.of_nat j + Z.of_nat 3) by lia.
    rewrite yuyv_loop_lookup by (assumption || lia). reflexivity.
  - replace (4 * (2 * Z.of_nat j + Z.of_nat 1) + 3)
      with (0 + 8 * Z.of_nat j + Z.of_nat 7) by lia.
    rewrite yuyv_loop_lookup by (assumption || lia). reflexivity.
Qed.

Lemma packed_alpha_opaque_witness :
  run_stores (Capture.yuyv_to_rgba_fast Inputs.ramp 4 2) Inputs.dark_frame (4 * 7 + 3) = 255.
Proof.
  apply (packed_alpha_opaque Inputs.ramp Inputs.dark_frame 4 2 7).
  vm_compute. split; [discriminate | reflexivity].
Defined.

(** ** Further properties of the compressed path *)

Lemma offsets_memset0 (n k : Z) : In k (offsets (memset0 n)) -> 0 <= k < n.
Proof.
  unfold memset0. rewrite offsets_stores_from, repeat_length. lia.
Qed.

Lemma mjpeg_row_offsets (fuel : nat) (row_buffer : buffer) (x0 width ow dst k : Z) :
  In k (offsets (Capture.mjpeg_row fuel row_buffer x0 width ow dst)) ->
  exists x c, x0 <= x < width /\ x < ow /\ 0 <= c < 4 /\ k = dst + x * 4 + c.
Proof.
  revert x0. induction fuel as [|fuel IH]; intros x0; cbn [Capture.mjpeg_row offsets map In];
    [tauto|].
  destruct (Z.ltb_spec x0 width); cbn [andb]; [destruct (Z.ltb_spec x0 ow)|];
    cbn [app offsets map fst In]; try tauto.
  intros [<- | [<- | [<- | [<- | Hin]]]].
  - exists x0, 0. lia.
  - exists x0, 1. lia.
  - exists x0, 2. lia.
  - exists x0, 3. lia.
  - destruct (IH (x0 + 1) Hin) as (x & c & Hx & Hw & Hc & ->). exists x, c. lia.
Qed.

Lemma mjpeg_rows_offsets (fuel : nat) (img : Capture.jpeg_image)
    (width height y0 k : Z) :
  In k (offsets (fst (fst (Capture.mjpeg_rows fuel img width height y0)))) ->
  exists y x c, y0 <= y < height /\ y < Capture.output_height img
                /\ 0 <= x < width /\ x < Capture.output_width img
                /\ 0 <= c < 4 /\ k = y * width * 4 + x * 4 + c.
Proof.
  revert y0. induction fuel as [|fuel IH]; intros y0; cbn [Capture.mjpeg_rows];
    [cbn; tauto|].
  destruct (Z.ltb_spec y0 (Capture.output_height img)); cbn [andb];
    [destruct (Z.ltb_spec y0 height)|]; try (cbn; tauto).
  destruct (Capture.scanline img y0) as [row|]; [|cbn; tauto].
  specialize (IH (y0 + 1)).
  destruct (Capture.mjpeg_rows fuel img width height (y0 + 1)) as [[rest y'] ok].
  cbn [fst] in *. unfold offsets in *. rewrite map_app, in_app_iff.
  intros [Hin | Hin].
  - apply mjpeg_row_offsets in Hin. destruct Hin as (x & c & Hx & Hw & Hc & ->).
    exists y0, x, c. lia.
  - destruct (IH Hin) as (y & x & c & Hy & Hoh & Hx & How & Hc & ->).
    exists y, x, c. lia.
Qed.

(** X9.  The compressed path never stores outside the
    [width * height * 4] bytes of the scratch buffer, whatever the decoder
    delivers: a larger image is cut, a smaller one leaves the rest alone,
    and the fallback clears exactly the buffer. *)
Theorem mjpeg_stays_in_buffer (dec : Capture.jpeg_decoder) (mjpeg : buffer)
    (size width height k : Z) :
  In k (offsets (Capture.mjpeg_to_rgba dec mjpeg size width height)) ->
  0 <= k < width * height * 4.
Proof.
  unfold Capture.mjpeg_to_rgba.
  assert (Hrows : forall img, In k (offsets (fst (fst
             (Capture.mjpeg_rows (Z.to_nat height) img width height 0)))) ->
           0 <= k < width * height * 4).
  { intros img Hin. apply mjpeg_rows_offsets in Hin.
    destruct Hin as (y & x & c & Hy & _ & Hx & _ & Hc & ->). nia. }
  destruct (dec mjpeg size) as [img|]; [|apply offsets_memset0].
  specialize (Hrows img).
  destruct (Capture.mjpeg_rows (Z.to_nat height) img width height 0) as [[ws y] ok].
  cbn [fst] in Hrows.
  destruct (ok && Capture.finish_ok img y); [exact Hrows|].
  unfold offsets in *. rewrite map_app, in_app_iff.
  intros [Hin | Hin]; [now apply Hrows | now apply offsets_memset0].
Qed.

Lemma mjpeg_stays_in_buffer_witness :
  In 3 (offsets (Capture.mjpeg_to_rgba Inputs.decoder_1x1 Inputs.dark_frame 0 2 2))
  /\ 0 <= 3 < 2 * 2 * 4.
Proof.
  assert (H : In 3 (offsets (Capture.mjpeg_to_rgba Inputs.decoder_1x1
                               Inputs.dark_frame 0 2 2))) by (vm_compute; tauto).
  split; [exact H|].
  exact (mjpeg_stays_in_buffer Inputs.decoder_1x1 Inputs.dark_frame 0 2 2 3 H).
Defined.

(** Channel [c] of the pixel stored for column [x] of one scanline. *)
Lemma mjpeg_row_lookup (fuel : nat) (row_buffer m : buffer)
    (x0 width ow dst x : Z) (c : nat) :
  x0 <= x < width -> x < ow -> (c < 4)%nat ->
  (Z.to_nat (width - x0) <= fuel)%nat ->
  run_stores (Capture.mjpeg_row fuel row_buffer x0 width ow dst) m
             (dst + x * 4 + Z.of_nat c)
  = nth c [row_buffer (x * 3 + 0); row_buffer (x * 3 + 1); row_buffer (x * 3 + 2); 255] 0.
Proof.
  intros Hx How Hc. revert x0 m Hx.
  induction fuel as [|fuel IH]; intros x0 m Hx Hfuel; [lia|].
  cbn [Capture.mjpeg_row].
  replace (x0 <? width) with true by (symmetry; apply Z.ltb_lt; lia).
  replace (x0 <? ow) with true by (symmetry; apply Z.ltb_lt; lia).
  cbn [andb]. rewrite run_stores_app.
  destruct (Z.eq_dec x0 x) as [->|Hne].
  - rewrite run_stores_untouched.
    + change [(dst + x * 4 + 0, row_buffer (x * 3 + 0));
              (dst + x * 4 + 1, row_buffer (x * 3 + 1));
              (dst + x * 4 + 2, row_buffer (x * 3 + 2));
              (dst + x * 4 + 3, 255)]
        with ([(dst + x * 4 + 0, row_buffer (x * 3 + 0))]
              ++ [(dst + x * 4 + 1, row_buffer (x * 3 + 1))]
              ++ [(dst + x * 4 + 2, row_buffer (x * 3 + 2))]
              ++ [(dst + x * 4 + 3, 255)]).
      rewrite !run_stores_app. unfold run_stores. cbn [fold_left fst snd]. unfold upd.
      destruct c as [|[|[|[|c]]]]; [| | | |lia]; cbn [nth];
        repeat match goal with
               | |- context [?a =? ?b] =>
                   destruct (Z.eqb_spec a b); try lia
               end; reflexivity.
    + intros Hin. apply mjpeg_row_offsets in Hin.
      destruct Hin as (x' & c' & Hx' & _ & Hc' & Heq). lia.
  - apply IH; lia.
Qed.

(** Channel [c] of pixel [(x, y)] after the scanline loop, when every
    scanline it reads is delivered. *)
Lemma mjpeg_rows_lookup (fuel : nat) (img : Capture.jpeg_image) (m row : buffer)
    (width height y0 x y : Z) (c : nat) :
  (forall y', 0 <= y' < Capture.output_height img -> y' < height ->
              Capture.scanline img y' <> None) ->
  0 <= y0 <= y -> y < height -> y < Capture.output_height img ->
  0 <= x < width -> x < Capture.output_width img -> (c < 4)%nat ->
  Capture.scanline img y = Some row ->
  (Z.to_nat (height - y0) <= fuel)%nat ->
  run_stores (fst (fst (Capture.mjpeg_rows fuel img width height y0))) m
             (y * width * 4 + x * 4 + Z.of_nat c)
  = nth c [row (x * 3 + 0); row (x * 3 + 1); row (x * 3 + 2); 255] 0.
Proof.
  intros Hall Hy0 Hy Hoh Hx How Hc Hrow. revert y0 m Hy0.
  induction fuel as [|fuel IH]; intros y0 m Hy0 Hfuel; [lia|].
  cbn [Capture.mjpeg_rows].
  replace (y0 <? Capture.output_height img) with true by (symmetry; apply Z.ltb_lt; lia).
  replace (y0 <? height) with true by (symmetry; apply Z.ltb_lt; lia).
  cbn [andb].
  destruct (Capture.scanline img y0) as [row0|] eqn:Hrow0;
    [|exfalso; apply (Hall y0); (lia || assumption)].
  pose proof (mjpeg_rows_offsets fuel img width height (y0 + 1)) as Hoff.
  specialize (IH (y0 + 1)).
  destruct (Capture.mjpeg_rows fuel img width height (y0 + 1)) as [[rest y'] ok].
  cbn [fst] in *. rewrite run_stores_app.
  destruct (Z.eq_dec y0 y) as [->|Hne].
  - rewrite run_stores_untouched.
    + assert (row0 = row) by congruence. subst row0.
      apply mjpeg_row_lookup; lia.
    + intros Hin. apply Hoff in Hin.
      destruct Hin as (y1 & x1 & c1 & Hy1 & _ & Hx1 & _ & Hc1 & Heq). nia.
  - apply IH; lia.
Qed.

Lemma pixel_index_unique (w x y x1 y1 : Z) :
  0 <= x < w -> 0 <= x1 < w -> y * w + x = y1 * w + x1 -> y = y1 /\ x = x1.
Proof.
  intros Hx Hx1 Heq. destruct (Z.lt_trichotomy y y1) as [H | [H | H]]; nia.
Qed.

(** X10.  After a decode that succeeds, pixel [(x, y)] of the scratch
    buffer holds the decoded RGB with alpha 255 where the decoded image has
    that pixel, and is left as it was where the decoded image is smaller
    than the negotiated frame. *)
Theorem mjpeg_success_frame (dec : Capture.jpeg_decoder) (mjpeg dst : buffer)
    (size width height : Z) (img : Capture.jpeg_image) (x y : Z) :
  dec mjpeg size = Some img ->
  (forall y', 0 <= y' < Capture.output_height img -> y' < height ->
              Capture.scanline img y' <> None) ->
  Capture.finish_ok img (Z.max 0 (Z.min (Capture.output_height img) height)) = true ->
  0 <= x < width -> 0 <= y < height ->
  let out := run_stores (Capture.mjpeg_to_rgba dec mjpeg size width height) dst in
  let p := 4 * (y * width + x) in
  if (x <? Capture.output_width img) && (y <? Capture.output_height img) then
    exists row, Capture.scanline img y = Some row
      /\ out p = row (3 * x) /\ out (p + 1) = row (3 * x + 1)
      /\ out (p + 2) = row (3 * x + 2) /\ out (p + 3) = 255
  else
    out p = dst p /\ out (p + 1) = dst (p + 1)
    /\ out (p + 2) = dst (p + 2) /\ out (p + 3) = dst (p + 3).
Proof.
  intros Hdec Hall Hfin Hx Hy out p. subst out p. unfold Capture.mjpeg_to_rgba.
  rewrite Hdec.
  pose proof (mjpeg_rows_complete (Z.to_nat height) img width height 0
                ltac:(lia) Hall ltac:(lia)) as [Hok Hyend].
  pose proof (fun m row c => mjpeg_rows_lookup (Z.to_nat height) img m row
                width height 0 x y c Hall) as Hlook.
  pose proof (mjpeg_rows_offsets (Z.to_nat height) img width height 0) as Hoff.
  destruct (Capture.mjpeg_rows (Z.to_nat height) img width height 0) as [[ws y'] ok].
  cbn [fst snd] in *. subst ok y'. rewrite Hfin. cbn [andb].
  destruct (Z.ltb_spec x (Capture.output_width img)) as [How|How]; cbn [andb];
    [destruct (Z.ltb_spec y (Capture.output_height img)) as [Hoh|Hoh]|].
  - destruct (Capture.scanline img y) as [row|] eqn:Hrow;
      [|exfalso; apply (Hall y); (lia || assumption)].
    exists row. split; [reflexivity|].
    pose proof (Hlook dst row 0%nat ltac:(lia) ltac:(lia) Hoh ltac:(lia) How
                  ltac:(lia) eq_refl ltac:(lia)) as H0.
    pose proof (Hlook dst row 1%nat ltac:(lia) ltac:(lia) Hoh ltac:(lia) How
                  ltac:(lia) eq_refl ltac:(lia)) as H1.
    pose proof (Hlook dst row 2%nat ltac:(lia) ltac:(lia) Hoh ltac:(lia) How
                  ltac:(lia) eq_refl ltac:(lia)) as H2.
    pose proof (Hlook dst row 3%nat ltac:(lia) ltac:(lia) Hoh ltac:(lia) How
                  ltac:(lia) eq_refl ltac:(lia)) as H3.
    cbn [nth] in H0, H1, H2, H3.
    replace (x * 3 + 0) with (3 * x) in H0 by lia.
    replace (x * 3 + 1) with (3 * x + 1) in H1 by lia.
    replace (x * 3 + 2) with (3 * x + 2) in H2 by lia.
    repeat split; [rewrite <- H0 | rewrite <- H1 | rewrite <- H2 | rewrite <- H3];
      f_equal; lia.
  - repeat split; apply run_stores_untouched; intros Hin; apply Hoff in Hin;
      destruct Hin as (y1 & x1 & c1 & Hy1 & Hoh1 & Hx1 & How1 & Hc1 & Heq);
      destruct (pixel_index_unique width x y x1 y1) as [? ?]; lia.
  - repeat split; apply run_stores_untouched; intros Hin; apply Hoff in Hin;
      destruct Hin as (y1 & x1 & c1 & Hy1 & Hoh1 & Hx1 & How1 & Hc1 & Heq);
      destruct (pixel_index_unique width x y x1 y1) as [? ?]; lia.
Qed.

Lemma mjpeg_success_frame_witness :
  let out := run_stores (Capture.mjpeg_to_rgba Inputs.decoder_1x1 Inputs.dark_frame 0 2 2)
                        Inputs.gray_frame in
  exists row, Capture.scanline Inputs.image_1x1 0 = Some row
    /\ out (4 * (0 * 2 + 0)) = row (3 * 0) /\ out (4 * (0 * 2 + 0) + 1) = row (3 * 0 + 1)
    /\ out (4 * (0 * 2 + 0) + 2) = row (3 * 0 + 2) /\ out (4 * (0 * 2 + 0) + 3) = 255.
Proof.
  apply (mjpeg_success_frame Inputs.decoder_1x1 Inputs.dark_frame Inputs.gray_frame
           0 2 2 Inputs.image_1x1 0 0).
  - reflexivity.
  - intros y' _ _. discriminate.
  - reflexivity.
  - lia.
  - lia.
Defined.

(** ** Further properties of the buffer manager *)

(** X11.  [capture_get_frame] hands back what it takes: starting with no
    slot held it ends with no slot held, for every negotiated format.  It
    answers NULL exactly when the context is NULL or the driver has no
    filled buffer; otherwise it consumes the oldest filled buffer and the
    frame it returns is the context's scratch buffer. *)
Theorem capture_get_frame_releases (dec : Capture.jpeg_decoder)
    (ctx : option Capture.capture_ctx_t) (drv : Capture.driver) :
  Capture.acquired_count (Capture.slots drv) = 0%nat ->
  let '(frame, ctx', drv') := Capture.capture_get_frame dec ctx drv in
  Capture.acquired_count (Capture.slots drv') = 0%nat
  /\ (frame = None <-> ctx = None \/ Capture.done drv = [])
  /\ match frame with
     | Some rgb =>
         Capture.done drv' = tail (Capture.done drv)
         /\ exists c', ctx' = Some c' /\ Capture.rgb_buffer c' = rgb
     | None => drv' = drv
     end.
Proof.
  intros Hnone.
  unfold Capture.capture_get_frame, Capture.capture_get_frame_raw, Capture.vidioc_dqbuf.
  destruct ctx as [c|].
  - destruct (Capture.done drv) as [|[index used] rest] eqn:Hdone.
    + split; [assumption|]. split; [|reflexivity]. split; [now right | reflexivity].
    + split; [|split].
      * pose proof (release_after_acquire
                      (Capture.set_rgb_buffer c
                         (if Capture.format c =? Capture.V4L2_PIX_FMT_YUYV
                          then run_stores (Capture.yuyv_to_rgba_fast
                                 (Capture.mapped drv index) (Capture.width c)
                                 (Capture.height c)) (Capture.rgb_buffer c)
                          else if Capture.format c =? Capture.V4L2_PIX_FMT_MJPEG
                          then run_stores (Capture.mjpeg_to_rgba dec
                                 (Capture.mapped drv index) used (Capture.width c)
                                 (Capture.height c)) (Capture.rgb_buffer c)
                          else Capture.rgb_buffer c))
                      drv index rest Hnone) as Hrel.
        exact Hrel.
      * split; [discriminate | intros [H | H]; discriminate].
      * split; [|eexists; split; reflexivity].
        unfold Capture.capture_return_buffer, Capture.vidioc_qbuf.
        cbn [Capture.set_rgb_buffer Capture.set_current_index Capture.current_index
             Capture.slots Capture.done].
        destruct (0 <=? Z.of_nat index); [|reflexivity].
        destruct (_ !! _) as [[|]|]; reflexivity.
  - split; [assumption|]. split; [|reflexivity]. split; [now left | reflexivity].
Qed.

Lemma capture_get_frame_releases_witness :
  let '(frame, ctx', drv') :=
    Capture.capture_get_frame Inputs.decoder_1x1 (Some Inputs.mjpeg_ctx_2x2)
                              Inputs.two_ready in
  Capture.acquired_count (Capture.slots drv') = 0%nat
  /\ (frame = None <-> Some Inputs.mjpeg_ctx_2x2 = None \/ Capture.done Inputs.two_ready = [])
  /\ match frame with
     | Some rgb =>
         Capture.done drv' = tail (Capture.done Inputs.two_ready)
         /\ exists c', ctx' = Some c' /\ Capture.rgb_buffer c' = rgb
     | None => drv' = Inputs.two_ready
     end.
Proof.
  apply (capture_get_frame_releases Inputs.decoder_1x1 (Some Inputs.mjpeg_ctx_2x2)
           Inputs.two_ready).
  reflexivity.
Defined.

Lemma poll_slots_length (ctx : option Capture.capture_ctx_t) (drv : Capture.driver) :
  length (Capture.slots (snd (Capture.poll ctx drv))) = length (Capture.slots drv).
Proof.
  unfold Capture.poll, Capture.capture_get_frame_raw, Capture.vidioc_dqbuf.
  destruct ctx as [c|]; [|reflexivity].
  destruct (Capture.done drv) as [|[index used] rest]; [reflexivity|].
  cbn [snd]. unfold Capture.capture_return_buffer, Capture.vidioc_qbuf.
  cbn [Capture.set_current_index Capture.current_index Capture.slots].
  destruct (0 <=? Z.of_nat index); cbn [Capture.slots]; [|apply length_insert].
  destruct (_ !! _) as [[|]|]; cbn [Capture.slots]; rewrite ?length_insert; reflexivity.
Qed.

Lemma run_slots_length (events : list Capture.event)
    (ctx : option Capture.capture_ctx_t) (drv : Capture.driver) :
  length (Capture.slots (snd (Capture.run events ctx drv))) = length (Capture.slots drv).
Proof.
  revert ctx drv. induction events as [|[i frame used|] events IH]; intros ctx drv;
    cbn [Capture.run].
  - reflexivity.
  - rewrite IH. now rewrite driver_fill_slots.
  - pose proof (poll_slots_length ctx drv) as Hp.
    destruct (Capture.poll ctx drv) as [ctx' drv']. rewrite IH. exact Hp.
Qed.

(** X12.  A context that opened keeps its pool: after any session of driver
    fills and polls on it the number of slots is still the count the driver
    granted, and none of them is held by the consumer. *)
Theorem open_then_session (dev : Capture.device) (uninit : buffer)
    (w h n : Z) (ctx : Capture.capture_ctx_t) (drv : Capture.driver)
    (events : list Capture.event) :
  Capture.capture_open_buffers dev uninit w h n = Some (ctx, drv) ->
  let drv' := snd (Capture.run events (Some ctx) drv) in
  exists granted,
    Capture.dev_reqbufs dev (Capture.requested_count n) = Some granted
    /\ length (Capture.slots drv') = Z.to_nat granted
    /\ Capture.acquired_count (Capture.slots drv') = 0%nat.
Proof.
  intros Hopen drv'. subst drv'.
  destruct (open_buffers_count dev uninit w h n ctx drv Hopen)
    as (granted & Hg & _ & Hlen & Hnone).
  exists granted. split; [assumption|]. split.
  - now rewrite run_slots_length.
  - now apply run_keeps_none_held.
Qed.

Lemma open_then_session_witness :
  let ctx :=
    {| Capture.width := 1920; Capture.height := 1080;
       Capture.format := Capture.V4L2_PIX_FMT_MJPEG;
       Capture.buffer_count := 3; Capture.current_index := 0;
       Capture.rgb_buffer := Inputs.dark_frame |} in
  let drv :=
    {| Capture.slots := [Capture.Queued; Capture.Queued; Capture.Queued];
       Capture.done := []; Capture.mapped := fun _ _ => 0 |} in
  let events := [Capture.Fill 2 Inputs.gray_frame 16; Capture.Poll; Capture.Poll;
                 Capture.Fill 0 Inputs.gray_frame 16] in
  Capture.capture_open_buffers Inputs.granting_device Inputs.dark_frame 1920 1080 3
  = Some (ctx, drv)
  /\ exists granted,
       Capture.dev_reqbufs Inputs.granting_device (Capture.requested_count 3) = Some granted
       /\ length (Capture.slots (snd (Capture.run events (Some ctx) drv))) = Z.to_nat granted
       /\ Capture.acquired_count (Capture.slots (snd (Capture.run events (Some ctx) drv)))
          = 0%nat.
Proof.
  cbv zeta.
  assert (Hopen :
    Capture.capture_open_buffers Inputs.granting_device Inputs.dark_frame 1920 1080 3
    = Some ({| Capture.width := 1920; Capture.height := 1080;
               Capture.format := Capture.V4L2_PIX_FMT_MJPEG;
               Capture.buffer_count := 3; Capture.current_index := 0;
               Capture.rgb_buffer := Inputs.dark_frame |},
            {| Capture.slots := [Capture.Queued; Capture.Queued; Capture.Queued];
               Capture.done := []; Capture.mapped := fun _ _ => 0 |})) by reflexivity.
  split; [exact Hopen|].
  exact (open_then_session Inputs.granting_device Inputs.dark_frame 1920 1080 3 _ _
           [Capture.Fill 2 Inputs.gray_frame 16; Capture.Poll; Capture.Poll;
            Capture.Fill 0 Inputs.gray_frame 16] Hopen).
Defined.

(** ** Further properties of the border scan *)

(** [x & ~3] is [x] rounded down to a multiple of 4. *)
Lemma land_lnot_3 (x : Z) : Z.land x (Z.lnot 3) = 4 * (x / 4).
Proof.
  rewrite <- Z.ldiff_land. change 3 with (Z.ones 2) at 1.
  rewrite Z.ldiff_ones_r by lia.
  rewrite Z.shiftr_div_pow2, Z.shiftl_mul_pow2 by lia.
  change (2 ^ 2) with 4. lia.
Qed.

Lemma round_down_4 (x : Z) : 4 * (x / 4) <= x < 4 * (x / 4) + 4 /\ (4 * (x / 4)) mod 4 = 0.
Proof.
  pose proof (Z.div_mod x 4 ltac:(lia)). pose proof (Z.mod_pos_bound x 4 ltac:(lia)).
  split; [lia|]. rewrite Z.mul_comm. apply Z.mod_mul. lia.
Qed.

(** What an accepted scan is made of. *)
Lemma scan_some_inv (yuyv : buffer) (width height x y w h : Z) :
  Main.scan_for_game_area yuyv width height = Some (x, y, w, h) ->
  x = 4 * (Main.left_edge_of yuyv width height / 4)
  /\ y = 4 * (Main.top_edge_of yuyv width height / 4)
  /\ w = 4 * ((Main.right_edge_of yuyv width height - x + 3) / 4)
  /\ h = 4 * ((Main.bottom_edge_of yuyv width height - y + 3) / 4)
  /\ 150 <= Main.left_edge_of yuyv width height
  /\ 200 <= Main.right_edge_of yuyv width height - Main.left_edge_of yuyv width height
  /\ 200 <= Main.bottom_edge_of yuyv width height - Main.top_edge_of yuyv width height.
Proof.
  unfold Main.scan_for_game_area.
  destruct (left_edge_cases yuyv width height)
    as [[Hzero _] | (k & Hk & _ & _ & Heq)].
  - rewrite Hzero. cbn [Z.ltb Z.compare orb]. discriminate.
  - set (le := Main.left_edge_of yuyv width height) in *.
    set (re := Main.right_edge_of yuyv width height).
    set (te := Main.top_edge_of yuyv width height).
    set (be := Main.bottom_edge_of yuyv width height).
    destruct (Z.ltb_spec le 50); cbn [orb]; [discriminate|].
    destruct (Z.ltb_spec (re - le) 200); cbn [orb]; [discriminate|].
    destruct (Z.ltb_spec (be - te) 200); [discriminate|].
    rewrite !land_lnot_3. intros Hsome. injection Hsome as <- <- <- <-.
    repeat split; lia.
Qed.

(** X13.  A rectangle that the scan returns is snapped to multiples of 4
    on all four values, starts at column 148 or later, is at least 200 wide
    and 200 high, and covers the detected edges with less than 4 pixels to
    spare on each side. *)
Theorem scan_result_snapped (yuyv : buffer) (width height x y w h : Z) :
  Main.scan_for_game_area yuyv width height = Some (x, y, w, h) ->
  (x mod 4 = 0 /\ y mod 4 = 0 /\ w mod 4 = 0 /\ h mod 4 = 0)
  /\ 148 <= x /\ 200 <= w /\ 200 <= h
  /\ x <= Main.left_edge_of yuyv width height < x + 4
  /\ y <= Main.top_edge_of yuyv width height < y + 4
  /\ Main.right_edge_of yuyv width height <= x + w
     < Main.right_edge_of yuyv width height + 4
  /\ Main.bottom_edge_of yuyv width height <= y + h
     < Main.bottom_edge_of yuyv width height + 4.
Proof.
  intros Hsome. apply scan_some_inv in Hsome.
  destruct Hsome as (Hx & Hy & Hw & Hh & Hle & Hdw & Hdh).
  pose proof (round_down_4 (Main.left_edge_of yuyv width height)) as [Hle4 Hlm].
  pose proof (round_down_4 (Main.top_edge_of yuyv width height)) as [Hte4 Htm].
  pose proof (round_down_4 (Main.right_edge_of yuyv width height - x + 3)) as [Hw4 Hwm].
  pose proof (round_down_4 (Main.bottom_edge_of yuyv width height - y + 3)) as [Hh4 Hhm].
  rewrite <- Hx in Hle4, Hlm. rewrite <- Hy in Hte4, Htm.
  rewrite <- Hw in Hw4, Hwm. rewrite <- Hh in Hh4, Hhm.
  repeat split; try assumption; lia.
Qed.

Lemma scan_result_snapped_witness :
  Main.scan_for_game_area Inputs.left_only_frame 1920 1080 = Some (148, 0, 1772, 1080)
  /\ (148 mod 4 = 0 /\ 0 mod 4 = 0 /\ 1772 mod 4 = 0 /\ 1080 mod 4 = 0)
  /\ 148 <= 148 /\ 200 <= 1772 /\ 200 <= 1080
  /\ 148 <= Main.left_edge_of Inputs.left_only_frame 1920 1080 < 148 + 4
  /\ 0 <= Main.top_edge_of Inputs.left_only_frame 1920 1080 < 0 + 4
  /\ Main.right_edge_of Inputs.left_only_frame 1920 1080 <= 148 + 1772
     < Main.right_edge_of Inputs.left_only_frame 1920 1080 + 4
  /\ Main.bottom_edge_of Inputs.left_only_frame 1920 1080 <= 0 + 1080
     < Main.bottom_edge_of Inputs.left_only_frame 1920 1080 + 4.
Proof.
  assert (H : Main.scan_for_game_area Inputs.left_only_frame 1920 1080
              = Some (148, 0, 1772, 1080)) by (vm_compute; reflexivity).
  split; [exact H|].
  exact (scan_result_snapped Inputs.left_only_frame 1920 1080 148 0 1772 1080 H).
Defined.

(** X14.  A frame in which no byte is brighter than the larger of 40 and
    the border sample plus 15 -- a dark frame, or a flat frame of any
    brightness -- gives NotFound. *)
Theorem flat_frame_not_found (yuyv : buffer) (width height : Z) :
  (forall k, yuyv k <= Z.max 40 (Main.border_luma_of yuyv width height + 15)) ->
  Main.scan_for_game_area yuyv width height = None.
Proof.
  intros Hflat. unfold Main.scan_for_game_area.
  assert (Hleft : Main.left_edge_of yuyv width height = 0).
  { unfold Main.left_edge_of. apply scan_up_none. intros k _ _.
    unfold Main.is_content, Main.sample_yuyv_luma.
    specialize (Hflat ((Z.quot height 2 * width + (150 + 2 * k)) * 2)).
    destruct (Z.gtb_spec (yuyv ((Z.quot height 2 * width + (150 + 2 * k)) * 2)) 40);
      cbn [andb]; [|reflexivity].
    destruct (Z.gtb_spec (yuyv ((Z.quot height 2 * width + (150 + 2 * k)) * 2))
                (Main.border_luma_of yuyv width height + 15)); [lia | reflexivity]. }
  rewrite Hleft. reflexivity.
Qed.

Lemma flat_frame_not_found_witness :
  Main.scan_for_game_area Inputs.gray_frame 1920 1080 = None.
Proof.
  apply (flat_frame_not_found Inputs.gray_frame 1920 1080).
  intros k. vm_compute. discriminate.
Defined.






(** ** Further properties of the frame loop *)









(** Frames that arrive while the cooldown runs are not looked at. *)
Lemma feed_during_cooldown (frames : list buffer) (width height : Z)
    (st : Main.main_state) :
  Main.pending_border_scan st = false ->
  Z.of_nat (length frames) <= Main.detect_cooldown st ->
  let st' := Main.feed frames width height st in
  Main.last_detected st' = Main.last_detected st
  /\ (Main.crop_x st', Main.crop_y st', Main.crop_w st', Main.crop_h st')
     = (Main.crop_x st, Main.crop_y st, Main.crop_w st, Main.crop_h st)
  /\ Main.last_border_luma st' = Main.last_border_luma st
  /\ Main.detect_cooldown st' = Main.detect_cooldown st - Z.of_nat (length frames).
Proof.
  revert st. induction frames as [|raw frames IH]; intros st Hpend Hlen; cbn [Main.feed].
  - cbn [length]. repeat split. lia.
  - cbn [length] in Hlen.
    assert (Hstep : Main.process_frame raw width height st
                    = Main.set_detect_cooldown st (Main.detect_cooldown st - 1)).
    { unfold Main.process_frame, Main.manual_scan_step, Main.auto_detect_step.
      rewrite Hpend.
      replace (Main.detect_cooldown st <=? 0) with false
        by (symmetry; apply Z.leb_gt; lia).
      rewrite andb_false_r. unfold Main.cooldown_tick.
      replace (Main.detect_cooldown st >? 0) with true
        by (symmetry; apply Z.gtb_lt; lia).
      reflexivity. }
    rewrite Hstep.
    destruct (IH (Main.set_detect_cooldown st (Main.detect_cooldown st - 1)))
      as (Hl & Hc & Hb & Hd).
    + exact Hpend.
    + cbn [Main.set_detect_cooldown Main.detect_cooldown]. lia.
    + cbn [Main.set_detect_cooldown Main.detect_cooldown Main.last_detected
           Main.crop_x Main.crop_y Main.crop_w Main.crop_h Main.last_border_luma] in *.
      cbn [length]. repeat split; try assumption. lia.
Qed.

(** X17.  The classifier runs at most once in 30 frames: after a frame on
    which it ran, the next 29 frames -- whatever they show -- change
    neither the label, nor the crop, nor the stored probe values, and only
    count the cooldown down from 29. *)
Theorem evaluation_cadence (raw : buffer) (frames : list buffer)
    (width height : Z) (st : Main.main_state) :
  Main.auto_detect st = true -> Main.detect_cooldown st <= 0 ->
  Main.pending_border_scan st = false ->
  (length frames <= 29)%nat ->
  let st1 := Main.process_frame raw width height st in
  let st' := Main.feed frames width height st1 in
  Main.detect_cooldown st1 = 29
  /\ Main.last_detected st' = Main.last_detected st1
  /\ (Main.crop_x st', Main.crop_y st', Main.crop_w st', Main.crop_h st')
     = (Main.crop_x st1, Main.crop_y st1, Main.crop_w st1, Main.crop_h st1)
  /\ Main.last_border_luma st' = Main.last_border_luma st1
  /\ Main.detect_cooldown st' = 29 - Z.of_nat (length frames).
Proof.
  intros Hauto Hcool Hpend Hlen st1 st'.
  assert (H1 : Main.detect_cooldown st1 = 29 /\ Main.pending_border_scan st1 = false).
  { subst st1. unfold Main.process_frame, Main.manual_scan_step, Main.auto_detect_step.
    rewrite Hpend, Hauto.
    replace (Main.detect_cooldown st <=? 0) with true by (symmetry; apply Z.leb_le; lia).
    cbn [andb].
    destruct (Main.border_changed raw width (Main.last_detected st)
                (Main.last_border_luma st)) as [changed luma].
    destruct changed; [destruct (bool_decide _)|];
      [destruct (Main.apply_detected_preset _) as [[[cx cy] cw] ch];
       unfold Main.install_crop; destruct (_ || _)| |];
      cbn; auto. }
  destruct H1 as [Hc1 Hp1]. split; [assumption|].
  destruct (feed_during_cooldown frames width height st1 Hp1 ltac:(lia))
    as (Hl & Hc & Hb & Hd).
  fold st' in Hl, Hc, Hb, Hd. rewrite Hc1 in Hd. auto.
Qed.

Lemma evaluation_cadence_witness :
  let st1 := Main.process_frame Inputs.snes_frame 1920 1080 Inputs.auto_on in
  let st' := Main.feed (repeat Inputs.gray_frame 29) 1920 1080 st1 in
  Main.detect_cooldown st1 = 29
  /\ Main.last_detected st' = Main.last_detected st1
  /\ (Main.crop_x st', Main.crop_y st', Main.crop_w st', Main.crop_h st')
     = (Main.crop_x st1, Main.crop_y st1, Main.crop_w st1, Main.crop_h st1)
  /\ Main.last_border_luma st' = Main.last_border_luma st1
  /\ Main.detect_cooldown st' = 29 - Z.of_nat (length (repeat Inputs.gray_frame 29)).
Proof.
  apply (evaluation_cadence Inputs.snes_frame (repeat Inputs.gray_frame 29) 1920 1080
           Inputs.auto_on).
  - reflexivity.
  - vm_compute. discriminate.
  - reflexivity.
  - rewrite repeat_length. lia.
Defined.

(** One frame that classifies as the label already in force, or as the
    label to come, leaves that label and its crop in force. *)
Lemma process_frame_same_class (raw : buffer) (width height : Z)
    (st : Main.main_state) (l : Main.detected_preset_t) :
  Main.detect_preset raw width height = l ->
  Main.pending_border_scan st = false ->
  Main.last_detected st = l ->
  let st' := Main.process_frame raw width height st in
  Main.last_detected st' = l
  /\ Main.pending_border_scan st' = false
  /\ Main.auto_detect st' = Main.auto_detect st
  /\ (Main.crop_x st', Main.crop_y st', Main.crop_w st', Main.crop_h st')
     = (Main.crop_x st, Main.crop_y st, Main.crop_w st, Main.crop_h st).
Proof.
  intros Hclass Hpend Hlabel.
  unfold Main.process_frame, Main.manual_scan_step, Main.auto_detect_step.
  rewrite Hpend.
  destruct (Main.auto_detect st && (Main.detect_cooldown st <=? 0)).
  - destruct (Main.border_changed raw width (Main.last_detected st)
                (Main.last_border_luma st)) as [changed luma].
    cbn [Main.set_last_border_luma Main.last_detected].
    rewrite Hclass, Hlabel.
    rewrite bool_decide_eq_false_2 by (intros H; now apply H).
    unfold Main.cooldown_tick. destruct changed; cbn; auto.
  - unfold Main.cooldown_tick. destruct (_ >? 0); cbn; auto.
Qed.

(** X18.  When auto-detect evaluates a frame while the label is
    [PRESET_NONE] and that frame and the frames after it all classify as
    one recognised layout, the label becomes that layout on the first
    frame, the crop becomes the layout's fixed crop, and both stay so for
    as long as such frames arrive. *)
Theorem classification_applied (raw : buffer) (frames : list buffer)
    (width height : Z) (st : Main.main_state) (l : Main.detected_preset_t) :
  Main.auto_detect st = true -> Main.detect_cooldown st <= 0 ->
  Main.pending_border_scan st = false ->
  Main.last_detected st = Main.PRESET_NONE ->
  l <> Main.PRESET_NONE ->
  Forall (fun f => Main.detect_preset f width height = l) (raw :: frames) ->
  let st' := Main.feed (raw :: frames) width height st in
  Main.last_detected st' = l
  /\ (Main.crop_x st', Main.crop_y st', Main.crop_w st', Main.crop_h st')
     = Main.apply_detected_preset l.
Proof.
  intros Hauto Hcool Hpend Hnone Hl Hall.
  apply Forall_cons_iff in Hall. destruct Hall as [Hraw Hframes].
  cbn [Main.feed].
  assert (H1 :
    let st1 := Main.process_frame raw width height st in
    Main.last_detected st1 = l /\ Main.pending_border_scan st1 = false
    /\ (Main.crop_x st1, Main.crop_y st1, Main.crop_w st1, Main.crop_h st1)
       = Main.apply_detected_preset l).
  { unfold Main.process_frame, Main.manual_scan_step, Main.auto_detect_step.
    rewrite Hpend, Hauto.
    replace (Main.detect_cooldown st <=? 0) with true by (symmetry; apply Z.leb_le; lia).
    cbn [andb]. unfold Main.border_changed. rewrite Hnone.
    rewrite bool_decide_eq_true_2 by reflexivity.
    cbn [Main.set_last_border_luma Main.last_detected]. rewrite Hraw, Hnone.
    rewrite bool_decide_eq_true_2 by assumption.
    destruct (Main.apply_detected_preset l) as [[[cx cy] cw] ch].
    unfold Main.install_crop.
    destruct (Z.eqb_spec cw (Main.crop_w (Main.set_last_border_luma st
                (Main.border_samples raw width)))) as [Ew|Ew]; cbn [negb orb];
      [destruct (Z.eqb_spec ch (Main.crop_h (Main.set_last_border_luma st
                (Main.border_samples raw width)))) as [Eh|Eh]; cbn [negb]|];
      unfold Main.cooldown_tick; cbn in *; repeat split; congruence. }
  cbv zeta in H1. destruct H1 as (Hl1 & Hp1 & Hc1).
  set (st1 := Main.process_frame raw width height st) in *.
  clearbody st1. clear Hauto Hcool Hpend Hnone Hraw.
  revert st1 Hl1 Hp1 Hc1.
  induction Hframes as [|f frames Hf _ IH]; intros st1 Hl1 Hp1 Hc1; cbn [Main.feed].
  - split; assumption.
  - destruct (process_frame_same_class f width height st1 l Hf Hp1 Hl1)
      as (Hl2 & Hp2 & _ & Hc2).
    apply IH; [assumption | assumption | now rewrite Hc2].
Qed.

Lemma classification_applied_witness :
  let st' := Main.feed (Inputs.snes_frame :: repeat Inputs.snes_frame 40) 1920 1080
               Inputs.auto_on in
  Main.last_detected st' = Main.PRESET_SNES_SWITCH
  /\ (Main.crop_x st', Main.crop_y st', Main.crop_w st', Main.crop_h st')
     = Main.apply_detected_preset Main.PRESET_SNES_SWITCH.
Proof.
  apply (classification_applied Inputs.snes_frame (repeat Inputs.snes_frame 40) 1920 1080
           Inputs.auto_on Main.PRESET_SNES_SWITCH).
  - reflexivity.
  - vm_compute. discriminate.
  - reflexivity.
  - reflexivity.
  - discriminate.
  - apply Forall_forall. intros f [<- | Hin]; [vm_compute; reflexivity|].
    apply repeat_spec in Hin. subst f. vm_compute. reflexivity.
Defined.

(** X19.  The [B] key walks the buffer count round 1, 2, 3, 4: after [n]
    presses from a count in that range the count is
    [(count - 1 + n) mod 4 + 1], and a change of the capture is pending
    after the first press. *)
Theorem buffer_count_cycle (n : nat) (st : Main.main_state) :
  1 <= Main.buffer_count st <= 4 ->
  let st' := Main.press (repeat Main.SDLK_b n) st in
  Main.buffer_count st' = (Main.buffer_count st - 1 + Z.of_nat n) mod 4 + 1
  /\ (0 < n -> Main.pending_buffer_change st' = true)%nat.
Proof.
  revert st. induction n as [|n IH]; intros st Hr.
  - cbn [repeat Main.press fold_left]. split; [|lia].
    rewrite Z.add_0_r, Z.mod_small; lia.
  - cbn [repeat]. unfold Main.press in *. cbn [fold_left].
    assert (Hr' : 1 <= Main.buffer_count (Main.handle_key Main.SDLK_b st) <= 4)
      by now apply handle_key_buffer_count.
    destruct (IH (Main.handle_key Main.SDLK_b st) Hr') as [Hc Hp]. split.
    + rewrite Hc. cbn [Main.handle_key Main.set_buffer_count Main.buffer_count].
      destruct (Z.gtb_spec (Main.buffer_count st + 1) 4) as [Hgt|Hle].
      * assert (Main.buffer_count st = 4) by lia.
        replace (Main.buffer_count st - 1 + Z.of_nat (S n)) with (Z.of_nat n + 1 * 4) by lia.
        rewrite Z.mod_add by lia. f_equal; try f_equal; lia.
      * f_equal; try f_equal; lia.
    + intros _. destruct n as [|n]; [reflexivity | apply Hp; lia].
Qed.

Lemma buffer_count_cycle_witness :
  let st' := Main.press (repeat Main.SDLK_b 7) Main.initial_state in
  Main.buffer_count st' = (Main.buffer_count Main.initial_state - 1 + Z.of_nat 7) mod 4 + 1
  /\ (0 < 7 -> Main.pending_buffer_change st' = true)%nat.
Proof.
  apply (buffer_count_cycle 7 Main.initial_state). cbn. lia.
Defined.

(** X20.  The destination rectangle: its height is twice the native height
    in both modes; in pixel mode its width is twice the native width; in
    smooth mode it is the wider of that and 4:3 of the height, so content
    is never squashed below 4:3; and it is centred in the output to within
    one pixel. *)
Theorem dst_rect_shape (mode : Main.scale_mode_t) (crop_w crop_h out_w out_h : Z) :
  0 <= crop_w -> 0 <= crop_h ->
  let '(dst_x, dst_y, dst_w, dst_h) := Main.dst_rect mode crop_w crop_h out_w out_h in
  dst_h = 2 * (crop_h / 4)
  /\ 2 * (crop_w / 4) <= dst_w
  /\ match mode with
     | Main.SCALE_PIXEL => dst_w = 2 * (crop_w / 4)
     | Main.SCALE_SMOOTH => 4 * dst_h - 2 <= 3 * dst_w
                            /\ (dst_w = 2 * (crop_w / 4) \/ 3 * dst_w <= 4 * dst_h)
     end
  /\ -1 <= out_w - dst_w - 2 * dst_x <= 1
  /\ -1 <= out_h - dst_h - 2 * dst_y <= 1.
Proof.
  intros Hw Hh. unfold Main.dst_rect.
  rewrite (Z.quot_div_nonneg crop_w 4), (Z.quot_div_nonneg crop_h 4) by lia.
  assert (0 <= crop_w / 4) by (apply Z.div_pos; lia).
  assert (0 <= crop_h / 4) by (apply Z.div_pos; lia).
  assert (Hq : forall a, -1 <= a - 2 * Z.quot a 2 <= 1).
  { intros a. pose proof (Z.quot_rem a 2 ltac:(lia)).
    pose proof (Z.rem_bound_abs a 2 ltac:(lia)). lia. }
  destruct mode.
  - rewrite (Z.quot_div_nonneg (crop_h / 4 * 2 * 4) 3) by lia.
    pose proof (Z.div_mod (crop_h / 4 * 2 * 4) 3 ltac:(lia)).
    pose proof (Z.mod_pos_bound (crop_h / 4 * 2 * 4) 3 ltac:(lia)).
    pose proof (Hq (out_h - crop_h / 4 * 2)).
    destruct (Z.gtb_spec (crop_w / 4 * 2) (crop_h / 4 * 2 * 4 / 3)).
    + pose proof (Hq (out_w - crop_w / 4 * 2)). repeat split; lia.
    + pose proof (Hq (out_w - crop_h / 4 * 2 * 4 / 3)). repeat split; lia.
  - pose proof (Hq (out_w - crop_w / 4 * 2)). pose proof (Hq (out_h - crop_h / 4 * 2)).
    repeat split; lia.
Qed.

Lemma dst_rect_shape_witness :
  let '(dst_x, dst_y, dst_w, dst_h) := Main.dst_rect Main.SCALE_SMOOTH 1024 912 720 480 in
  dst_h = 2 * (912 / 4)
  /\ 2 * (1024 / 4) <= dst_w
  /\ (4 * dst_h - 2 <= 3 * dst_w /\ (dst_w = 2 * (1024 / 4) \/ 3 * dst_w <= 4 * dst_h))
  /\ -1 <= 720 - dst_w - 2 * dst_x <= 1
  /\ -1 <= 480 - dst_h - 2 * dst_y <= 1.
Proof.
  apply (dst_rect_shape Main.SCALE_SMOOTH 1024 912 720 480); lia.
Defined.

(** ** The preset dialogs *)

(** The name being typed: the array has its 32 chars, the length is at
    most 28, the chars before the length are name chars and the char at the
    length is NUL. *)
Lemma name_char_nonzero (c : Z) : Ui.name_char c = true -> c <> 0.
Proof. intros H ->. discriminate. Qed.

Lemma c_string_take (a : list Z) (n : nat) :
  (forall i, (i < n)%nat -> exists c, a !! i = Some c /\ c <> 0) ->
  a !! n = Some 0 ->
  Ui.c_string a = take n a.
Proof.
  revert n. induction a as [|x a IH]; intros n Hpre Hnul; [discriminate|].
  destruct n as [|n].
  - cbn in Hnul. injection Hnul as ->. reflexivity.
  - cbn [Ui.c_string take].
    destruct (Hpre 0%nat ltac:(lia)) as (c & Hc & Hnz). cbn in Hc. injection Hc as ->.
    destruct (Z.eqb_spec c 0); [contradiction|]. f_equal.
    apply IH; [|exact Hnul].
    intros i Hi. apply (Hpre (S i)). lia.
Qed.

Lemma input_invariant_step (e : Ui.sdl_event) (st : Ui.ui_state) :
  length (Ui.preset_input st) = 32%nat ->
  0 <= Ui.preset_input_len st <= 28 ->
  Ui.preset_input st !! Z.to_nat (Ui.preset_input_len st) = Some 0 ->
  (forall i, (i < Z.to_nat (Ui.preset_input_len st))%nat ->
     exists c, Ui.preset_input st !! i = Some c /\ Ui.name_char c = true) ->
  let st' := fst (Ui.handle_event e st) in
  length (Ui.preset_input st') = 32%nat
  /\ 0 <= Ui.preset_input_len st' <= 28
  /\ Ui.preset_input st' !! Z.to_nat (Ui.preset_input_len st') = Some 0
  /\ (forall i, (i < Z.to_nat (Ui.preset_input_len st'))%nat ->
        exists c, Ui.preset_input st' !! i = Some c /\ Ui.name_char c = true).
Proof.
  intros Hlen Hr Hnul Hpre.
  assert (Hclear : forall m,
    let st' := Ui.clear_input (Ui.set_mode st m) in
    length (Ui.preset_input st') = 32%nat
    /\ 0 <= Ui.preset_input_len st' <= 28
    /\ Ui.preset_input st' !! Z.to_nat (Ui.preset_input_len st') = Some 0
    /\ (forall i, (i < Z.to_nat (Ui.preset_input_len st'))%nat ->
          exists c, Ui.preset_input st' !! i = Some c /\ Ui.name_char c = true)).
  { intros m. unfold Ui.clear_input, Ui.poke. cbn.
    rewrite length_insert. split; [assumption|]. split; [lia|]. split.
    - apply list_lookup_insert_eq. lia.
    - intros i Hi. lia. }
  destruct e as [c|k]; unfold Ui.handle_event; destruct (Ui.ui_mode st);
    try (cbn [fst]; auto; fail).
  - (* a char typed in the save dialog *)
    destruct (Z.ltb_spec (Ui.preset_input_len st) 28); [|cbn [fst]; auto].
    destruct (Ui.name_char c) eqn:Hc; [|cbn [fst]; auto].
    cbn [fst Ui.set_input Ui.preset_input Ui.preset_input_len]. unfold Ui.poke.
    replace (0 <=? Ui.preset_input_len st) with true by (symmetry; apply Z.leb_le; lia).
    replace (0 <=? Ui.preset_input_len st + 1) with true
      by (symmetry; apply Z.leb_le; lia).
    replace (Z.to_nat (Ui.preset_input_len st + 1))
      with (S (Z.to_nat (Ui.preset_input_len st))) by lia.
    set (n := Z.to_nat (Ui.preset_input_len st)) in *.
    rewrite !length_insert. split; [assumption|]. split; [lia|]. split.
    + apply list_lookup_insert_eq. rewrite length_insert. lia.
    + intros i Hi. rewrite list_lookup_insert_ne by lia.
      destruct (Nat.eq_dec i n) as [->|Hne].
      * exists c. split; [apply list_lookup_insert_eq; lia | assumption].
      * rewrite list_lookup_insert_ne by lia. apply Hpre. lia.
  - (* a key in normal mode *)
    destruct k;
      first [ solve [cbn [fst]; auto] | solve [cbn [fst]; apply Hclear]
            | solve [cbn [fst]; cbn; auto] ].
  - (* a key in the save dialog *)
    destruct k;
      try first [ solve [cbn [fst]; auto] | solve [cbn [fst]; apply Hclear]
                | solve [cbn [fst]; cbn; auto] ].
    destruct (Z.gtb_spec (Ui.preset_input_len st) 0); [|cbn [fst]; auto].
    cbn [fst Ui.set_input Ui.preset_input Ui.preset_input_len]. unfold Ui.poke.
    replace (0 <=? Ui.preset_input_len st - 1) with true
      by (symmetry; apply Z.leb_le; lia).
    rewrite length_insert. split; [assumption|]. split; [lia|]. split.
    + apply list_lookup_insert_eq. lia.
    + intros i Hi. rewrite list_lookup_insert_ne by lia. apply Hpre. lia.
  - (* a key in the load dialog *)
    destruct k;
      try first [ solve [cbn [fst]; auto] | solve [cbn [fst]; apply Hclear]
                | solve [cbn [fst]; cbn; auto] ].
    + destruct (_ >? 0); cbn [fst]; cbn; auto.
    + destruct (_ <? _); cbn [fst]; cbn; auto.
Qed.

(** X21.  Whatever is typed and pressed, starting from the empty dialog
    state: the typed name never exceeds 28 chars in the 32-char array, and
    every name handed to [config_save_preset] is non-empty, at most 28
    chars long and made of letters, digits, [_] and [-] only (so it holds
    no path separator and no dot). *)
Theorem saved_names_are_safe (events : list Ui.sdl_event) (name : list Z) :
  let '(st, acts) := Ui.handle_events events Ui.initial_ui in
  (length (Ui.preset_input st) = 32%nat /\ 0 <= Ui.preset_input_len st <= 28)
  /\ (In (Ui.config_save_preset name) acts ->
      name <> [] /\ (length name <= 28)%nat
      /\ Forall (fun c => Ui.name_char c = true) name).
Proof.
  assert (Hgen : forall evs st,
    length (Ui.preset_input st) = 32%nat ->
    0 <= Ui.preset_input_len st <= 28 ->
    Ui.preset_input st !! Z.to_nat (Ui.preset_input_len st) = Some 0 ->
    (forall i, (i < Z.to_nat (Ui.preset_input_len st))%nat ->
       exists c, Ui.preset_input st !! i = Some c /\ Ui.name_char c = true) ->
    let '(st', acts) := Ui.handle_events evs st in
    (length (Ui.preset_input st') = 32%nat /\ 0 <= Ui.preset_input_len st' <= 28)
    /\ (In (Ui.config_save_preset name) acts ->
        name <> [] /\ (length name <= 28)%nat
        /\ Forall (fun c => Ui.name_char c = true) name)).
  { induction evs as [|e evs IH]; intros st Hlen Hr Hnul Hpre; cbn [Ui.handle_events].
    - split; [auto | intros []].
    - pose proof (input_invariant_step e st Hlen Hr Hnul Hpre) as Hstep. cbv zeta in Hstep.
      assert (Hact : forall a, snd (Ui.handle_event e st) = Some a ->
                a = Ui.config_save_preset name ->
                name <> [] /\ (length name <= 28)%nat
                /\ Forall (fun c => Ui.name_char c = true) name).
      { intros a Ha ->. unfold Ui.handle_event in Ha.
        destruct e as [c|k]; destruct (Ui.ui_mode st); try destruct k; cbn [snd] in Ha;
          repeat match type of Ha with
                 | context [if ?b then _ else _] => destruct b eqn:?; cbn [snd] in Ha
                 end;
          try discriminate.
        injection Ha as <-.
        assert (Hpos : 0 < Ui.preset_input_len st) by (apply Z.gtb_lt; assumption).
        rewrite (c_string_take _ (Z.to_nat (Ui.preset_input_len st))).
        - split; [|split].
          + intros Hnil. apply (f_equal length) in Hnil.
            rewrite length_take in Hnil. cbn in Hnil. lia.
          + rewrite length_take. lia.
          + apply Forall_forall. intros c Hin.
            apply list_elem_of_In, list_elem_of_lookup in Hin. destruct Hin as [i Hi].
            apply lookup_take_Some in Hi. destruct Hi as [Hi Hlt].
            destruct (Hpre i Hlt) as (c' & Hc' & Hok). congruence.
        - intros i Hi. destruct (Hpre i Hi) as (c & Hc & Hok).
          exists c. split; [assumption | now apply name_char_nonzero].
        - assumption. }
      destruct (Ui.handle_event e st) as [st1 a]. cbn [fst snd] in *.
      destruct Hstep as (Hlen1 & Hr1 & Hnul1 & Hpre1).
      specialize (IH st1 Hlen1 Hr1 Hnul1 Hpre1).
      destruct (Ui.handle_events evs st1) as [st2 acts].
      destruct IH as [Hinv Hsafe]. split; [assumption|].
      destruct a as [a|]; [|assumption].
      intros [Heq | Hin]; [now apply (Hact a) | now apply Hsafe]. }
  apply Hgen.
  - reflexivity.
  - cbn. lia.
  - reflexivity.
  - intros i Hi. cbn in Hi. lia.
Qed.

(** Typing [a], [/], [b] after F1 and pressing Return saves [ab]: the
    slash is dropped. *)
Lemma typed_name_is_saved :
  snd (Ui.handle_events
         [Ui.SDL_KEYDOWN Ui.SDLK_F1; Ui.SDL_TEXTINPUT 97; Ui.SDL_TEXTINPUT 47;
          Ui.SDL_TEXTINPUT 98; Ui.SDL_KEYDOWN Ui.SDLK_RETURN] Ui.initial_ui)
  = [Ui.config_save_preset [97; 98]].
Proof. reflexivity. Qed.

(** While the load dialog is open the selection is one of the
    [2 + preset_count] entries. *)
Lemma selection_invariant_step (e : Ui.sdl_event) (st : Ui.ui_state) :
  0 <= Ui.preset_count st ->
  (Ui.ui_mode st = Ui.UI_LOAD_PRESET ->
   0 <= Ui.preset_selected st < 2 + Ui.preset_count st) ->
  let st' := fst (Ui.handle_event e st) in
  0 <= Ui.preset_count st'
  /\ (Ui.ui_mode st' = Ui.UI_LOAD_PRESET ->
      0 <= Ui.preset_selected st' < 2 + Ui.preset_count st').
Proof.
  intros Hcount Hsel. unfold Ui.handle_event.
  destruct e as [c|k]; destruct (Ui.ui_mode st) eqn:Hm; try destruct k; cbn [fst];
    repeat match goal with
           | |- context [if ?b then _ else _] => destruct b eqn:?; cbn [fst]
           end;
    cbn; rewrite ?Hm;
    try (split; [lia | intros; try discriminate; try (apply Hsel; reflexivity); lia]).
  - split; [lia|]. intros _. specialize (Hsel eq_refl).
    match goal with H : (_ >? 0) = true |- _ => apply Z.gtb_lt in H end. lia.
  - split; [lia|]. intros _. specialize (Hsel eq_refl).
    match goal with H : (_ <? _) = true |- _ => apply Z.ltb_lt in H end. lia.
Qed.

Lemma selection_invariant (events : list Ui.sdl_event) (st : Ui.ui_state) :
  0 <= Ui.preset_count st ->
  (Ui.ui_mode st = Ui.UI_LOAD_PRESET ->
   0 <= Ui.preset_selected st < 2 + Ui.preset_count st) ->
  let st' := fst (Ui.handle_events events st) in
  0 <= Ui.preset_count st'
  /\ (Ui.ui_mode st' = Ui.UI_LOAD_PRESET ->
      0 <= Ui.preset_selected st' < 2 + Ui.preset_count st').
Proof.
  revert st. induction events as [|e events IH]; intros st Hcount Hsel;
    cbn [Ui.handle_events]; [cbn [fst]; auto|].
  pose proof (selection_invariant_step e st Hcount Hsel) as Hstep. cbv zeta in Hstep.
  destruct (Ui.handle_event e st) as [st1 a]. cbn [fst] in Hstep.
  destruct Hstep as [Hc1 Hs1]. specialize (IH st1 Hc1 Hs1). cbv zeta in IH.
  destruct (Ui.handle_events events st1) as [st2 acts]. exact IH.
Qed.

(** X22.  In the load dialog the selection always points at an entry: after
    any run of events that leaves the dialog open, the selection lies in
    [0, 2 + preset_count), and Return loads a preset -- a built-in one, or
    the user preset at an index below [preset_count] -- never NULL. *)
Theorem load_dialog_selects_entry (events : list Ui.sdl_event) :
  let st := fst (Ui.handle_events events Ui.initial_ui) in
  Ui.ui_mode st = Ui.UI_LOAD_PRESET ->
  0 <= Ui.preset_selected st < 2 + Ui.preset_count st
  /\ exists name,
       snd (Ui.handle_event (Ui.SDL_KEYDOWN Ui.SDLK_RETURN) st)
       = Some (Ui.config_load_preset name)
       /\ match name with
          | Ui.name_nes => Ui.preset_selected st = 0
          | Ui.name_snes => Ui.preset_selected st = 1
          | Ui.name_user i => i = Ui.preset_selected st - 2 /\ 0 <= i < Ui.preset_count st
          | Ui.name_null => False
          end.
Proof.
  intros st Hmode.
  destruct (selection_invariant events Ui.initial_ui ltac:(cbn; lia)
              ltac:(discriminate)) as [Hcount Hsel].
  fold st in Hcount, Hsel. specialize (Hsel Hmode). split; [assumption|].
  unfold Ui.handle_event. rewrite Hmode. cbn [snd].
  destruct (Z.eqb_spec (Ui.preset_selected st) 0) as [E0|E0].
  - exists Ui.name_nes. split; [reflexivity | assumption].
  - destruct (Z.eqb_spec (Ui.preset_selected st) 1) as [E1|E1].
    + exists Ui.name_snes. split; [reflexivity | assumption].
    + destruct (Z.ltb_spec (Ui.preset_selected st - 2) (Ui.preset_count st)); [|lia].
      exists (Ui.name_user (Ui.preset_selected st - 2)).
      split; [reflexivity|]. split; [reflexivity | lia].
Qed.

Lemma load_dialog_selects_entry_witness :
  let st := fst (Ui.handle_events
                   [Ui.SDL_KEYDOWN (Ui.SDLK_F2 3); Ui.SDL_KEYDOWN Ui.SDLK_DOWN;
                    Ui.SDL_KEYDOWN Ui.SDLK_DOWN; Ui.SDL_KEYDOWN Ui.SDLK_DOWN;
                    Ui.SDL_KEYDOWN Ui.SDLK_UP] Ui.initial_ui) in
  0 <= Ui.preset_selected st < 2 + Ui.preset_count st
  /\ exists name,
       snd (Ui.handle_event (Ui.SDL_KEYDOWN Ui.SDLK_RETURN) st)
       = Some (Ui.config_load_preset name)
       /\ match name with
          | Ui.name_nes => Ui.preset_selected st = 0
          | Ui.name_snes => Ui.preset_selected st = 1
          | Ui.name_user i => i = Ui.preset_selected st - 2 /\ 0 <= i < Ui.preset_count st
          | Ui.name_null => False
          end.
Proof.
  apply (load_dialog_selects_entry
           [Ui.SDL_KEYDOWN (Ui.SDLK_F2 3); Ui.SDL_KEYDOWN Ui.SDLK_DOWN;
            Ui.SDL_KEYDOWN Ui.SDLK_DOWN; Ui.SDL_KEYDOWN Ui.SDLK_DOWN;
            Ui.SDL_KEYDOWN Ui.SDLK_UP]).
  reflexivity.
Defined.

(** ** config.c: writing and reading back *)

Lemma fmt_u_value (fuel : nat) (n : Z) :
  0 <= n < 2 ^ Z.of_nat fuel ->
  exists k, 0 <= k /\ forall tail acc,
    Config.digits_value (Config.fmt_u fuel n tail) acc
    = Config.digits_value tail (acc * 10 ^ k + n).
Proof.
  revert n. induction fuel as [|fuel IH]; intros n Hn.
  - exists 0. split; [lia|]. intros tail acc. cbn [Config.fmt_u].
    change (2 ^ Z.of_nat 0) with 1 in Hn. f_equal. lia.
  - cbn [Config.fmt_u]. destruct (Z.ltb_spec n 10) as [Hlt|Hge].
    + exists 1. split; [lia|]. intros tail acc. cbn [Config.digits_value].
      rewrite Z.mod_small by lia. unfold Config.isdigit.
      replace (48 <=? 48 + n) with true by (symmetry; apply Z.leb_le; lia).
      replace (48 + n <=? 57) with true by (symmetry; apply Z.leb_le; lia).
      cbn [andb]. f_equal. lia.
    + rewrite Nat2Z.inj_succ, Z.pow_succ_r in Hn by lia.
      assert (Hdiv : 0 <= n / 10 < 2 ^ Z.of_nat fuel).
      { split; [apply Z.div_pos; lia|].
        apply Z.div_lt_upper_bound; [lia|]. lia. }
      destruct (IH (n / 10) Hdiv) as (k & Hk & Hval).
      exists (k + 1). split; [lia|]. intros tail acc.
      rewrite Hval. cbn [Config.digits_value].
      pose proof (Z.mod_pos_bound n 10 ltac:(lia)) as Hmod.
      unfold Config.isdigit.
      replace (48 <=? 48 + n mod 10) with true by (symmetry; apply Z.leb_le; lia).
      replace (48 + n mod 10 <=? 57) with true by (symmetry; apply Z.leb_le; lia).
      cbn [andb]. f_equal.
      rewrite Z.pow_add_r, Z.pow_1_r by lia.
      pose proof (Z.div_mod n 10 ltac:(lia)). lia.
Qed.

(** The chars [fprintf] writes for a number: digits and a minus sign. *)
Lemma fmt_u_chars (fuel : nat) (n : Z) (tail : list Z) (c : Z) :
  0 <= n -> In c (Config.fmt_u fuel n tail) -> 48 <= c <= 57 \/ In c tail.
Proof.
  revert n tail. induction fuel as [|fuel IH]; intros n tail Hn; cbn [Config.fmt_u];
    [tauto|].
  pose proof (Z.mod_pos_bound n 10 ltac:(lia)) as Hmod.
  destruct (n <? 10).
  - intros [<- | Hin]; [left; lia | now right].
  - intros Hin. apply IH in Hin; [|apply Z.div_pos; lia].
    destruct Hin as [? | [<- | ?]]; [now left | left; lia | now right].
Qed.

Lemma fmt_u_length (fuel : nat) (n : Z) (tail : list Z) :
  (length (Config.fmt_u fuel n tail) <= fuel + length tail)%nat.
Proof.
  revert n tail. induction fuel as [|fuel IH]; intros n tail; cbn [Config.fmt_u];
    [lia|].
  destruct (n <? 10); [cbn [length]; lia|].
  specialize (IH (n / 10) ((48 + n mod 10) :: tail)). cbn [length] in IH. lia.
Qed.

Lemma fmt_u_head (fuel : nat) (n : Z) (tail : list Z) :
  0 <= n -> exists d rest, Config.fmt_u (S fuel) n tail = d :: rest /\ 48 <= d <= 57.
Proof.
  revert n tail. induction fuel as [|fuel IH]; intros n tail Hn;
    pose proof (Z.mod_pos_bound n 10 ltac:(lia)) as Hmod.
  - cbn [Config.fmt_u]. destruct (n <? 10); eexists _, _; (split; [reflexivity | lia]).
  - change (Config.fmt_u (S (S fuel)) n tail)
      with (if n <? 10 then (48 + n mod 10) :: tail
            else Config.fmt_u (S fuel) (n / 10) ((48 + n mod 10) :: tail)).
    destruct (n <? 10); [eexists _, _; split; [reflexivity | lia]|].
    apply IH. apply Z.div_pos; lia.
Qed.

Lemma log2_fuel (n : Z) : 0 <= n -> 0 <= n < 2 ^ Z.of_nat (S (Z.to_nat (Z.log2 n))).
Proof.
  intros Hn. split; [assumption|].
  pose proof (Z.log2_nonneg n) as Hl.
  rewrite Nat2Z.inj_succ, Z2Nat.id by assumption.
  destruct (Z.eq_dec n 0) as [->|Hne]; [reflexivity|].
  apply Z.log2_spec. lia.
Qed.

(** [atoi] reads back what [%d] wrote. *)
Lemma atoi_fmt_d (n : Z) : Config.atoi (Config.fmt_d n) = n.
Proof.
  unfold Config.fmt_d, Config.atoi.
  destruct (Z.ltb_spec n 0) as [Hneg|Hpos].
  - cbn [Config.skip_space]. change (Config.isspace 45) with false. cbv iota.
    change (45 =? 45) with true. cbv iota.
    destruct (fmt_u_value _ _ (log2_fuel (- n) ltac:(lia))) as (k & Hk & Hval).
    rewrite Hval. cbn [Config.digits_value]. lia.
  - destruct (fmt_u_head (Z.to_nat (Z.log2 n)) n [] Hpos) as (d & rest & Heq & Hd).
    destruct (fmt_u_value _ _ (log2_fuel n Hpos)) as (k & Hk & Hval).
    specialize (Hval [] 0). rewrite Heq in *. cbn [Config.skip_space].
    assert (Hsp : Config.isspace d = false).
    { unfold Config.isspace.
      destruct (Z.eqb_spec d 32); [lia|]. destruct (Z.leb_spec 9 d); [|reflexivity].
      destruct (Z.leb_spec d 13); [lia | reflexivity]. }
    rewrite Hsp.
    destruct (Z.eqb_spec d 45); [lia|]. destruct (Z.eqb_spec d 43); [lia|].
    rewrite Hval. cbn [Config.digits_value]. lia.
Qed.

(** What [%d] writes is a word: not empty, digits and a minus sign only,
    and at most 33 chars for an [int]. *)
Lemma fmt_d_word (n : Z) :
  - 2 ^ 31 <= n < 2 ^ 31 ->
  Config.fmt_d n <> [] /\ (length (Config.fmt_d n) <= 33)%nat
  /\ forall c, In c (Config.fmt_d n) -> 48 <= c <= 57 \/ c = 45.
Proof.
  intros Hr. unfold Config.fmt_d.
  assert (Hlog : forall m, 0 <= m <= 2 ^ 31 -> (Z.to_nat (Z.log2 m) <= 31)%nat).
  { intros m Hm. destruct (Z.eq_dec m 0) as [->|]; [cbn; lia|].
    assert (Z.log2 m <= Z.log2 (2 ^ 31)) by (apply Z.log2_le_mono; lia).
    rewrite Z.log2_pow2 in * by lia. lia. }
  destruct (Z.ltb_spec n 0) as [Hneg|Hpos].
  - split; [discriminate|]. split.
    + cbn [length]. pose proof (fmt_u_length (S (Z.to_nat (Z.log2 (- n)))) (- n) []).
      pose proof (Hlog (- n) ltac:(lia)). cbn [length] in *. lia.
    + intros c [<- | Hin]; [now right|]. apply fmt_u_chars in Hin; [|lia].
      destruct Hin as [? | []]. now left.
  - split; [|split].
    + destruct (fmt_u_head (Z.to_nat (Z.log2 n)) n [] Hpos) as (d & rest & -> & _).
      discriminate.
    + pose proof (fmt_u_length (S (Z.to_nat (Z.log2 n))) n []).
      pose proof (Hlog n ltac:(lia)). cbn [length] in *. lia.
    + intros c Hin. apply fmt_u_chars in Hin; [|lia].
      destruct Hin as [? | []]. now left.
Qed.

(** *** Lines *)

Lemma fgets_line (n : nat) (l rest : list Z) :
  ~ In 10 l -> (length l < n)%nat ->
  Config.fgets n (l ++ 10 :: rest) = (l ++ [10], rest).
Proof.
  revert n. induction l as [|c l IH]; intros n Hno Hlen.
  - destruct n as [|n]; [cbn in Hlen; lia|]. reflexivity.
  - destruct n as [|n]; [cbn in Hlen; lia|]. cbn [app Config.fgets].
    destruct (Z.eqb_spec c 10) as [->|]; [exfalso; apply Hno; now left|].
    rewrite IH; [reflexivity | intros H; apply Hno; now right | cbn in Hlen; lia].
Qed.

Lemma fgets_rest_length (n : nat) (f : list Z) :
  (length (snd (Config.fgets n f)) <= length f)%nat
  /\ (f <> [] -> (0 < n)%nat -> (length (snd (Config.fgets n f)) < length f)%nat).
Proof.
  revert f. induction n as [|n IH]; intros f; [cbn; split; lia|].
  destruct f as [|c f]; [cbn; split; [lia | congruence]|].
  cbn [Config.fgets]. destruct (c =? 10); [cbn; split; lia|].
  specialize (IH f). destruct (Config.fgets n f) as [l r]. cbn [snd length] in *.
  split; lia.
Qed.

Lemma lines_fuel_enough (fuel1 fuel2 : nat) (f : list Z) :
  (length f <= fuel1)%nat -> (length f <= fuel2)%nat ->
  Config.lines_fuel fuel1 f = Config.lines_fuel fuel2 f.
Proof.
  revert fuel2 f. induction fuel1 as [|fuel1 IH]; intros fuel2 f H1 H2.
  - destruct f; [|cbn in H1; lia]. destruct fuel2; reflexivity.
  - destruct f as [|c f]; [destruct fuel2; reflexivity|].
    destruct fuel2 as [|fuel2]; [cbn in H2; lia|].
    cbn [Config.lines_fuel].
    pose proof (fgets_rest_length 255 (c :: f)) as [_ Hlt].
    specialize (Hlt ltac:(discriminate) ltac:(lia)).
    destruct (Config.fgets 255 (c :: f)) as [l r]. cbn [snd length] in *.
    f_equal. apply IH; lia.
Qed.

(** A short line that ends in a newline is read as one line. *)
Lemma file_lines_cons (l rest : list Z) :
  ~ In 10 l -> (length l < 255)%nat ->
  Config.file_lines (l ++ 10 :: rest) = (l ++ [10]) :: Config.file_lines rest.
Proof.
  intros Hno Hlen. unfold Config.file_lines.
  destruct (l ++ 10 :: rest) as [|c f] eqn:E; [destruct l; discriminate|].
  cbn [length Config.lines_fuel]. rewrite <- E, fgets_line by assumption.
  f_equal. apply lines_fuel_enough; [|lia].
  apply (f_equal length) in E. rewrite length_app in E. cbn [length] in E. lia.
Qed.

Lemma file_lines_kv (k v rest : list Z) :
  ~ In 10 k -> ~ In 10 v -> (length k + length v < 255)%nat ->
  Config.file_lines (k ++ v ++ [10] ++ rest)
  = (k ++ v ++ [10]) :: Config.file_lines rest.
Proof.
  intros Hk Hv Hlen.
  replace (k ++ v ++ [10] ++ rest) with ((k ++ v) ++ 10 :: rest)
    by (now rewrite <- app_assoc).
  rewrite file_lines_cons.
  - now rewrite <- app_assoc.
  - rewrite in_app_iff. tauto.
  - rewrite length_app. lia.
Qed.

(** *** One line through [sscanf] *)

Lemma until_nul_id (l : list Z) : ~ In 0 l -> Config.until_nul l = l.
Proof.
  induction l as [|c l IH]; intros Hno; [reflexivity|]. cbn [Config.until_nul].
  destruct (Z.eqb_spec c 0) as [->|]; [exfalso; apply Hno; now left|].
  f_equal. apply IH. intros H. apply Hno. now right.
Qed.

Lemma scan_until_eq_key (n : nat) (key r : list Z) :
  ~ In 61 key -> (length key <= n)%nat ->
  Config.scan_until_eq n (key ++ 61 :: r) = (key, 61 :: r).
Proof.
  revert n. induction key as [|c key IH]; intros n Hno Hlen.
  - destruct n; reflexivity.
  - destruct n as [|n]; [cbn in Hlen; lia|]. cbn [app Config.scan_until_eq].
    destruct (Z.eqb_spec c 61) as [->|]; [exfalso; apply Hno; now left|].
    rewrite IH; [reflexivity | intros H; apply Hno; now right | cbn in Hlen; lia].
Qed.

Lemma scan_word_word (n : nat) (value : list Z) :
  (forall c, In c value -> Config.isspace c = false) -> (length value <= n)%nat ->
  Config.scan_word n (value ++ [10]) = value.
Proof.
  revert n. induction value as [|c value IH]; intros n Hns Hlen.
  - destruct n; reflexivity.
  - destruct n as [|n]; [cbn in Hlen; lia|]. cbn [app Config.scan_word].
    rewrite (Hns c) by now left. f_equal.
    apply IH; [intros c' Hc'; apply Hns; now right | cbn in Hlen; lia].
Qed.

(** A line [key=value] with a newline reaches the [if] chain with that key
    and that value. *)
Lemma parse_line_kv {float : Type} (atof : list Z -> float)
    (config : Config.config_t float) (key value : list Z) :
  key <> [] -> (length key <= 63)%nat -> ~ In 61 key -> ~ In 0 key ->
  value <> [] -> (length value <= 127)%nat ->
  (forall c, In c value -> Config.isspace c = false /\ c <> 0) ->
  Config.parse_line atof config ((key ++ [61]) ++ value ++ [10])
  = Config.assign atof config key value.
Proof.
  intros Hk Hklen Hk61 Hk0 Hv Hvlen Hvc.
  unfold Config.parse_line, Config.sscanf_key_value.
  rewrite until_nul_id.
  - rewrite <- app_assoc. cbn [app]. rewrite scan_until_eq_key by assumption.
    destruct key as [|k0 key]; [contradiction|].
    destruct value as [|v0 value]; [contradiction|].
    cbn [app Config.skip_space]. rewrite (proj1 (Hvc v0 ltac:(now left))).
    change (v0 :: value ++ [10]) with ((v0 :: value) ++ [10]).
    rewrite scan_word_word; [reflexivity | intros c Hc; now apply Hvc | assumption].
  - rewrite !in_app_iff. cbn [In]. intros [[H | [H | []]] | [H | [H | []]]];
      try discriminate; try contradiction.
    now apply (proj2 (Hvc 0 H)).
Qed.

Lemma fmt_d_value_ok (n : Z) :
  - 2 ^ 31 <= n < 2 ^ 31 ->
  Config.fmt_d n <> [] /\ (length (Config.fmt_d n) <= 127)%nat
  /\ (forall c, In c (Config.fmt_d n) -> Config.isspace c = false /\ c <> 0)
  /\ ~ In 10 (Config.fmt_d n).
Proof.
  intros Hr. destruct (fmt_d_word n Hr) as (Hne & Hlen & Hch).
  split; [assumption|]. split; [lia|]. split.
  - intros c Hc. apply Hch in Hc. split; [|lia]. unfold Config.isspace.
    destruct (Z.eqb_spec c 32); [lia|]. destruct (Z.leb_spec 9 c); [|reflexivity].
    destruct (Z.leb_spec c 13); [lia | reflexivity].
  - intros H. apply Hch in H. lia.
Qed.

(** The line of [h_stretch] touches no other field, whatever [%f] wrote. *)
Lemma parse_line_h_stretch {float : Type} (atof : list Z -> float)
    (config : Config.config_t float) (tail : list Z) :
  let c' := Config.parse_line atof config (Config.str "h_stretch="%cstr ++ tail) in
  Config.crop_x c' = Config.crop_x config /\ Config.crop_y c' = Config.crop_y config
  /\ Config.crop_w c' = Config.crop_w config /\ Config.crop_h c' = Config.crop_h config
  /\ Config.smooth_h c' = Config.smooth_h config
  /\ Config.use_240p c' = Config.use_240p config
  /\ Config.scanline_offset c' = Config.scanline_offset config.
Proof.
  unfold Config.parse_line, Config.sscanf_key_value.
  change (Config.str "h_stretch="%cstr)
    with [104; 95; 115; 116; 114; 101; 116; 99; 104; 61].
  cbn [app Config.until_nul Z.eqb Pos.eqb Config.scan_until_eq].
  destruct (Config.scan_word 127 (Config.skip_space (Config.until_nul tail)));
    [repeat split|].
  unfold Config.assign.
  repeat (rewrite bool_decide_eq_false_2
            by (let H := fresh in intros H; vm_compute in H; discriminate H)).
  rewrite bool_decide_eq_true_2 by reflexivity.
  repeat split.
Qed.

(** Each key of the [if / else if] chain sets its own field and leaves the
    seven others as they were. *)
Lemma assign_fields {float : Type} (atof : list Z -> float)
    (config : Config.config_t float) (key value : list Z) :
  let c' := Config.assign atof config key value in
  Config.crop_x c'
    = (if bool_decide (key = Config.str "crop_x"%cstr)
       then Config.atoi value else Config.crop_x config)
  /\ Config.crop_y c'
    = (if bool_decide (key = Config.str "crop_y"%cstr)
       then Config.atoi value else Config.crop_y config)
  /\ Config.crop_w c'
    = (if bool_decide (key = Config.str "crop_w"%cstr)
       then Config.atoi value else Config.crop_w config)
  /\ Config.crop_h c'
    = (if bool_decide (key = Config.str "crop_h"%cstr)
       then Config.atoi value else Config.crop_h config)
  /\ Config.smooth_h c'
    = (if bool_decide (key = Config.str "smooth_h"%cstr)
       then negb (Config.atoi value =? 0) else Config.smooth_h config)
  /\ Config.use_240p c'
    = (if bool_decide (key = Config.str "use_240p"%cstr)
       then negb (Config.atoi value =? 0) else Config.use_240p config)
  /\ Config.scanline_offset c'
    = (if bool_decide (key = Config.str "scanline_offset"%cstr)
       then Config.atoi value else Config.scanline_offset config).
Proof.
  cbv zeta. unfold Config.assign.
  repeat (case_bool_decide;
          [ subst key;
            repeat (rewrite bool_decide_eq_false_2
                      by (let H := fresh in intros H; vm_compute in H; discriminate H));
            repeat (rewrite bool_decide_eq_true_2 by reflexivity);
            cbn; repeat split | ]).
  cbn; repeat split.
Qed.

(** Reading back what [write_config_file] wrote restores every integer and
    boolean field, whatever the configuration read into held before and
    whatever text [%f] produced for the stretch factor (as long as it is
    one line). *)
Lemma parse_written_file {float : Type} (fmt_f : float -> list Z)
    (atof : list Z -> float) (c c0 : Config.config_t float) :
  (forall x, ~ In 10 (fmt_f x) /\ (length (fmt_f x) <= 200)%nat) ->
  - 2 ^ 31 <= Config.crop_x c < 2 ^ 31 -> - 2 ^ 31 <= Config.crop_y c < 2 ^ 31 ->
  - 2 ^ 31 <= Config.crop_w c < 2 ^ 31 -> - 2 ^ 31 <= Config.crop_h c < 2 ^ 31 ->
  - 2 ^ 31 <= Config.scanline_offset c < 2 ^ 31 ->
  let '(ok, c') :=
    Config.parse_config_file atof c0 (Some (Config.write_config_file fmt_f c)) in
  ok = true
  /\ Config.crop_x c' = Config.crop_x c /\ Config.crop_y c' = Config.crop_y c
  /\ Config.crop_w c' = Config.crop_w c /\ Config.crop_h c' = Config.crop_h c
  /\ Config.smooth_h c' = Config.smooth_h c /\ Config.use_240p c' = Config.use_240p c
  /\ Config.scanline_offset c' = Config.scanline_offset c.
Proof.
  intros Hf Hx Hy Hw Hh Hs.
  assert (Hb : forall b : bool, - 2 ^ 31 <= (if b then 1 else 0) < 2 ^ 31)
    by (intros []; lia).
  pose proof (fmt_d_value_ok _ Hx) as (Hx1 & Hx2 & Hx3 & Hx4).
  pose proof (fmt_d_value_ok _ Hy) as (Hy1 & Hy2 & Hy3 & Hy4).
  pose proof (fmt_d_value_ok _ Hw) as (Hw1 & Hw2 & Hw3 & Hw4).
  pose proof (fmt_d_value_ok _ Hh) as (Hh1 & Hh2 & Hh3 & Hh4).
  pose proof (fmt_d_value_ok _ Hs) as (Hs1 & Hs2 & Hs3 & Hs4).
  pose proof (fmt_d_value_ok _ (Hb (Config.smooth_h c))) as (Hm1 & Hm2 & Hm3 & Hm4).
  pose proof (fmt_d_value_ok _ (Hb (Config.use_240p c))) as (Hu1 & Hu2 & Hu3 & Hu4).
  destruct (Hf (Config.h_stretch c)) as [Hf1 Hf2].
  pose proof (fmt_d_word _ Hx) as (_ & Lx & _).
  pose proof (fmt_d_word _ Hy) as (_ & Ly & _).
  pose proof (fmt_d_word _ Hw) as (_ & Lw & _).
  pose proof (fmt_d_word _ Hh) as (_ & Lh & _).
  pose proof (fmt_d_word _ Hs) as (_ & Ls & _).
  pose proof (fmt_d_word _ (Hb (Config.smooth_h c))) as (_ & Lm & _).
  pose proof (fmt_d_word _ (Hb (Config.use_240p c))) as (_ & Lu & _).
  assert (Hkey : forall k : list Z, forallb (fun c => negb (c =? 10)) k = true ->
            ~ In 10 k).
  { intros k Hk Hin. rewrite forallb_forall in Hk. specialize (Hk 10 Hin). discriminate. }
  assert (Hlines : Config.file_lines (Config.write_config_file fmt_f c)
    = [ (Config.str "crop_x"%cstr ++ [61]) ++ Config.fmt_d (Config.crop_x c) ++ [10];
        (Config.str "crop_y"%cstr ++ [61]) ++ Config.fmt_d (Config.crop_y c) ++ [10];
        (Config.str "crop_w"%cstr ++ [61]) ++ Config.fmt_d (Config.crop_w c) ++ [10];
        (Config.str "crop_h"%cstr ++ [61]) ++ Config.fmt_d (Config.crop_h c) ++ [10];
        Config.str "h_stretch="%cstr ++ fmt_f (Config.h_stretch c) ++ [10];
        (Config.str "smooth_h"%cstr ++ [61])
          ++ Config.fmt_d (if Config.smooth_h c then 1 else 0) ++ [10];
        (Config.str "use_240p"%cstr ++ [61])
          ++ Config.fmt_d (if Config.use_240p c then 1 else 0) ++ [10];
        (Config.str "scanline_offset"%cstr ++ [61])
          ++ Config.fmt_d (Config.scanline_offset c) ++ [10] ]).
  { unfold Config.write_config_file.
    rewrite (file_lines_kv (Config.str "crop_x="%cstr));
      [|apply Hkey; reflexivity | assumption | change (length (Config.str _)) with 7%nat; lia].
    rewrite (file_lines_kv (Config.str "crop_y="%cstr));
      [|apply Hkey; reflexivity | assumption | change (length (Config.str _)) with 7%nat; lia].
    rewrite (file_lines_kv (Config.str "crop_w="%cstr));
      [|apply Hkey; reflexivity | assumption | change (length (Config.str _)) with 7%nat; lia].
    rewrite (file_lines_kv (Config.str "crop_h="%cstr));
      [|apply Hkey; reflexivity | assumption | change (length (Config.str _)) with 7%nat; lia].
    rewrite (file_lines_kv (Config.str "h_stretch="%cstr));
      [|apply Hkey; reflexivity | assumption | change (length (Config.str _)) with 10%nat; lia].
    rewrite (file_lines_kv (Config.str "smooth_h="%cstr));
      [|apply Hkey; reflexivity | assumption | change (length (Config.str _)) with 9%nat; lia].
    rewrite (file_lines_kv (Config.str "use_240p="%cstr));
      [|apply Hkey; reflexivity | assumption | change (length (Config.str _)) with 9%nat; lia].
    replace (Config.fmt_d (Config.scanline_offset c) ++ [10])
      with (Config.fmt_d (Config.scanline_offset c) ++ [10] ++ []) by reflexivity.
    rewrite (file_lines_kv (Config.str "scanline_offset="%cstr));
      [|apply Hkey; reflexivity | assumption | change (length (Config.str _)) with 16%nat; lia].
    reflexivity. }
  unfold Config.parse_config_file. rewrite Hlines. clear Hlines.
  cbn [fold_left].
  assert (Hline : forall (cfg : Config.config_t float) (key : list Z) (n : Z),
            - 2 ^ 31 <= n < 2 ^ 31 ->
            forallb (fun c => negb (c =? 61) && negb (c =? 0)) key = true ->
            (0 < length key <= 63)%nat ->
            Config.parse_line atof cfg ((key ++ [61]) ++ Config.fmt_d n ++ [10])
            = Config.assign atof cfg key (Config.fmt_d n)).
  { intros cfg key n Hn Hkey' Hlen.
    pose proof (fmt_d_value_ok n Hn) as (V1 & V2 & V3 & _).
    rewrite forallb_forall in Hkey'.
    apply parse_line_kv; try assumption; try lia.
    - intros ->. cbn in Hlen. lia.
    - intros Hin. specialize (Hkey' 61 Hin). discriminate.
    - intros Hin. specialize (Hkey' 0 Hin). discriminate. }
  assert (Hstep : forall (cfg : Config.config_t float) (key : list Z) (n : Z),
            - 2 ^ 31 <= n < 2 ^ 31 ->
            forallb (fun c => negb (c =? 61) && negb (c =? 0)) key = true ->
            (0 < length key <= 63)%nat ->
            let c' := Config.parse_line atof cfg
                        ((key ++ [61]) ++ Config.fmt_d n ++ [10]) in
            Config.crop_x c'
              = (if bool_decide (key = Config.str "crop_x"%cstr)
                 then n else Config.crop_x cfg)
            /\ Config.crop_y c'
              = (if bool_decide (key = Config.str "crop_y"%cstr)
                 then n else Config.crop_y cfg)
            /\ Config.crop_w c'
              = (if bool_decide (key = Config.str "crop_w"%cstr)
                 then n else Config.crop_w cfg)
            /\ Config.crop_h c'
              = (if bool_decide (key = Config.str "crop_h"%cstr)
                 then n else Config.crop_h cfg)
            /\ Config.smooth_h c'
              = (if bool_decide (key = Config.str "smooth_h"%cstr)
                 then negb (n =? 0) else Config.smooth_h cfg)
            /\ Config.use_240p c'
              = (if bool_decide (key = Config.str "use_240p"%cstr)
                 then negb (n =? 0) else Config.use_240p cfg)
            /\ Config.scanline_offset c'
              = (if bool_decide (key = Config.str "scanline_offset"%cstr)
                 then n else Config.scanline_offset cfg)).
  { intros cfg key n Hn Hkey' Hlen. cbv zeta. rewrite Hline by assumption.
    pose proof (assign_fields atof cfg key (Config.fmt_d n)) as F.
    cbv zeta in F. rewrite atoi_fmt_d in F. exact F. }
  clear Hline.
  set (c1 := Config.parse_line atof c0 _).
  pose proof (Hstep c0 (Config.str "crop_x"%cstr) _ Hx eq_refl ltac:(cbn; lia)) as F1.
  cbv zeta in F1. fold c1 in F1. clearbody c1.
  set (c2 := Config.parse_line atof c1 _).
  pose proof (Hstep c1 (Config.str "crop_y"%cstr) _ Hy eq_refl ltac:(cbn; lia)) as F2.
  cbv zeta in F2. fold c2 in F2. clearbody c2.
  set (c3 := Config.parse_line atof c2 _).
  pose proof (Hstep c2 (Config.str "crop_w"%cstr) _ Hw eq_refl ltac:(cbn; lia)) as F3.
  cbv zeta in F3. fold c3 in F3. clearbody c3.
  set (c4 := Config.parse_line atof c3 _).
  pose proof (Hstep c3 (Config.str "crop_h"%cstr) _ Hh eq_refl ltac:(cbn; lia)) as F4.
  cbv zeta in F4. fold c4 in F4. clearbody c4.
  set (c5 := Config.parse_line atof c4 _).
  pose proof (parse_line_h_stretch atof c4 (fmt_f (Config.h_stretch c) ++ [10])) as F5.
  cbv zeta in F5. fold c5 in F5. clearbody c5.
  set (c6 := Config.parse_line atof c5 _).
  pose proof (Hstep c5 (Config.str "smooth_h"%cstr) _ (Hb (Config.smooth_h c))
                eq_refl ltac:(cbn; lia)) as F6.
  cbv zeta in F6. fold c6 in F6. clearbody c6.
  set (c7 := Config.parse_line atof c6 _).
  pose proof (Hstep c6 (Config.str "use_240p"%cstr) _ (Hb (Config.use_240p c))
                eq_refl ltac:(cbn; lia)) as F7.
  cbv zeta in F7. fold c7 in F7. clearbody c7.
  set (c8 := Config.parse_line atof c7 _).
  pose proof (Hstep c7 (Config.str "scanline_offset"%cstr) _ Hs eq_refl
                ltac:(cbn; lia)) as F8.
  cbv zeta in F8. fold c8 in F8. clearbody c8.
  clear Hstep.
  repeat match goal with
         | F : context [bool_decide ?P] |- _ =>
             let b := eval vm_compute in (bool_decide P) in
             change (bool_decide P) with b in F
         end.
  cbv beta iota in F1, F2, F3, F4, F6, F7, F8.
  destruct F1 as (A1 & _).
  destruct F2 as (B1 & B2 & _).
  destruct F3 as (C1 & C2 & C3 & _).
  destruct F4 as (D1 & D2 & D3 & D4 & _).
  destruct F5 as (E1 & E2 & E3 & E4 & _).
  destruct F6 as (G1 & G2 & G3 & G4 & G5 & _).
  destruct F7 as (I1 & I2 & I3 & I4 & I5 & I6 & _).
  destruct F8 as (J1 & J2 & J3 & J4 & J5 & J6 & J7).
  split; [reflexivity|].
  repeat split; try congruence.
  - rewrite J5, I5, G5. now destruct (Config.smooth_h c).
  - rewrite J6, I6. now destruct (Config.use_240p c).
Qed.


(** X23.  [config_save] followed by [config_load] restores the crop, the two
    display switches and the scanline offset, whatever the configuration
    loaded into held before. *)
Theorem config_save_load {float : Type} (fmt_f : float -> list Z)
    (atof : list Z -> float) (fs : Config.files) (c c0 : Config.config_t float) :
  (forall x, ~ In 10 (fmt_f x) /\ (length (fmt_f x) <= 200)%nat) ->
  - 2 ^ 31 <= Config.crop_x c < 2 ^ 31 -> - 2 ^ 31 <= Config.crop_y c < 2 ^ 31 ->
  - 2 ^ 31 <= Config.crop_w c < 2 ^ 31 -> - 2 ^ 31 <= Config.crop_h c < 2 ^ 31 ->
  - 2 ^ 31 <= Config.scanline_offset c < 2 ^ 31 ->
  let '(saved, fs') := Config.config_save fmt_f fs true c in
  let '(loaded, c') := Config.config_load atof fs' c0 in
  saved = true /\ loaded = true
  /\ Config.crop_x c' = Config.crop_x c /\ Config.crop_y c' = Config.crop_y c
  /\ Config.crop_w c' = Config.crop_w c /\ Config.crop_h c' = Config.crop_h c
  /\ Config.smooth_h c' = Config.smooth_h c /\ Config.use_240p c' = Config.use_240p c
  /\ Config.scanline_offset c' = Config.scanline_offset c.
Proof.
  intros Hf Hx Hy Hw Hh Hs.
  pose proof (parse_written_file fmt_f atof c c0 Hf Hx Hy Hw Hh Hs) as H.
  unfold Config.config_save, Config.config_load.
  rewrite bool_decide_eq_true_2 by reflexivity.
  destruct (Config.parse_config_file atof c0
              (Some (Config.write_config_file fmt_f c))) as [loaded c'].
  split; [reflexivity | exact H].
Qed.

Lemma config_save_load_witness :
  let c := {| Config.crop_x := 448; Config.crop_y := 83; Config.crop_w := 1024;
              Config.crop_h := 912; Config.h_stretch := tt;
              Config.smooth_h := false; Config.use_240p := true;
              Config.scanline_offset := -2 |} in
  let '(saved, fs') :=
    Config.config_save (fun _ => Config.str "1.000000"%cstr) (fun _ => None) true c in
  let '(loaded, c') :=
    Config.config_load (fun _ => tt) fs' (Config.config_init unit tt) in
  saved = true /\ loaded = true
  /\ Config.crop_x c' = 448 /\ Config.crop_y c' = 83
  /\ Config.crop_w c' = 1024 /\ Config.crop_h c' = 912
  /\ Config.smooth_h c' = false /\ Config.use_240p c' = true
  /\ Config.scanline_offset c' = -2.
Proof.
  apply (config_save_load (fun _ : unit => Config.str "1.000000"%cstr) (fun _ => tt)
           (fun _ => None)
           {| Config.crop_x := 448; Config.crop_y := 83; Config.crop_w := 1024;
              Config.crop_h := 912; Config.h_stretch := tt;
              Config.smooth_h := false; Config.use_240p := true;
              Config.scanline_offset := -2 |} (Config.config_init unit tt)).
  - intros x. split; [vm_compute; intuition discriminate | vm_compute; lia].
  - cbn; lia.
  - cbn; lia.
  - cbn; lia.
  - cbn; lia.
  - cbn; lia.
Defined.

(** X24.  A preset saved under a name that is not built in loads back,
    under that name, with the saved crop, switches and scanline offset,
    whatever the configuration loaded into held before. *)
Theorem preset_save_load {float : Type} (fmt_f : float -> list Z)
    (atof : list Z -> float) (float_one : float) (fs : Config.files)
    (c c0 : Config.config_t float) (name : list Z) :
  (forall x, ~ In 10 (fmt_f x) /\ (length (fmt_f x) <= 200)%nat) ->
  - 2 ^ 31 <= Config.crop_x c < 2 ^ 31 -> - 2 ^ 31 <= Config.crop_y c < 2 ^ 31 ->
  - 2 ^ 31 <= Config.crop_w c < 2 ^ 31 -> - 2 ^ 31 <= Config.crop_h c < 2 ^ 31 ->
  - 2 ^ 31 <= Config.scanline_offset c < 2 ^ 31 ->
  name <> Config.str "NES-Switch-1080p"%cstr ->
  name <> Config.str "nes-switch-1080p"%cstr ->
  name <> Config.str "SNES-Switch-1080p"%cstr ->
  name <> Config.str "snes-switch-1080p"%cstr ->
  let '(saved, fs') := Config.config_save_preset fmt_f fs true c name in
  let '(loaded, c') := Config.config_load_preset atof float_one fs' c0 name in
  saved = true /\ loaded = true
  /\ Config.crop_x c' = Config.crop_x c /\ Config.crop_y c' = Config.crop_y c
  /\ Config.crop_w c' = Config.crop_w c /\ Config.crop_h c' = Config.crop_h c
  /\ Config.smooth_h c' = Config.smooth_h c /\ Config.use_240p c' = Config.use_240p c
  /\ Config.scanline_offset c' = Config.scanline_offset c.
Proof.
  intros Hf Hx Hy Hw Hh Hs N1 N2 N3 N4.
  pose proof (parse_written_file fmt_f atof c c0 Hf Hx Hy Hw Hh Hs) as H.
  unfold Config.config_save_preset, Config.config_load_preset.
  rewrite !(bool_decide_eq_false_2 (name = _)) by assumption.
  cbn [orb]. rewrite bool_decide_eq_true_2 by reflexivity.
  destruct (Config.parse_config_file atof c0
              (Some (Config.write_config_file fmt_f c))) as [loaded c'].
  split; [reflexivity | exact H].
Qed.

Lemma preset_save_load_witness :
  let c := {| Config.crop_x := 100; Config.crop_y := 50; Config.crop_w := 640;
              Config.crop_h := 480; Config.h_stretch := tt;
              Config.smooth_h := true; Config.use_240p := false;
              Config.scanline_offset := 3 |} in
  let '(saved, fs') :=
    Config.config_save_preset (fun _ : unit => Config.str "1.000000"%cstr)
      (fun _ => None) true c (Config.str "mygame"%cstr) in
  let '(loaded, c') :=
    Config.config_load_preset (fun _ : list Z => tt) tt fs' (Config.config_init unit tt)
      (Config.str "mygame"%cstr) in
  saved = true /\ loaded = true
  /\ Config.crop_x c' = 100 /\ Config.crop_y c' = 50
  /\ Config.crop_w c' = 640 /\ Config.crop_h c' = 480
  /\ Config.smooth_h c' = true /\ Config.use_240p c' = false
  /\ Config.scanline_offset c' = 3.
Proof.
  apply (preset_save_load (fun _ : unit => Config.str "1.000000"%cstr) (fun _ => tt) tt
           (fun _ => None)
           {| Config.crop_x := 100; Config.crop_y := 50; Config.crop_w := 640;
              Config.crop_h := 480; Config.h_stretch := tt;
              Config.smooth_h := true; Config.use_240p := false;
              Config.scanline_offset := 3 |} (Config.config_init unit tt)
           (Config.str "mygame"%cstr)).
  - intros x. split; [vm_compute; intuition discriminate | vm_compute; lia].
  - cbn; lia.
  - cbn; lia.
  - cbn; lia.
  - cbn; lia.
  - cbn; lia.
  - vm_compute; discriminate.
  - vm_compute; discriminate.
  - vm_compute; discriminate.
  - vm_compute; discriminate.
Defined.

(** X25.  A preset saved under one of the four built-in names is never read
    back: loading that name gives the built-in crop and default settings,
    whatever was saved and whatever the file system holds. *)
Theorem builtin_name_shadows_file {float : Type} (fmt_f : float -> list Z)
    (atof : list Z -> float) (float_one : float) (fs : Config.files)
    (can_open : bool) (c c0 : Config.config_t float) (name : list Z) :
  In name [Config.str "NES-Switch-1080p"%cstr; Config.str "nes-switch-1080p"%cstr;
           Config.str "SNES-Switch-1080p"%cstr; Config.str "snes-switch-1080p"%cstr] ->
  let '(_, fs') := Config.config_save_preset fmt_f fs can_open c name in
  let '(loaded, c') := Config.config_load_preset atof float_one fs' c0 name in
  loaded = true
  /\ Config.crop_x c' = 448 /\ Config.crop_w c' = 1024
  /\ (Config.crop_y c', Config.crop_h c')
     = (if bool_decide (name = Config.str "NES-Switch-1080p"%cstr)
           || bool_decide (name = Config.str "nes-switch-1080p"%cstr)
        then (83, 912) else (92, 896))
  /\ Config.h_stretch c' = float_one
  /\ Config.smooth_h c' = true /\ Config.use_240p c' = true
  /\ Config.scanline_offset c' = 0.
Proof.
  intros Hin.
  unfold Config.config_save_preset, Config.config_load_preset.
  destruct can_open;
    cbn in Hin; destruct Hin as [<- | [<- | [<- | [<- | []]]]];
    vm_compute; repeat split.
Qed.

Lemma builtin_name_shadows_file_witness :
  let c := {| Config.crop_x := 100; Config.crop_y := 50; Config.crop_w := 640;
              Config.crop_h := 480; Config.h_stretch := 2;
              Config.smooth_h := false; Config.use_240p := false;
              Config.scanline_offset := 3 |} in
  let name := Config.str "SNES-Switch-1080p"%cstr in
  let '(_, fs') :=
    Config.config_save_preset (fun _ : Z => Config.str "2.000000"%cstr)
      (fun _ => None) true c name in
  let '(loaded, c') :=
    Config.config_load_preset (fun _ => 2) 1 fs' (Config.config_init Z 1) name in
  loaded = true
  /\ Config.crop_x c' = 448 /\ Config.crop_w c' = 1024
  /\ (Config.crop_y c', Config.crop_h c') = (92, 896)
  /\ Config.h_stretch c' = 1
  /\ Config.smooth_h c' = true /\ Config.use_240p c' = true
  /\ Config.scanline_offset c' = 0.
Proof.
  apply (builtin_name_shadows_file (fun _ : Z => Config.str "2.000000"%cstr)
           (fun _ => 2) 1 (fun _ => None) true
           {| Config.crop_x := 100; Config.crop_y := 50; Config.crop_w := 640;
              Config.crop_h := 480; Config.h_stretch := 2;
              Config.smooth_h := false; Config.use_240p := false;
              Config.scanline_offset := 3 |} (Config.config_init Z 1)
           (Config.str "SNES-Switch-1080p"%cstr)).
  cbn. tauto.
Defined.

(** ** Listing the presets *)

(** A name typed in the save dialog holds no dot, so the first [.ini] of
    its file name is the extension. *)
Lemma strstr_typed_name (n : list Z) :
  Forall (fun c => Ui.name_char c = true) n ->
  Config.strstr (n ++ Config.str ".ini"%cstr) (Config.str ".ini"%cstr)
  = Some (length n).
Proof.
  induction n as [|c n IH]; intros Hn; [reflexivity|].
  inversion Hn as [|c' n' Hc Hn']; subst c' n'.
  change ((c :: n) ++ Config.str ".ini"%cstr) with (c :: (n ++ Config.str ".ini"%cstr)).
  cbn [Config.strstr].
  replace (Config.starts_with (c :: n ++ Config.str ".ini"%cstr) (Config.str ".ini"%cstr))
    with false.
  - rewrite (IH Hn'). reflexivity.
  - change (Config.str ".ini"%cstr) with [46; 105; 110; 105].
    cbn [Config.starts_with].
    destruct (Z.eqb_spec c 46) as [->|]; [discriminate Hc | reflexivity].
Qed.

Lemma typed_file_is_file (n : list Z) : is_file (n ++ Config.str ".ini"%cstr).
Proof.
  split; intros E; apply (f_equal (@length Z)) in E;
    rewrite length_app in E; cbn in E; lia.
Qed.

Lemma count_ini_presets (ents : list (list Z)) (count : Z) :
  Forall preset_entry ents ->
  Config.count_ini ents count = count + Z.of_nat (length (filter is_file ents)).
Proof.
  revert count. induction ents as [|d ents IH]; intros count Hents; [cbn; lia|].
  inversion Hents as [|d' ents' Hd Hents']; subst d' ents'. cbn [Config.count_ini].
  destruct Hd as [-> | [-> | (n & -> & Hn)]].
  - change (Config.strstr _ _) with (@None nat).
    rewrite filter_cons_False by (intros [H _]; now apply H). now apply IH.
  - change (Config.strstr _ _) with (@None nat).
    rewrite filter_cons_False by (intros [_ H]; now apply H). now apply IH.
  - rewrite (strstr_typed_name n Hn).
    rewrite filter_cons_True by apply typed_file_is_file.
    rewrite (IH _ Hents'). cbn [length]. lia.
Qed.

Lemma read_names_presets (ents : list (list Z)) (i count : Z) :
  Forall preset_entry ents ->
  i + Z.of_nat (length (filter is_file ents)) <= count ->
  exists names,
    Config.read_names ents i count = (i + Z.of_nat (length names), names)
    /\ map (fun n => n ++ Config.str ".ini"%cstr) names = filter is_file ents.
Proof.
  revert i. induction ents as [|d ents IH]; intros i Hents Hcount.
  - exists []. cbn. split; [f_equal; lia | reflexivity].
  - inversion Hents as [|d' ents' Hd Hents']; subst d' ents'. cbn [Config.read_names].
    destruct Hd as [-> | [-> | (n & -> & Hn)]].
    + rewrite filter_cons_False in * by (intros [H _]; now apply H).
      change (Config.strstr _ _) with (@None nat).
      destruct (Z.ltb_spec i count) as [Hlt|Hge]; [exact (IH i Hents' Hcount)|].
      exists []. destruct (filter is_file ents); [|cbn in Hcount; lia].
      cbn. split; [f_equal; lia | reflexivity].
    + rewrite filter_cons_False in * by (intros [_ H]; now apply H).
      change (Config.strstr _ _) with (@None nat).
      destruct (Z.ltb_spec i count) as [Hlt|Hge]; [exact (IH i Hents' Hcount)|].
      exists []. destruct (filter is_file ents); [|cbn in Hcount; lia].
      cbn. split; [f_equal; lia | reflexivity].
    + rewrite filter_cons_True in * by apply typed_file_is_file.
      cbn [length] in Hcount.
      destruct (IH (i + 1) Hents' ltac:(lia)) as (names & Hr & Hm).
      exists (n :: names). rewrite (strstr_typed_name n Hn), Hr.
      destruct (Z.ltb_spec i count); [|lia].
      rewrite take_app_length. cbn [length map]. rewrite Hm.
      split; [f_equal; lia | reflexivity].
Qed.

(** X26.  In a presets directory that holds only [.], [..] and the files
    of presets saved from the dialog, [config_list_presets] returns every
    saved name exactly once, in directory order, with the matching count;
    it returns [NULL] exactly when there is no preset. *)
Theorem dialog_presets_listed (ents : list (list Z)) :
  Forall preset_entry ents ->
  let '(count, names) := Config.config_list_presets (Some ents) in
  count = Z.of_nat (length (default [] names))
  /\ map (fun n => n ++ Config.str ".ini"%cstr) (default [] names)
     = filter is_file ents
  /\ (names = None <-> filter is_file ents = []).
Proof.
  intros Hents. unfold Config.config_list_presets.
  rewrite (count_ini_presets ents 0 Hents).
  destruct (Z.eqb_spec (0 + Z.of_nat (length (filter is_file ents))) 0) as [E|E].
  - assert (Hnil : filter is_file ents = []).
    { destruct (filter is_file ents); [reflexivity | cbn in E; lia]. }
    rewrite Hnil. cbn. tauto.
  - destruct (read_names_presets ents 0 (0 + Z.of_nat (length (filter is_file ents)))
                Hents (Z.le_refl _)) as (names & Hr & Hm).
    rewrite Hr. cbv beta iota delta [from_option id]. split; [lia|]. split; [exact Hm|].
    split; [discriminate|]. intros Hnil. rewrite Hnil in E. cbn in E. lia.
Qed.

Lemma dialog_presets_listed_witness :
  let '(count, names) :=
    Config.config_list_presets
      (Some [Config.str "."%cstr; Config.str "mygame.ini"%cstr; Config.str ".."%cstr;
             Config.str "NES-Switch-1080p.ini"%cstr]) in
  count = Z.of_nat (length (default [] names))
  /\ map (fun n => n ++ Config.str ".ini"%cstr) (default [] names)
     = filter is_file
         [Config.str "."%cstr; Config.str "mygame.ini"%cstr; Config.str ".."%cstr;
          Config.str "NES-Switch-1080p.ini"%cstr]
  /\ (names = None
      <-> filter is_file
            [Config.str "."%cstr; Config.str "mygame.ini"%cstr; Config.str ".."%cstr;
             Config.str "NES-Switch-1080p.ini"%cstr] = []).
Proof.
  apply (dialog_presets_listed
    [Config.str "."%cstr; Config.str "mygame.ini"%cstr; Config.str ".."%cstr;
     Config.str "NES-Switch-1080p.ini"%cstr]).
  assert (Hname : forall n : list Z,
            forallb Ui.name_char n = true ->
            preset_entry (n ++ Config.str ".ini"%cstr)).
  { intros n Hn. right. right. exists n. split; [reflexivity|].
    apply Forall_forall. intros c Hc. rewrite forallb_forall in Hn. now apply Hn. }
  apply List.Forall_cons; [left; reflexivity|].
  apply List.Forall_cons; [apply (Hname (Config.str "mygame"%cstr)); reflexivity|].
  apply List.Forall_cons; [right; left; reflexivity|].
  apply List.Forall_cons;
    [apply (Hname (Config.str "NES-Switch-1080p"%cstr)); reflexivity|].
  apply List.Forall_nil.
Defined.
